(** * DayLaunch: the plan-generation core

    A shallow embedding of [planningEngine.ts] (context gathering, response
    parsing, [timeToDate], [generatePlan]) and of [poolService.ts]
    ([getAvailableForDate], the cooldown table), followed by the properties
    the specification states about them. A second part embeds the services
    around the engine (the maintenance of the pool, the categories, the
    plans by date, the journal) and the route that generates a plan, with
    the properties their code shows.

    Conventions of the embedding.
    - A JavaScript [Date] is its time value: milliseconds since the epoch,
      a [Z]. The host's local time zone is a fixed offset [tz] (local time =
      UTC + [tz] milliseconds), a parameter of everything that calls
      [setHours].
    - A JavaScript string is the sequence of its code units, all below 256
      here, so a Rocq [string].
    - JavaScript numbers are binary64: the capacity arithmetic is done with
      Rocq's primitive floats, which are the same IEEE 754 doubles.
    - The storage layer (Prisma) is a record of tables; code that runs inside
      [prisma.$transaction] is written in a state-and-exception monad, and
      the storage may refuse any write.
    - [JSON.parse] and [Number] are parameters. What [JSON.parse] returns is
      kept as far as the engine looks into it; the elements of [tasks] are
      taken to have the shape the interface [LLMTask] declares.
    - The prompt is not modelled: the answer of the model is an input. *)

From Stdlib Require Import ZArith List String Ascii Bool Lia Floats Sorted Permutation.
From Stdlib Require Uint63.
From stdpp Require Import base gmap strings.
Import ListNotations.

Set Warnings "-inexact-float".
Local Open Scope Z_scope.

(** ** Dates *)

Definition msPerDay : Z := 86400000.
Definition msPerHour : Z := 3600000.
Definition msPerMinute : Z := 60000.
Definition msPerSecond : Z := 1000.

(** [Day(t)] of ECMAScript: the number of the day that contains [t]. *)
Definition Day (t : Z) : Z := t / msPerDay.

(** [d.toISOString().split('T')[0]]: the UTC calendar date of [d]. The
    label YYYY-MM-DD is kept as the number of that day since 1970-01-01. *)
Definition toISODate (d : Z) : Z := Day d.

(** [new Date(dateStr)] for a date-only label: midnight UTC of that day. *)
Definition newDate (dateStr : Z) : Z := dateStr * msPerDay.

(** [MakeTime(h, m, s, ms)]. *)
Definition MakeTime (h m s ms : Z) : Z :=
  h * msPerHour + m * msPerMinute + s * msPerSecond + ms.

(** A [Date] that may be the Invalid Date (time value NaN). *)
Inductive JsDate : Type :=
| Invalid_Date
| DateAt (t : Z).

Section Host.

(** Offset of the host's local time from UTC, in milliseconds. *)
Variable tz : Z.

Definition LocalTime (t : Z) : Z := t + tz.
Definition UTC (t : Z) : Z := t - tz.

(** [d.setHours(h, m, s, ms)]: keeps the local day of [d] and replaces the
    time within it. *)
Definition setHours (d : Z) (h m s ms : Z) : Z :=
  UTC (Day (LocalTime d) * msPerDay + MakeTime h m s ms).

(** [setHours] with arguments that may be NaN ([None]): any NaN makes the
    date invalid. *)
Definition setHoursNum (d : Z) (h m : option Z) : JsDate :=
  match h, m with
  | Some h', Some m' => DateAt (setHours d h' m' 0 0)
  | _, _ => Invalid_Date
  end.

(** [d.setDate(d.getDate() - n)]: the same local time, [n] days earlier. *)
Definition minusDays (d : Z) (n : Z) : Z := d - n * msPerDay.

(** Local calendar day (as a day number) and local time of day of an
    instant. *)
Definition localDay (t : Z) : Z := Day (LocalTime t).
Definition localTimeOfDay (t : Z) : Z := LocalTime t mod msPerDay.

End Host.

(** ** Strings *)

Definition code (c : ascii) : N := N_of_ascii c.

(** White space and line terminators of ECMAScript among the code units
    below 256: TAB, LF, VT, FF, CR, SP, NBSP. This is what [trim] strips and
    what [\s] matches. *)
Definition isWhiteSpace (c : ascii) : bool :=
  let n := code c in
  ((9 <=? n) && (n <=? 13) || (n =? 32) || (n =? 160))%N.

(** [toLowerCase] on one code unit: A-Z and the Latin-1 capitals
    U+00C0..U+00DE (without the multiplication sign U+00D7). *)
Definition lowerChar (c : ascii) : ascii :=
  let n := code c in
  if ((65 <=? n) && (n <=? 90) || (192 <=? n) && (n <=? 222) && negb (n =? 215))%N
  then ascii_of_N (n + 32) else c.

Fixpoint toLowerCase (s : string) : string :=
  match s with
  | EmptyString => EmptyString
  | String c r => String (lowerChar c) (toLowerCase r)
  end.

Fixpoint trimStart (s : string) : string :=
  match s with
  | EmptyString => EmptyString
  | String c r => if isWhiteSpace c then trimStart r else s
  end.

(** [trimEnd]: a character is kept when something that is not white space
    follows it or it is not white space itself. *)
Fixpoint trimEnd (s : string) : string :=
  match s with
  | EmptyString => EmptyString
  | String c r =>
      match trimEnd r with
      | EmptyString => if isWhiteSpace c then EmptyString else String c EmptyString
      | r' => String c r'
      end
  end.

Definition trim (s : string) : string := trimEnd (trimStart s).

(** [s.slice(0, n)]. *)
Definition slice0 (n : nat) (s : string) : string := String.substring 0 n s.

(** [s.split(sep)] for a one-character separator. The result is never
    empty. *)
Fixpoint split (sep : ascii) (s : string) : list string :=
  match s with
  | EmptyString => [EmptyString]
  | String c r =>
      if Ascii.eqb c sep then EmptyString :: split sep r
      else match split sep r with
           | [] => [String c EmptyString]
           | w :: ws => String c w :: ws
           end
  end.

(** [parts.join(sep)]. *)
Definition join (sep : string) (parts : list string) : string :=
  String.concat sep parts.

(** ** Extraction of the model's answer

    [raw.match(/```(?:json)?\s*([\s\S]*?)```/)]. The match starts at the
    first fence; [(?:json)?] and [\s*] are greedy and what they consume holds
    no backquote, so giving characters back never helps: the capture runs
    from the end of that prefix to the next fence, and there is no match
    when no fence follows. *)

(** [s] without its prefix [p], when it has that prefix. *)
Fixpoint stripPrefix (p s : string) : option string :=
  match p, s with
  | EmptyString, _ => Some s
  | String a p', String b s' => if Ascii.eqb a b then stripPrefix p' s' else None
  | String _ _, EmptyString => None
  end.

Definition fence : string := "```".

(** What follows the first fence. *)
Fixpoint afterFence (s : string) : option string :=
  match s with
  | EmptyString => None
  | String _ r =>
      match stripPrefix fence s with
      | Some rest => Some rest
      | None => afterFence r
      end
  end.

(** The lazy [[\s\S]*?] and the closing fence: what precedes the next
    fence. *)
Fixpoint beforeFence (s : string) : option string :=
  match s with
  | EmptyString => None
  | String c r =>
      match stripPrefix fence s with
      | Some _ => Some EmptyString
      | None => option_map (String c) (beforeFence r)
      end
  end.

(** [(?:json)?]. *)
Definition optionalJson (s : string) : string :=
  match stripPrefix "json" s with
  | Some rest => rest
  | None => s
  end.

(** [jsonMatch[1]] when the pattern matches, [None] when it does not. *)
Definition fencedBlock (raw : string) : option string :=
  match afterFence raw with
  | None => None
  | Some r => beforeFence (trimStart (optionalJson r))
  end.

(** ** Data model: the rows the storage layer holds *)

Inductive PoolItemType : Type := task | event | aspiration.

Module PoolItemStatus.
Inductive t : Type := active | paused | completed.
End PoolItemStatus.

Module TaskStatus.
Inductive t : Type := pending | in_progress | completed | skipped.
End TaskStatus.

Inductive Capacity : Type := low | medium | high.

Definition PoolItemType_eqb (a b : PoolItemType) : bool :=
  match a, b with
  | task, task | event, event | aspiration, aspiration => true
  | _, _ => false
  end.

Module PoolItem.
Record t : Type := mk {
  id : string;
  type : PoolItemType;
  title : string;
  notes : option string;
  categoryId : option string;
  scheduledAt : option Z;
  scheduledEnd : option Z;
  status : PoolItemStatus.t;
  lastUsedAt : option Z;
  useCount : Z;
  cooldownDays : option Z
}.
End PoolItem.

Module Category.
Record t : Type := mk {
  id : string;
  name : string;
  priority : Z;
  enabled : bool
}.
End Category.

Module JournalEntry.
Record t : Type := mk {
  timestamp : Z;
  content : string;
  energyLevel : option Z;
  sleepQuality : option Z
}.
End JournalEntry.

Module DailyPlan.
Record t : Type := mk {
  id : string;
  date : Z;
  capacityScore : Capacity;
  mentalStateSummary : option string
}.
End DailyPlan.

(** A schedule entry. Its own identifier and time stamps, which the storage
    layer fills in and the engine never reads, are left out. *)
Module Task.
Record t : Type := mk {
  dailyPlanId : string;
  categoryId : string;
  poolItemId : option string;
  title : string;
  description : option string;
  scheduledTime : option JsDate;
  durationMinutes : option Z;
  priority : Z;
  status : TaskStatus.t
}.
End Task.

Record DB : Type := mkDB {
  dailyPlans : list DailyPlan.t;
  tasks : list Task.t;
  poolItems : list PoolItem.t;
  categories : list Category.t;
  journalEntries : list JournalEntry.t
}.

(** ** poolService.ts *)

(** [GLOBAL_COOLDOWN_DAYS]. *)
Definition GLOBAL_COOLDOWN_DAYS (ty : PoolItemType) : Z :=
  match ty with
  | task => 1
  | aspiration => 3
  | event => 0
  end.

Record Available : Type := mkAvailable {
  av_tasks : list PoolItem.t;
  av_aspirations : list PoolItem.t;
  av_events : list PoolItem.t
}.

Definition isActive (item : PoolItem.t) : bool :=
  match PoolItem.status item with
  | PoolItemStatus.active => true
  | _ => false
  end.

Section PoolService.

Variable tz : Z.

Definition startOfDay (forDate : Z) : Z :=
  setHours tz (newDate (toISODate forDate)) 0 0 0 0.

Definition endOfDay (forDate : Z) : Z :=
  setHours tz (startOfDay forDate) 23 59 59 999.

(** The predicate of [allActive.filter(...)] that selects the events. *)
Definition isEventOn (forDate : Z) (item : PoolItem.t) : bool :=
  match PoolItem.type item with
  | event =>
      match PoolItem.scheduledAt item with
      | None => false
      | Some eventDate =>
          (startOfDay forDate <=? eventDate) && (eventDate <=? endOfDay forDate)
      end
  | _ => false
  end.

Definition isTaskOrAspiration (item : PoolItem.t) : bool :=
  match PoolItem.type item with
  | task | aspiration => true
  | event => false
  end.

(** [item.cooldownDays ?? GLOBAL_COOLDOWN_DAYS[item.type]]. *)
Definition cooldownOf (item : PoolItem.t) : Z :=
  match PoolItem.cooldownDays item with
  | Some n => n
  | None => GLOBAL_COOLDOWN_DAYS (PoolItem.type item)
  end.

(** [Math.floor((forDate.getTime() - lastUsedAt.getTime()) / msPerDay)].
    The quotient of two time values is computed in binary64; its floor is
    the integer floor for every pair of dates less than 2^26 days apart. *)
Definition daysSinceUsed (forDate lastUsed : Z) : Z :=
  (forDate - lastUsed) / msPerDay.

(** The body of the cooldown loop: is [item] pushed to [available]? *)
Definition offCooldown (forDate : Z) (item : PoolItem.t) : bool :=
  match PoolItem.lastUsedAt item with
  | None => true
  | Some used => cooldownOf item <=? daysSinceUsed forDate used
  end.

Definition getAvailableForDate (db : DB) (forDate : Z) : Available :=
  let allActive := List.filter isActive (poolItems db) in
  let events := List.filter (isEventOn forDate) allActive in
  let tasksAndAspirations := List.filter isTaskOrAspiration allActive in
  let available := List.filter (offCooldown forDate) tasksAndAspirations in
  {| av_tasks :=
       List.filter (fun item => PoolItemType_eqb (PoolItem.type item) task) available;
     av_aspirations :=
       List.filter (fun item => PoolItemType_eqb (PoolItem.type item) aspiration) available;
     av_events := events |}.

End PoolService.

(** ** planningEngine.ts: the context for a date *)

(** An integer as a JavaScript number. Exact below 2^53 in absolute value,
    which the counts and sums of ratings here are. *)
Definition Z2float (z : Z) : float :=
  match z with
  | Z0 => 0%float
  | Zpos _ => PrimFloat.of_uint63 (Uint63.of_Z z)
  | Zneg _ => (- PrimFloat.of_uint63 (Uint63.of_Z (- z)))%float
  end.

Definition len {A} (l : list A) : Z := Z.of_nat (length l).

Definition hasEnergy (e : JournalEntry.t) : bool :=
  match JournalEntry.energyLevel e with Some _ => true | None => false end.

Definition hasSleep (e : JournalEntry.t) : bool :=
  match JournalEntry.sleepQuality e with Some _ => true | None => false end.

Definition avgEnergy (entries : list JournalEntry.t) : float :=
  let rated := List.filter hasEnergy entries in
  if 0 <? len rated
  then PrimFloat.div
         (Z2float (fold_left (fun a e => a + default 0 (JournalEntry.energyLevel e)) rated 0))
         (Z2float (len rated))
  else 5%float.

Definition avgSleep (entries : list JournalEntry.t) : float :=
  let rated := List.filter hasSleep entries in
  if 0 <? len rated
  then PrimFloat.div
         (Z2float (fold_left (fun a e => a + default 0 (JournalEntry.sleepQuality e)) rated 0))
         (Z2float (len rated))
  else 5%float.

Definition isCompleted (t : Task.t) : bool :=
  match Task.status t with TaskStatus.completed => true | _ => false end.

Definition completionRate (ts : list Task.t) : float :=
  if 0 <? len ts
  then PrimFloat.div (Z2float (len (List.filter isCompleted ts))) (Z2float (len ts))
  else 0.5%float.

Definition score (avgEnergy avgSleep completionRate : float) : float :=
  ((avgEnergy / 10) * 0.4 + (avgSleep / 10) * 0.3 + completionRate * 0.3)%float.

Definition capacityOf (score : float) : Capacity :=
  if (score <? 0.4)%float then low
  else if (0.7 <? score)%float then high
  else medium.

(** [where: { timestamp: { gte: startDate, lt: forDate } }]. *)
Definition within (startDate forDate t : Z) : bool :=
  (startDate <=? t) && (t <? forDate).

Definition entriesBefore (db : DB) (forDate : Z) : list JournalEntry.t :=
  List.filter (fun e => within (minusDays forDate 7) forDate (JournalEntry.timestamp e))
    (journalEntries db).

(** [where: { dailyPlan: { date: { gte: startDate, lt: forDate } } }]: the
    entries whose plan lies in the window. *)
Definition planDate (db : DB) (t : Task.t) : option Z :=
  option_map DailyPlan.date
    (List.find (fun p => String.eqb (DailyPlan.id p) (Task.dailyPlanId t)) (dailyPlans db)).

Definition tasksBefore (db : DB) (forDate : Z) : list Task.t :=
  List.filter (fun t => match planDate db t with
                        | Some d => within (minusDays forDate 7) forDate d
                        | None => false
                        end) (tasks db).

(** [categoryService.findAll(true)]: the enabled categories, by priority
    descending, then name ascending. *)
Definition categoryBefore (a b : Category.t) : bool :=
  (Category.priority b <? Category.priority a)
  || ((Category.priority a =? Category.priority b)
      && String.leb (Category.name a) (Category.name b)).

Fixpoint insertCategory (c : Category.t) (l : list Category.t) : list Category.t :=
  match l with
  | [] => [c]
  | x :: r => if categoryBefore c x then c :: l else x :: insertCategory c r
  end.

Definition findAllEnabled (db : DB) : list Category.t :=
  fold_right insertCategory [] (List.filter Category.enabled (categories db)).

Record CategoryRef : Type := mkCategoryRef { cr_id : string; cr_name : string }.

(** The part of [PlanningContext] that [generatePlan] reads back. The day
    name, the journal and feedback summaries and the factor labels only feed
    the prompt text. *)
Record PlanningContext : Type := mkContext {
  ctx_capacityScore : Capacity;
  ctx_categories : list CategoryRef;
  ctx_poolItems : Available
}.

Definition gatherContext (tz : Z) (db : DB) (forDate : Z) : PlanningContext :=
  let entries := entriesBefore db forDate in
  let tasks := tasksBefore db forDate in
  {| ctx_capacityScore :=
       capacityOf (score (avgEnergy entries) (avgSleep entries) (completionRate tasks));
     ctx_categories :=
       List.map (fun c => mkCategoryRef (Category.id c) (Category.name c)) (findAllEnabled db);
     ctx_poolItems := getAvailableForDate tz db forDate |}.

(** ** The model's answer *)

(** [LLMTask]. An optional field is [None] when it is missing or null. *)
Module LLMTask.
Record t : Type := mk {
  category : string;
  title : string;
  description : option string;
  time : option string;
  duration_minutes : option Z;
  priority : option Z;
  pool_item_id : option string;
  is_i_wonder : option bool
}.
End LLMTask.

(** What [parsed.tasks] can be at run time: the cast to [LLMPlanOutput]
    checks nothing. The elements of an array are taken to have the shape of
    [LLMTask]. *)
Inductive TasksField : Type :=
| tasks_undefined
| tasks_not_array
| tasks_array (ts : list LLMTask.t).

Record LLMPlanOutput : Type := mkOutput {
  capacity_notes : option string;
  mental_state_notes : option string;
  out_tasks : TasksField
}.

(** A value [JSON.parse] can return, as far as the engine looks into it. *)
Inductive JsonValue : Type :=
| JNull
| JBool (b : bool)
| JNumber (isZero : bool)
| JString (s : string)
| JArray
| JObject (o : LLMPlanOutput).

(** [!parsed] is false for: *)
Definition truthy (v : JsonValue) : bool :=
  match v with
  | JNull => false
  | JBool b => b
  | JNumber isZero => negb isZero
  | JString s => negb (String.eqb s "")
  | JArray | JObject _ => true
  end.

(** [parsed.tasks]: only an object can have the property. *)
Definition tasksOf (v : JsonValue) : TasksField :=
  match v with
  | JObject o => out_tasks o
  | _ => tasks_undefined
  end.

(** [s] as a condition: a string is truthy when it is not empty. *)
Definition nonEmpty (s : string) : bool := negb (String.eqb s "").

Definition truthyStr (o : option string) : option string :=
  match o with
  | Some s => if nonEmpty s then Some s else None
  | None => None
  end.

(** ** The unit of work

    Code that runs inside [prisma.$transaction] reads and writes a private
    copy of the tables and may throw. A computation is a function from the
    tables to an outcome; a thrown error carries the tables as the body left
    them, so that what the transaction discards can be looked at. *)

Inductive Write : Type :=
| CreatePlan (date : Z) (capacityScore : Capacity) (mentalStateSummary : option string)
| CreateTask (data : Task.t)
| UpdatePoolUsage (ids : list string) (usedAt : Z).

Inductive Error : Type :=
| GenerateFailed
| InvalidPlan (message : string)
| WriteFailed (w : Write).

Inductive Outcome (A : Type) : Type :=
| Returned (a : A) (db : DB)
| Threw (e : Error) (db : DB).

Arguments Returned {A} a db.
Arguments Threw {A} e db.

Definition Tx (A : Type) : Type := DB -> Outcome A.

Definition ret {A} (a : A) : Tx A := fun db => Returned a db.

Definition throw {A} (e : Error) : Tx A := fun db => Threw e db.

Definition bind {A B} (c : Tx A) (k : A -> Tx B) : Tx B :=
  fun db =>
    match c db with
    | Returned a db' => k a db'
    | Threw e db' => Threw e db'
    end.

Declare Scope tx_scope.
Delimit Scope tx_scope with tx.
Notation "'let_await' x <- c ; k" := (bind c (fun x => k))
  (at level 10, x name, c at level 100, k at level 200) : tx_scope.
Notation "'await' c ; k" := (bind c (fun _ => k))
  (at level 10, c at level 100, k at level 200) : tx_scope.

(** How the promise of [generatePlan] settles. *)
Inductive Settled (A : Type) : Type :=
| Fulfilled (a : A)
| Rejected (e : Error).

Arguments Fulfilled {A} a.
Arguments Rejected {A} e.

(** [prisma.$transaction(body)]: the writes of [body] are committed when it
    returns and discarded when it throws. *)
Definition transaction {A} (body : Tx A) (db : DB) : Settled A * DB :=
  match body db with
  | Returned a db' => (Fulfilled a, db')
  | Threw e _ => (Rejected e, db)
  end.

(** [data: { lastUsedAt: usedAt, useCount: { increment: 1 } }]. *)
Definition markUsed (usedAt : Z) (item : PoolItem.t) : PoolItem.t :=
  PoolItem.mk (PoolItem.id item) (PoolItem.type item) (PoolItem.title item)
    (PoolItem.notes item) (PoolItem.categoryId item) (PoolItem.scheduledAt item)
    (PoolItem.scheduledEnd item) (PoolItem.status item)
    (Some usedAt) (PoolItem.useCount item + 1) (PoolItem.cooldownDays item).

(** [where: { id: { in: ids } }]. *)
Definition idIn (ids : list string) (item : PoolItem.t) : bool :=
  existsb (String.eqb (PoolItem.id item)) ids.

Definition isArray (f : TasksField) : bool :=
  match f with tasks_array _ => true | _ => false end.

Definition elements (f : TasksField) : list LLMTask.t :=
  match f with tasks_array ts => ts | _ => [] end.

Definition capacityNotesOf (v : JsonValue) : option string :=
  match v with JObject o => capacity_notes o | _ => None end.

Definition mentalStateNotesOf (v : JsonValue) : option string :=
  match v with JObject o => mental_state_notes o | _ => None end.

Definition invalidPlanMessage (response : string) : string :=
  String.append "LLM did not return a valid plan with tasks. Raw response: "
    (slice0 500 response).

(** [eventsToPlace]: the events of the context that have a start. *)
Definition eventsToPlace (ctx : PlanningContext) : list (PoolItem.t * Z) :=
  omap (fun ev => option_map (pair ev) (PoolItem.scheduledAt ev))
    (av_events (ctx_poolItems ctx)).

Definition candidates (ctx : PlanningContext) : list PoolItem.t :=
  av_tasks (ctx_poolItems ctx) ++ av_aspirations (ctx_poolItems ctx).

Definition titleKey (title : string) : string := trim (toLowerCase title).

(** [new Map(ctx.categories.map((c) => [c.name, c.id]))]: a later pair
    replaces an earlier one with the same key. *)
Definition categoryByName (ctx : PlanningContext) : gmap string string :=
  fold_left (fun m c => <[cr_name c := cr_id c]> m) (ctx_categories ctx) ∅.

Definition poolItemsByTitle (ctx : PlanningContext) : gmap string PoolItem.t :=
  fold_left (fun m item => <[titleKey (PoolItem.title item) := item]> m) (candidates ctx) ∅.

Definition isTrue (o : option bool) : bool := default false o.

(** The pool item an entry of the model is matched to. *)
Definition matchPoolItem (ctx : PlanningContext) (t : LLMTask.t) : option PoolItem.t :=
  if isTrue (LLMTask.is_i_wonder t) then None
  else
    match poolItemsByTitle ctx !! titleKey (LLMTask.title t) with
    | Some item => Some item
    | None =>
        match truthyStr (LLMTask.pool_item_id t) with
        | Some pid =>
            List.find (fun item => String.eqb (PoolItem.id item) pid) (candidates ctx)
        | None => None
        end
    end.

Section Engine.

(** The host: its time zone, [Number] on a piece of a time token ([None]
    for NaN and the infinities, else the number cut to an integer, as
    [setHours] reads it), [JSON.parse] ([None] when it throws). *)
Variable tz : Z.
Variable Number : string -> option Z.
Variable JSON_parse : string -> option JsonValue.

(** The storage layer: which writes it refuses, and the identifier it gives
    a new plan. *)
Variable rejects : Write -> bool.
Variable newId : DB -> string.

Definition parseLLMResponse (raw : string) : JsonValue :=
  let jsonStr := match fencedBlock raw with
                 | Some inner => trim inner
                 | None => trim raw
                 end in
  match JSON_parse jsonStr with
  | Some v => v
  | None => JNull
  end.

Definition timeToDate (dateStr : Z) (timeStr : string) : JsDate :=
  let d := newDate dateStr in
  if negb (nonEmpty timeStr) || String.eqb timeStr "morning"
  then DateAt (setHours tz d 9 0 0 0)
  else if String.eqb timeStr "afternoon" then DateAt (setHours tz d 14 0 0 0)
  else if String.eqb timeStr "evening" then DateAt (setHours tz d 18 0 0 0)
  else
    let parts := List.map Number (split ":" timeStr) in
    let h := nth_error parts 0 in
    let m := nth_error parts 1 in
    setHoursNum tz d (default (Some 9) h) (default (Some 0) m).

(** [tx.dailyPlan.create], [tx.task.create], [tx.poolItem.updateMany]. *)
Definition dailyPlan_create (date : Z) (capacityScore : Capacity)
    (mentalStateSummary : option string) : Tx DailyPlan.t :=
  fun db =>
    let w := CreatePlan date capacityScore mentalStateSummary in
    if rejects w then Threw (WriteFailed w) db
    else
      let plan := DailyPlan.mk (newId db) date capacityScore mentalStateSummary in
      Returned plan
        (mkDB (dailyPlans db ++ [plan]) (tasks db) (poolItems db) (categories db)
           (journalEntries db)).

Definition task_create (data : Task.t) : Tx unit :=
  fun db =>
    if rejects (CreateTask data) then Threw (WriteFailed (CreateTask data)) db
    else
      Returned tt
        (mkDB (dailyPlans db) (tasks db ++ [data]) (poolItems db) (categories db)
           (journalEntries db)).

Definition poolItem_updateMany (ids : list string) (usedAt : Z) : Tx unit :=
  fun db =>
    let w := UpdatePoolUsage ids usedAt in
    if rejects w then Threw (WriteFailed w) db
    else
      Returned tt
        (mkDB (dailyPlans db) (tasks db)
           (List.map (fun item => if idIn ids item then markUsed usedAt item else item)
              (poolItems db))
           (categories db) (journalEntries db)).

(** The row [tx.task.create] is given for an entry of the model. A new row
    starts as [pending]. *)
Definition taskOfEntry (ctx : PlanningContext) (planId : string) (dateStr : Z)
    (categoryId : string) (t : LLMTask.t) : Task.t :=
  let matchedPoolItem := matchPoolItem ctx t in
  let scheduledTime := option_map (timeToDate dateStr) (truthyStr (LLMTask.time t)) in
  Task.mk planId categoryId
    (truthyStr (option_map PoolItem.id matchedPoolItem))
    (LLMTask.title t) (LLMTask.description t) scheduledTime
    (LLMTask.duration_minutes t) (default 3 (LLMTask.priority t))
    TaskStatus.pending.

(** Step 5, [for (const t of parsed.tasks)]; the accumulator is
    [poolItemIdsToMark]. *)
Fixpoint createTasks (ctx : PlanningContext) (planId : string) (dateStr : Z)
    (ts : list LLMTask.t) (poolItemIdsToMark : list string) : Tx (list string) :=
  match ts with
  | [] => ret poolItemIdsToMark
  | t :: rest =>
      match truthyStr (categoryByName ctx !! LLMTask.category t) with
      | None => createTasks ctx planId dateStr rest poolItemIdsToMark
      | Some categoryId =>
          (await task_create (taskOfEntry ctx planId dateStr categoryId t);
           createTasks ctx planId dateStr rest
             (poolItemIdsToMark
                ++ match matchPoolItem ctx t with
                   | Some item => [PoolItem.id item]
                   | None => []
                   end))%tx
      end
  end.

(** [poolItem.categoryId || ctx.categories[0]?.id]. *)
Definition eventCategory (ctx : PlanningContext) (poolItem : PoolItem.t) : option string :=
  match truthyStr (PoolItem.categoryId poolItem) with
  | Some c => Some c
  | None => truthyStr (option_map cr_id (head (ctx_categories ctx)))
  end.

Definition taskOfEvent (planId categoryId : string) (poolItem : PoolItem.t)
    (scheduledTime : Z) : Task.t :=
  Task.mk planId categoryId (Some (PoolItem.id poolItem)) (PoolItem.title poolItem)
    (PoolItem.notes poolItem) (Some (DateAt scheduledTime)) None 1 TaskStatus.pending.

(** Step 6, [for (const { poolItem, scheduledTime } of eventsToPlace)]. *)
Fixpoint placeEvents (ctx : PlanningContext) (planId : string)
    (evs : list (PoolItem.t * Z)) (poolItemIdsToMark : list string) : Tx (list string) :=
  match evs with
  | [] => ret poolItemIdsToMark
  | (poolItem, scheduledTime) :: rest =>
      match eventCategory ctx poolItem with
      | None => placeEvents ctx planId rest poolItemIdsToMark
      | Some categoryId =>
          (await task_create (taskOfEvent planId categoryId poolItem scheduledTime);
           placeEvents ctx planId rest (poolItemIdsToMark ++ [PoolItem.id poolItem]))%tx
      end
  end.

Record Generated : Type := mkGenerated { planId : string; taskCount : Z }.

(** The body of the transaction. [reply] is what [generate] resolved to,
    [None] when it threw. *)
Definition generatePlanBody (ctx : PlanningContext) (forDate : Z)
    (reply : option string) : Tx Generated :=
  match reply with
  | None => throw GenerateFailed
  | Some response =>
      let parsed := parseLLMResponse response in
      if negb (truthy parsed) || negb (isArray (tasksOf parsed))
      then throw (InvalidPlan (invalidPlanMessage response))
      else
        let mentalStateSummary :=
          join " " (omap truthyStr [capacityNotesOf parsed; mentalStateNotesOf parsed]) in
        (let_await plan <- dailyPlan_create forDate (ctx_capacityScore ctx)
                         (truthyStr (Some mentalStateSummary));
         let dateStr := toISODate forDate in
         let_await marked <- createTasks ctx (DailyPlan.id plan) dateStr
                           (elements (tasksOf parsed)) [];
         let_await marked' <- placeEvents ctx (DailyPlan.id plan) (eventsToPlace ctx) marked;
         await (if 0 <? len marked' then poolItem_updateMany marked' forDate else ret tt);
         let totalTasks :=
           len (List.filter
                  (fun t => bool_decide (is_Some (categoryByName ctx !! LLMTask.category t)))
                  (elements (tasksOf parsed)))
           + len (eventsToPlace ctx) in
         ret (mkGenerated (DailyPlan.id plan) totalTasks))%tx
  end.

Definition generatePlan (db : DB) (forDate : Z) (reply : option string)
    : Settled Generated * DB :=
  transaction (generatePlanBody (gatherContext tz db forDate) forDate reply) db.

End Engine.

(** * Properties *)

(** ** The fenced block *)

Local Notation "a +++ b" := (String.append a b) (at level 60, right associativity).

Lemma append_cons (x : ascii) (a b : string) : String x a +++ b = String x (a +++ b).
Proof. reflexivity. Qed.

Lemma append_nil_l (b : string) : EmptyString +++ b = b.
Proof. reflexivity. Qed.

Lemma append_assoc (a b c : string) : (a +++ b) +++ c = a +++ (b +++ c).
Proof.
  induction a as [| x a IH]; [reflexivity |].
  now rewrite !append_cons, IH.
Qed.

Lemma stripPrefix_Some (p s r : string) : stripPrefix p s = Some r <-> s = p +++ r.
Proof.
  revert s. induction p as [| a p IH]; intros s; simpl.
  - split; [intros [= ->]; reflexivity | intros ->; reflexivity].
  - destruct s as [| b s]; [split; discriminate |].
    destruct (Ascii.eqb_spec a b) as [-> | Hne].
    + rewrite IH. split; [intros ->; reflexivity | intros [= ->]; reflexivity].
    + split; [discriminate | intros [= E _]; congruence].
Qed.

Fixpoint allWhite (s : string) : bool :=
  match s with
  | EmptyString => true
  | String c r => isWhiteSpace c && allWhite r
  end.

Lemma afterFence_Some (s r : string) :
  afterFence s = Some r -> exists pre, s = pre +++ fence +++ r.
Proof.
  induction s as [| c s IH]; [discriminate |].
  cbn [afterFence]. destruct (stripPrefix fence (String c s)) as [rest |] eqn:Hp.
  - intros [= ->]. apply stripPrefix_Some in Hp. exists EmptyString. exact Hp.
  - intros H. destruct (IH H) as [pre ->]. exists (String c pre). reflexivity.
Qed.

Lemma beforeFence_Some (s inner : string) :
  beforeFence s = Some inner -> exists post, s = inner +++ fence +++ post.
Proof.
  revert inner. induction s as [| c s IH]; intros inner; [discriminate |].
  cbn [beforeFence]. destruct (stripPrefix fence (String c s)) as [rest |] eqn:Hp.
  - intros [= <-]. apply stripPrefix_Some in Hp. exists rest. exact Hp.
  - destruct (beforeFence s) as [inner' |]; [| discriminate].
    intros [= <-]. destruct (IH inner' eq_refl) as [post ->]. exists post. reflexivity.
Qed.

Lemma trimStart_split (s : string) :
  exists ws, s = ws +++ trimStart s /\ allWhite ws = true.
Proof.
  induction s as [| c s (ws & Hs & Hw)].
  - exists EmptyString. auto.
  - simpl. destruct (isWhiteSpace c) eqn:Hc.
    + exists (String c ws). rewrite append_cons. cbn [allWhite]. rewrite Hc, Hw.
      split; [now f_equal | reflexivity].
    + exists EmptyString. auto.
Qed.

Lemma optionalJson_split (s : string) :
  exists opt, s = opt +++ optionalJson s /\ (opt = EmptyString \/ opt = "json"%string).
Proof.
  unfold optionalJson. destruct (stripPrefix "json" s) as [rest |] eqn:Hp.
  - apply stripPrefix_Some in Hp. exists "json"%string. auto.
  - exists EmptyString. auto.
Qed.

(** A fence starts somewhere in [s]. *)
Definition hasFence (s : string) : Prop := exists a b, s = a +++ fence +++ b.

Lemma no_fence_in_two : ~ hasFence "``".
Proof.
  intros (a & b & H). unfold fence in H.
  destruct a as [| c1 [| c2 [| c3 a]]]; rewrite ?append_cons, ?append_nil_l in H;
    discriminate.
Qed.

Lemma hasFence_cons (c : ascii) (s : string) :
  hasFence (String c s) -> stripPrefix fence (String c s) <> None \/ hasFence s.
Proof.
  intros (a & b & H). destruct a as [| c' a].
  - left. rewrite append_nil_l in H. rewrite H.
    intros Hn. pose proof (proj2 (stripPrefix_Some fence (fence +++ b) b) eq_refl). congruence.
  - right. rewrite append_cons in H. injection H as _ ->. now exists a, b.
Qed.

Lemma stripPrefix_longer (s t : string) :
  stripPrefix fence (s +++ "``") <> None -> stripPrefix fence (s +++ "``" +++ t) <> None.
Proof.
  intros H. destruct (stripPrefix fence (s +++ "``")) as [r |] eqn:Hr; [| congruence].
  apply stripPrefix_Some in Hr. intros Hn.
  assert (E : s +++ "``" +++ t = fence +++ r +++ t).
  { now rewrite <- !append_assoc, Hr, !append_assoc. }
  rewrite E in Hn.
  pose proof (proj2 (stripPrefix_Some fence (fence +++ r +++ t) (r +++ t)) eq_refl).
  congruence.
Qed.

(** [afterFence] stops at the first fence and [beforeFence] at the next. *)
Lemma afterFence_first (s r : string) :
  afterFence s = Some r ->
  exists pre, s = pre +++ fence +++ r /\ ~ hasFence (pre +++ "``").
Proof.
  revert r. induction s as [| c s IH]; intros r; [discriminate |].
  cbn [afterFence]. destruct (stripPrefix fence (String c s)) as [rest |] eqn:Hp.
  - intros [= ->]. apply stripPrefix_Some in Hp. exists EmptyString.
    split; [exact Hp | apply no_fence_in_two].
  - intros H. destruct (IH r H) as (pre & -> & Hno). exists (String c pre).
    split; [reflexivity |]. rewrite append_cons. intros Hf.
    apply hasFence_cons in Hf. destruct Hf as [Hf | Hf]; [| contradiction].
    apply (stripPrefix_longer (String c pre) ("`" +++ r)) in Hf.
    apply Hf. exact Hp.
Qed.

Lemma beforeFence_first (s inner : string) :
  beforeFence s = Some inner ->
  exists post, s = inner +++ fence +++ post /\ ~ hasFence (inner +++ "``").
Proof.
  revert inner. induction s as [| c s IH]; intros inner; [discriminate |].
  cbn [beforeFence]. destruct (stripPrefix fence (String c s)) as [rest |] eqn:Hp.
  - intros [= <-]. apply stripPrefix_Some in Hp. exists rest.
    split; [exact Hp | apply no_fence_in_two].
  - destruct (beforeFence s) as [inner' |]; [| discriminate].
    intros [= <-]. destruct (IH inner' eq_refl) as (post & -> & Hno). exists post.
    split; [reflexivity |]. rewrite append_cons. intros Hf.
    apply hasFence_cons in Hf. destruct Hf as [Hf | Hf]; [| contradiction].
    apply (stripPrefix_longer (String c inner') ("`" +++ post)) in Hf.
    apply Hf. exact Hp.
Qed.

Lemma trimStart_head (s : string) (c : ascii) (r : string) :
  trimStart s = String c r -> isWhiteSpace c = false.
Proof.
  induction s as [| x s IH]; [discriminate |].
  simpl. destruct (isWhiteSpace x) eqn:Hx; [exact IH |].
  intros [= <- _]. exact Hx.
Qed.


(** When a block is found, the answer reads: something, a fence, nothing or
    [json], white space, the block, a fence, something. The opening fence is
    the first of the answer, [json] is taken when it is there, the white
    space is all there is, and the closing fence is the next one. *)
Lemma fencedBlock_matches (raw inner : string) :
  fencedBlock raw = Some inner ->
  exists pre opt ws post,
    raw = pre +++ fence +++ opt +++ ws +++ inner +++ fence +++ post
    /\ ~ hasFence (pre +++ "``")
    /\ (opt = "json"%string
        \/ (opt = EmptyString
            /\ stripPrefix "json" (ws +++ inner +++ fence +++ post) = None))
    /\ allWhite ws = true
    /\ (forall c r, inner +++ fence +++ post = String c r -> isWhiteSpace c = false)
    /\ ~ hasFence (inner +++ "``").
Proof.
  unfold fencedBlock. destruct (afterFence raw) as [r |] eqn:Ha; [| discriminate].
  intros Hb. apply afterFence_first in Ha. destruct Ha as (pre & -> & Hpre).
  apply beforeFence_first in Hb. destruct Hb as (post & Hpost & Hinner).
  destruct (trimStart_split (optionalJson r)) as (ws & Hws & Hwhite).
  assert (Hhead : forall c x, inner +++ fence +++ post = String c x -> isWhiteSpace c = false).
  { intros c x E. rewrite <- Hpost in E. exact (trimStart_head _ c x E). }
  unfold optionalJson in *. destruct (stripPrefix "json" r) as [rest |] eqn:Hj.
  - apply stripPrefix_Some in Hj. exists pre, "json"%string, ws, post.
    repeat split; auto. rewrite Hj. rewrite Hws at 1. rewrite Hpost at 1. reflexivity.
  - exists pre, EmptyString, ws, post.
    assert (E : r = ws +++ inner +++ fence +++ post).
    { rewrite Hws at 1. rewrite Hpost at 1. reflexivity. }
    repeat split; auto.
    + rewrite append_nil_l. now rewrite <- E.
    + right. split; [reflexivity |]. now rewrite <- E.
Qed.

(** Conversely, no block is found only when the answer does not hold two
    fences one after the other, so that the pattern matches nowhere. *)
Lemma afterFence_total (pre x : string) :
  exists r a, afterFence (pre +++ fence +++ x) = Some r /\ r = a +++ x.
Proof.
  induction pre as [| c pre (r & a & Hr & Ha)].
  - exists x, EmptyString. split; reflexivity.
  - change (String c pre +++ fence +++ x) with (String c (pre +++ fence +++ x)).
    cbn [afterFence].
    destruct (stripPrefix fence (String c (pre +++ fence +++ x))) as [r0 |] eqn:Hp.
    + apply stripPrefix_Some in Hp. exists r0.
      unfold fence in Hp. rewrite !append_cons, append_nil_l in Hp.
      destruct pre as [| c2 [| c3 pre]];
        rewrite ?append_cons, ?append_nil_l in Hp; inversion Hp; subst.
      * exists "`"%string. split; reflexivity.
      * exists "``"%string. split; reflexivity.
      * exists (pre +++ fence). split; [reflexivity |]. now rewrite append_assoc.
    + exists r, a. auto.
Qed.

Lemma optionalJson_keeps_fence (u v : string) :
  exists u', optionalJson (u +++ fence +++ v) = u' +++ fence +++ v.
Proof.
  unfold optionalJson.
  destruct (stripPrefix "json" (u +++ fence +++ v)) as [rest |] eqn:Hp; [| now exists u].
  apply stripPrefix_Some in Hp.
  unfold fence in Hp.
  destruct u as [| c1 [| c2 [| c3 [| c4 u]]]];
    rewrite ?append_cons, ?append_nil_l in Hp; try discriminate.
  exists u. now inversion Hp.
Qed.

Lemma trimStart_keeps_fence (u v : string) :
  exists u', trimStart (u +++ fence +++ v) = u' +++ fence +++ v.
Proof.
  induction u as [| c u (u' & IH)].
  - exists EmptyString. reflexivity.
  - rewrite append_cons. cbn [trimStart]. destruct (isWhiteSpace c).
    + exists u'. exact IH.
    + exists (String c u). reflexivity.
Qed.

Lemma beforeFence_total (u v : string) :
  exists inner, beforeFence (u +++ fence +++ v) = Some inner.
Proof.
  induction u as [| c u (inner & IH)].
  - exists EmptyString. reflexivity.
  - change (String c u +++ fence +++ v) with (String c (u +++ fence +++ v)).
    cbn [beforeFence]. destruct (stripPrefix fence _); [now eexists |].
    rewrite IH. now eexists.
Qed.

Lemma fencedBlock_None (raw : string) :
  fencedBlock raw = None ->
  forall pre mid post, raw <> pre +++ fence +++ mid +++ fence +++ post.
Proof.
  intros Hnone pre mid post ->. unfold fencedBlock in Hnone.
  destruct (afterFence_total pre (mid +++ fence +++ post)) as (r & a & Hr & ->).
  rewrite Hr in Hnone. rewrite <- append_assoc in Hnone.
  destruct (optionalJson_keeps_fence (a +++ mid) post) as (u1 & H1). rewrite H1 in Hnone.
  destruct (trimStart_keeps_fence u1 post) as (u2 & H2). rewrite H2 in Hnone.
  destruct (beforeFence_total u2 post) as (inner & H3). rewrite H3 in Hnone. discriminate.
Qed.

(** ** Capacity *)

Lemma entriesBefore_spec (db : DB) (forDate : Z) (e : JournalEntry.t) :
  In e (entriesBefore db forDate) <->
  In e (journalEntries db)
  /\ forDate - 7 * msPerDay <= JournalEntry.timestamp e < forDate.
Proof.
  unfold entriesBefore, within, minusDays. rewrite filter_In.
  rewrite andb_true_iff, Z.leb_le, Z.ltb_lt. tauto.
Qed.










(** Rounding at the thresholds. With energy 1, sleep 10 and one entry of
    five completed the three terms add up to 0.4 in exact arithmetic; in
    binary64 the sum is just below and the category is [low]. *)
Example capacity_rounding :
  capacityOf (score 1 10 (1 / 5)) = low
  /\ (score 1 10 (1 / 5) <? 0.4)%float = true
  /\ (PrimFloat.abs (score 1 10 (1 / 5) - 0.4) <? 1e-15)%float = true.
Proof. vm_compute. repeat split; reflexivity. Qed.

(** ** Pool availability *)

Lemma PoolItemType_eqb_eq (a b : PoolItemType) : PoolItemType_eqb a b = true <-> a = b.
Proof. destruct a, b; simpl; split; congruence. Qed.

Lemma isActive_true (item : PoolItem.t) :
  isActive item = true <-> PoolItem.status item = PoolItemStatus.active.
Proof. unfold isActive. destruct (PoolItem.status item); split; congruence. Qed.

Lemma offCooldown_true (forDate : Z) (item : PoolItem.t) :
  offCooldown forDate item = true <->
  PoolItem.lastUsedAt item = None
  \/ exists used, PoolItem.lastUsedAt item = Some used
                  /\ cooldownOf item <= (forDate - used) / msPerDay.
Proof.
  unfold offCooldown, daysSinceUsed.
  destruct (PoolItem.lastUsedAt item) as [used|].
  - rewrite Z.leb_le. split.
    + intros H. right. exists used. auto.
    + intros [H | [u [Hu H]]]; [discriminate | congruence].
  - split; auto.
Qed.

(** Membership in the lists of tasks and of aspirations. *)
Lemma available_of_type (tz : Z) (db : DB) (forDate : Z) (ty : PoolItemType) (item : PoolItem.t) :
  ty = task \/ ty = aspiration ->
  In item (List.filter (fun i => PoolItemType_eqb (PoolItem.type i) ty)
             (List.filter (offCooldown forDate)
                (List.filter isTaskOrAspiration (List.filter isActive (poolItems db))))) <->
  In item (poolItems db)
  /\ PoolItem.status item = PoolItemStatus.active
  /\ PoolItem.type item = ty
  /\ offCooldown forDate item = true.
Proof.
  intros Hty. rewrite !filter_In, PoolItemType_eqb_eq, isActive_true.
  unfold isTaskOrAspiration. split.
  - tauto.
  - intros (Hin & Hst & Htype & Hoff). rewrite Htype.
    destruct Hty as [-> | ->]; tauto.
Qed.

(** C3. A task or an aspiration is returned for a date exactly when it is
    active and either was never used or the whole days between its last use
    and the date are at least its cooldown: its own [cooldownDays] when set,
    else 1 for a task and 3 for an aspiration. Nothing with fewer days than
    its cooldown is returned. *)
Theorem cooldown_availability (tz : Z) (db : DB) (forDate : Z) (item : PoolItem.t) :
  let avail := getAvailableForDate tz db forDate in
  (In item (av_tasks avail ++ av_aspirations avail) <->
   In item (poolItems db)
   /\ PoolItem.status item = PoolItemStatus.active
   /\ (PoolItem.type item = task \/ PoolItem.type item = aspiration)
   /\ (PoolItem.lastUsedAt item = None
       \/ exists used, PoolItem.lastUsedAt item = Some used
                       /\ cooldownOf item <= (forDate - used) / msPerDay))
  /\ (In item (av_tasks avail) -> PoolItem.type item = task)
  /\ (In item (av_aspirations avail) -> PoolItem.type item = aspiration)
  /\ (forall n, PoolItem.cooldownDays item = Some n -> cooldownOf item = n)
  /\ (PoolItem.cooldownDays item = None -> PoolItem.type item = task -> cooldownOf item = 1)
  /\ (PoolItem.cooldownDays item = None -> PoolItem.type item = aspiration ->
      cooldownOf item = 3)
  /\ (forall used, PoolItem.lastUsedAt item = Some used ->
      (forDate - used) / msPerDay < cooldownOf item ->
      ~ In item (av_tasks avail ++ av_aspirations avail)).
Proof.
  intros avail.
  assert (Hiff : In item (av_tasks avail ++ av_aspirations avail) <->
                 In item (poolItems db)
                 /\ PoolItem.status item = PoolItemStatus.active
                 /\ (PoolItem.type item = task \/ PoolItem.type item = aspiration)
                 /\ offCooldown forDate item = true).
  { subst avail. unfold getAvailableForDate. simpl. rewrite in_app_iff.
    rewrite (available_of_type tz db forDate task) by auto.
    rewrite (available_of_type tz db forDate aspiration) by auto. tauto. }
  split; [| split; [| split; [| split; [| split; [| split]]]]].
  - rewrite Hiff, offCooldown_true. tauto.
  - subst avail. unfold getAvailableForDate. simpl.
    rewrite (available_of_type tz db forDate task) by auto. tauto.
  - subst avail. unfold getAvailableForDate. simpl.
    rewrite (available_of_type tz db forDate aspiration) by auto. tauto.
  - intros n Hn. unfold cooldownOf. now rewrite Hn.
  - intros Hn Hty. unfold cooldownOf. now rewrite Hn, Hty.
  - intros Hn Hty. unfold cooldownOf. now rewrite Hn, Hty.
  - intros used Hused Hlt Hin. apply Hiff in Hin.
    destruct Hin as (_ & _ & _ & Hoff). apply offCooldown_true in Hoff.
    destruct Hoff as [Hnone | [u [Hu Hle]]]; [congruence |].
    assert (u = used) by congruence. subst u. lia.
Qed.

Definition poolTask (id : string) (ty : PoolItemType) (lastUsed : option Z) : PoolItem.t :=
  PoolItem.mk id ty "Stretch" None None None None PoolItemStatus.active lastUsed 0 None.

(** 15 January 2024, 00:00 UTC, and two days before. *)
Definition jan15 : Z := 1705276800000.
Definition jan13 : Z := jan15 - 2 * msPerDay.

Definition restingDB : DB := mkDB [] [] [poolTask "a1" aspiration (Some jan13)] [] [].

Lemma cooldown_availability_witness :
  ~ In (poolTask "a1" aspiration (Some jan13))
       (av_tasks (getAvailableForDate 0 restingDB jan15)
        ++ av_aspirations (getAvailableForDate 0 restingDB jan15)).
Proof.
  apply (proj2 (proj2 (proj2 (proj2 (proj2 (proj2
           (cooldown_availability 0 restingDB jan15
              (poolTask "a1" aspiration (Some jan13)))))))) jan13).
  - reflexivity.
  - vm_compute. reflexivity.
Defined.

(** The scenario of the specification: last used two days before the date,
    a task with the default cooldown is offered and an aspiration is not. *)
Example cooldown_scenario :
  let db := mkDB [] [] [poolTask "t1" task (Some jan13); poolTask "a1" aspiration (Some jan13)]
              [] [] in
  av_tasks (getAvailableForDate 0 db jan15) = [poolTask "t1" task (Some jan13)]
  /\ av_aspirations (getAvailableForDate 0 db jan15) = [].
Proof. vm_compute. split; reflexivity. Qed.

(** ** The window of the events *)

Lemma msPerDay_pos : 0 < msPerDay.
Proof. reflexivity. Qed.

Lemma Day_shift (k r : Z) : Day (k * msPerDay + r) = k + Day r.
Proof. unfold Day. apply Z.div_add_l. discriminate. Qed.

Lemma Day_bounds (t : Z) : Day t * msPerDay <= t < Day t * msPerDay + msPerDay.
Proof.
  unfold Day. pose proof (Z.div_mod t msPerDay ltac:(discriminate)) as Hdm.
  pose proof (Z.mod_pos_bound t msPerDay msPerDay_pos) as Hb. lia.
Qed.

Lemma Day_unique (t k : Z) : k * msPerDay <= t < k * msPerDay + msPerDay -> Day t = k.
Proof.
  intros H. unfold Day. symmetry.
  apply (Z.div_unique t msPerDay k (t - k * msPerDay)); lia.
Qed.

(** The window is one local day: the one that holds midnight UTC of the
    date. *)
Lemma startOfDay_local (tz forDate : Z) :
  startOfDay tz forDate = localDay tz (newDate (toISODate forDate)) * msPerDay - tz.
Proof.
  unfold startOfDay, setHours, UTC, localDay, MakeTime. lia.
Qed.

Lemma endOfDay_local (tz forDate : Z) :
  endOfDay tz forDate = startOfDay tz forDate + msPerDay - 1.
Proof.
  unfold endOfDay. rewrite startOfDay_local. unfold setHours, UTC, LocalTime, MakeTime.
  replace (localDay tz (newDate (toISODate forDate)) * msPerDay - tz + tz)
    with (localDay tz (newDate (toISODate forDate)) * msPerDay + 0) by lia.
  rewrite Day_shift. change (Day 0) with 0.
  unfold msPerHour, msPerMinute, msPerSecond, msPerDay. lia.
Qed.

Lemma in_window_iff (tz forDate eventDate : Z) :
  (startOfDay tz forDate <=? eventDate) && (eventDate <=? endOfDay tz forDate) = true <->
  localDay tz eventDate = localDay tz (newDate (toISODate forDate)).
Proof.
  rewrite andb_true_iff, !Z.leb_le, endOfDay_local, startOfDay_local.
  set (k := localDay tz (newDate (toISODate forDate))).
  unfold localDay, LocalTime. split.
  - intros H. apply Day_unique. lia.
  - intros H. pose proof (Day_bounds (eventDate + tz)) as Hb. rewrite H in Hb. lia.
Qed.

Lemma events_iff (tz : Z) (db : DB) (forDate : Z) (item : PoolItem.t) :
  In item (av_events (getAvailableForDate tz db forDate)) <->
  In item (poolItems db)
  /\ PoolItem.status item = PoolItemStatus.active
  /\ PoolItem.type item = event
  /\ exists eventDate, PoolItem.scheduledAt item = Some eventDate
                       /\ localDay tz eventDate = localDay tz (newDate (toISODate forDate)).
Proof.
  unfold getAvailableForDate. simpl. rewrite !filter_In, isActive_true.
  unfold isEventOn.
  destruct (PoolItem.type item);
    try (split; [intros [_ ?]; discriminate | intros (_ & _ & ? & _); discriminate]).
  destruct (PoolItem.scheduledAt item) as [eventDate|].
  - rewrite in_window_iff. split.
    + intros [[Hin Hst] Hday]. repeat split; auto. exists eventDate. auto.
    + intros (Hin & Hst & _ & d & Hd & Hday). injection Hd as <-. auto.
  - split; [intros [_ ?]; discriminate | intros (_ & _ & _ & d & Hd & _); discriminate].
Qed.

(** The local day of midnight UTC is the date itself at and east of
    Greenwich, and the day before west of it. *)
Lemma localDay_of_label (tz dateStr : Z) :
  (0 <= tz < msPerDay -> localDay tz (newDate dateStr) = dateStr)
  /\ (- msPerDay <= tz < 0 -> localDay tz (newDate dateStr) = dateStr - 1).
Proof.
  unfold localDay, LocalTime, newDate. split; intros H; apply Day_unique; lia.
Qed.

(** On a host on UTC the events returned are the active events that start
    on the calendar day of the date; cooldown plays no part. *)
Lemma events_on_utc_host (db : DB) (forDate : Z) (item : PoolItem.t) :
  In item (av_events (getAvailableForDate 0 db forDate)) <->
  In item (poolItems db)
  /\ PoolItem.status item = PoolItemStatus.active
  /\ PoolItem.type item = event
  /\ exists eventDate, PoolItem.scheduledAt item = Some eventDate
                       /\ Day eventDate = Day forDate.
Proof.
  rewrite events_iff.
  rewrite (proj1 (localDay_of_label 0 (toISODate forDate)) ltac:(unfold msPerDay; lia)).
  unfold localDay, LocalTime, toISODate.
  split; intros (Hin & Hst & Hty & d & Hd & Hday); repeat split; auto;
    exists d; (split; [assumption |]).
  - now rewrite Z.add_0_r in Hday.
  - now rewrite Z.add_0_r.
Qed.

(** On a host east of Greenwich they are the events of the local day named
    by the UTC date of [forDate]; west of Greenwich, those of the day before
    it. *)
Lemma events_by_offset (tz : Z) (db : DB) (forDate : Z) (item : PoolItem.t) :
  forall shift,
    (0 <= tz < msPerDay /\ shift = 0) \/ (- msPerDay <= tz < 0 /\ shift = 1) ->
    In item (av_events (getAvailableForDate tz db forDate)) <->
    In item (poolItems db)
    /\ PoolItem.status item = PoolItemStatus.active
    /\ PoolItem.type item = event
    /\ exists eventDate, PoolItem.scheduledAt item = Some eventDate
                         /\ localDay tz eventDate = toISODate forDate - shift.
Proof.
  intros shift Hcase. rewrite events_iff.
  destruct Hcase as [[Htz ->] | [Htz ->]].
  - rewrite (proj1 (localDay_of_label tz (toISODate forDate)) Htz), Z.sub_0_r. tauto.
  - rewrite (proj2 (localDay_of_label tz (toISODate forDate)) Htz). tauto.
Qed.

(** dailyPlanService.ts, [findByDate]: the bounds it computes for the day of
    a date, without going through the UTC label. They are the local day of
    the date on every host. *)
Definition normalizedDate (tz date : Z) : Z := setHours tz date 0 0 0 0.

Definition findByDate_endOfDay (tz date : Z) : Z :=
  setHours tz (normalizedDate tz date) 23 59 59 999.

Lemma findByDate_window (tz date t : Z) :
  normalizedDate tz date <= t <= findByDate_endOfDay tz date <->
  localDay tz t = localDay tz date.
Proof.
  assert (Hlo : normalizedDate tz date = localDay tz date * msPerDay - tz).
  { unfold normalizedDate, setHours, UTC, localDay, MakeTime. lia. }
  assert (Hhi : findByDate_endOfDay tz date = normalizedDate tz date + msPerDay - 1).
  { unfold findByDate_endOfDay. rewrite Hlo. unfold setHours, UTC, LocalTime, MakeTime.
    replace (localDay tz date * msPerDay - tz + tz)
      with (localDay tz date * msPerDay + 0) by lia.
    rewrite Day_shift. change (Day 0) with 0.
    unfold msPerHour, msPerMinute, msPerSecond, msPerDay. lia. }
  rewrite Hhi, Hlo. set (k := localDay tz date). unfold localDay, LocalTime. split.
  - intros H. apply Day_unique. lia.
  - intros H. pose proof (Day_bounds (t + tz)) as Hb. rewrite H in Hb. lia.
Qed.

Definition poolEvent (id title : string) (scheduledAt : Z) : PoolItem.t :=
  PoolItem.mk id event title None None (Some scheduledAt) None PoolItemStatus.active
    None 0 None.

(** A host five hours west of Greenwich: midnight of 15 January 2024 there,
    and 10:00 on the 14th and on the 15th. *)
Definition utcMinus5 : Z := - 5 * msPerHour.
Definition jan15_local : Z := jan15 + 5 * msPerHour.
Definition jan14_10am_local : Z := jan15 - msPerDay + 15 * msPerHour.
Definition jan15_10am_local : Z := jan15 + 15 * msPerHour.

(** C4, evaluated. On a host five hours west of Greenwich, asked for
    15 January 2024 (local midnight of that day, which is 05:00 UTC of the
    same date), the resolver returns the event of 14 January, 10:00 local
    time, and leaves out the event of 15 January, 10:00 local time: the
    window it computes is the local day before the date, and the date itself
    lies after its end. The bounds of [findByDate] for the same date are
    those of 15 January. *)
Theorem events_window_west_of_greenwich :
  let db := mkDB [] [] [poolEvent "e14" "Dentist" jan14_10am_local;
                        poolEvent "e15" "Concert" jan15_10am_local] [] [] in
  toISODate jan15_local = 19737
  /\ localDay utcMinus5 jan15_local = 19737
  /\ localDay utcMinus5 jan14_10am_local = 19736
  /\ localDay utcMinus5 jan15_10am_local = 19737
  /\ av_events (getAvailableForDate utcMinus5 db jan15_local)
     = [poolEvent "e14" "Dentist" jan14_10am_local]
  /\ startOfDay utcMinus5 jan15_local = jan15_local - msPerDay
  /\ endOfDay utcMinus5 jan15_local = jan15_local - 1
  /\ normalizedDate utcMinus5 jan15_local = jan15_local
  /\ findByDate_endOfDay utcMinus5 jan15_local = jan15_local + msPerDay - 1.
Proof. vm_compute. repeat split; reflexivity. Qed.

(** ** The two maps of the commit *)

(** A [Map] filled pair by pair holds, for a key, the value of the last
    element that has the key. *)
Lemma lookup_fold_insert {A V : Type} (key : A -> string) (val : A -> V)
    (l : list A) (m0 : gmap string V) (k : string) :
  fold_left (fun m x => <[key x := val x]> m) l m0 !! k =
  match List.find (fun x => String.eqb (key x) k) (rev l) with
  | Some x => Some (val x)
  | None => m0 !! k
  end.
Proof.
  revert m0. induction l as [| x l IH] using rev_ind; intros m0.
  - reflexivity.
  - rewrite fold_left_app, rev_app_distr. simpl.
    destruct (String.eqb_spec (key x) k) as [-> | Hne].
    + apply lookup_insert_eq.
    + rewrite lookup_insert_ne by assumption. apply IH.
Qed.

Lemma categoryByName_lookup (ctx : PlanningContext) (name : string) :
  categoryByName ctx !! name =
  option_map cr_id (List.find (fun c => String.eqb (cr_name c) name) (rev (ctx_categories ctx))).
Proof.
  unfold categoryByName. rewrite lookup_fold_insert.
  destruct (List.find _ _); reflexivity.
Qed.

Lemma poolItemsByTitle_lookup (ctx : PlanningContext) (k : string) :
  poolItemsByTitle ctx !! k =
  List.find (fun item => String.eqb (titleKey (PoolItem.title item)) k) (rev (candidates ctx)).
Proof.
  unfold poolItemsByTitle. rewrite lookup_fold_insert.
  destruct (List.find _ _); reflexivity.
Qed.

Lemma find_none_iff {A : Type} (f : A -> bool) (l : list A) :
  List.find f l = None <-> forall x, In x l -> f x = false.
Proof.
  split.
  - apply find_none.
  - induction l as [| a l IH]; simpl; intros H; [reflexivity |].
    rewrite (H a (or_introl eq_refl)). apply IH. intros x Hx. apply H. now right.
Qed.

(** The known names are those of the categories of the context. *)
Lemma categoryByName_known (ctx : PlanningContext) (name : string) :
  is_Some (categoryByName ctx !! name) <-> In name (List.map cr_name (ctx_categories ctx)).
Proof.
  rewrite categoryByName_lookup, in_map_iff. split.
  - intros [v Hv]. destruct (List.find _ _) as [c|] eqn:Hf; [| discriminate].
    apply find_some in Hf. destruct Hf as [Hin Heq]. apply String.eqb_eq in Heq.
    exists c. split; [assumption |]. now apply in_rev.
  - intros (c & Hc & Hin). destruct (List.find _ _) as [c'|] eqn:Hf.
    + now exists (cr_id c').
    + exfalso. rewrite find_none_iff in Hf. specialize (Hf c).
      rewrite <- in_rev in Hf. specialize (Hf Hin). rewrite Hc, String.eqb_refl in Hf.
      discriminate.
Qed.

Lemma categoryByName_id (ctx : PlanningContext) (name id : string) :
  categoryByName ctx !! name = Some id ->
  exists c, In c (ctx_categories ctx) /\ cr_name c = name /\ cr_id c = id.
Proof.
  rewrite categoryByName_lookup. destruct (List.find _ _) as [c|] eqn:Hf; [| discriminate].
  intros [= <-]. apply find_some in Hf. destruct Hf as [Hin Heq].
  apply String.eqb_eq in Heq. exists c. rewrite <- in_rev in Hin. auto.
Qed.

(** The categories of the context are the enabled ones. *)
Lemma insertCategory_In (c x : Category.t) (l : list Category.t) :
  In x (insertCategory c l) <-> x = c \/ In x l.
Proof.
  induction l as [| y l IH]; simpl.
  - intuition.
  - destruct (categoryBefore c y); simpl; [intuition |].
    rewrite IH. intuition.
Qed.

Lemma findAllEnabled_In (db : DB) (c : Category.t) :
  In c (findAllEnabled db) <-> In c (categories db) /\ Category.enabled c = true.
Proof.
  unfold findAllEnabled. rewrite <- filter_In.
  induction (List.filter Category.enabled (categories db)) as [| y l IH]; simpl.
  - tauto.
  - rewrite insertCategory_In, IH. intuition.
Qed.

Lemma ctx_categories_In (tz : Z) (db : DB) (forDate : Z) (r : CategoryRef) :
  In r (ctx_categories (gatherContext tz db forDate)) <->
  exists c, In c (categories db) /\ Category.enabled c = true
            /\ r = mkCategoryRef (Category.id c) (Category.name c).
Proof.
  unfold gatherContext. simpl. rewrite in_map_iff. split.
  - intros (c & <- & Hin). apply findAllEnabled_In in Hin. exists c. tauto.
  - intros (c & Hin & Hen & ->). exists c. split; [reflexivity |].
    apply findAllEnabled_In. tauto.
Qed.

(** Every event of the context has a start, so all of them are placed. *)
Lemma eventsToPlace_all (tz : Z) (db : DB) (forDate : Z) :
  List.map fst (eventsToPlace (gatherContext tz db forDate))
  = av_events (getAvailableForDate tz db forDate).
Proof.
  unfold eventsToPlace, gatherContext. simpl ctx_poolItems.
  assert (H : Forall (fun ev => PoolItem.scheduledAt ev <> None)
                (av_events (getAvailableForDate tz db forDate))).
  { apply List.Forall_forall. intros ev Hev. apply events_iff in Hev.
    destruct Hev as (_ & _ & _ & d & Hd & _). congruence. }
  induction H as [| ev l Hev _ IH]; [reflexivity |].
  cbn [omap list_omap]. destruct (PoolItem.scheduledAt ev) as [d|]; [| congruence].
  simpl. f_equal. apply IH.
Qed.

(** ** The commit: what the two loops write *)

Definition addPlan (db : DB) (plan : DailyPlan.t) : DB :=
  mkDB (dailyPlans db ++ [plan]) (tasks db) (poolItems db) (categories db) (journalEntries db).

Definition addTasks (db : DB) (rows : list Task.t) : DB :=
  mkDB (dailyPlans db) (tasks db ++ rows) (poolItems db) (categories db) (journalEntries db).

Definition usePool (db : DB) (ids : list string) (usedAt : Z) : DB :=
  mkDB (dailyPlans db) (tasks db)
    (List.map (fun item => if idIn ids item then markUsed usedAt item else item) (poolItems db))
    (categories db) (journalEntries db).

Lemma addTasks_nil (db : DB) : addTasks db [] = db.
Proof. destruct db. unfold addTasks. simpl. now rewrite app_nil_r. Qed.

Lemma addTasks_app (db : DB) (l1 l2 : list Task.t) :
  addTasks (addTasks db l1) l2 = addTasks db (l1 ++ l2).
Proof. unfold addTasks. simpl. now rewrite <- app_assoc. Qed.

(** The category an entry of the model is filed under, if it survives. *)
Definition entryCategory (ctx : PlanningContext) (t : LLMTask.t) : option string :=
  truthyStr (categoryByName ctx !! LLMTask.category t).

Definition survives (ctx : PlanningContext) (t : LLMTask.t) : bool :=
  match entryCategory ctx t with Some _ => true | None => false end.

(** The identifiers the first loop pushes to [poolItemIdsToMark]. *)
Definition entryMarks (ctx : PlanningContext) (ts : list LLMTask.t) : list string :=
  flat_map (fun t => match matchPoolItem ctx t with
                     | Some item => [PoolItem.id item]
                     | None => []
                     end) (List.filter (survives ctx) ts).

Section Commit.

Variable tz : Z.
Variable Number : string -> option Z.
Variable JSON_parse : string -> option JsonValue.
Variable rejects : Write -> bool.
Variable newId : DB -> string.

(** Rows written one after the other until the storage refuses one. *)
Fixpoint writeRows (rows : list Task.t) (db : DB) : Outcome unit :=
  match rows with
  | [] => Returned tt db
  | r :: rest =>
      if rejects (CreateTask r) then Threw (WriteFailed (CreateTask r)) db
      else writeRows rest (addTasks db [r])
  end.

Definition accepted (rows : list Task.t) : Prop :=
  Forall (fun r => rejects (CreateTask r) = false) rows.

Lemma writeRows_accepted (rows : list Task.t) (db : DB) :
  accepted rows -> writeRows rows db = Returned tt (addTasks db rows).
Proof.
  intros H. revert db. induction H as [| r rest Hr _ IH]; intros db; simpl.
  - now rewrite addTasks_nil.
  - rewrite Hr, IH, addTasks_app. reflexivity.
Qed.

Lemma writeRows_returned (rows : list Task.t) (db db' : DB) (u : unit) :
  writeRows rows db = Returned u db' -> accepted rows /\ db' = addTasks db rows.
Proof.
  revert db. induction rows as [| r rest IH]; intros db; simpl.
  - intros [= _ <-]. split; [constructor | now rewrite addTasks_nil].
  - destruct (rejects (CreateTask r)) eqn:Hr; [discriminate |].
    intros H. apply IH in H. destruct H as [Hacc ->]. split.
    + constructor; assumption.
    + now rewrite addTasks_app.
Qed.

Lemma writeRows_threw (rows : list Task.t) (db db' : DB) (e : Error) :
  writeRows rows db = Threw e db' ->
  exists pre r post,
    rows = pre ++ r :: post /\ accepted pre /\ rejects (CreateTask r) = true
    /\ e = WriteFailed (CreateTask r) /\ db' = addTasks db pre.
Proof.
  revert db. induction rows as [| r rest IH]; intros db; simpl.
  - discriminate.
  - destruct (rejects (CreateTask r)) eqn:Hr.
    + intros [= <- <-]. exists [], r, rest. repeat split; auto.
      * constructor.
      * now rewrite addTasks_nil.
    + intros H. apply IH in H. destruct H as (pre & r' & post & -> & Hacc & Hrej & -> & ->).
      exists (r :: pre), r', post. repeat split; auto.
      * constructor; assumption.
      * now rewrite addTasks_app.
Qed.

Lemma writeRows_app (l1 l2 : list Task.t) (db : DB) :
  writeRows (l1 ++ l2) db =
  match writeRows l1 db with
  | Returned _ db' => writeRows l2 db'
  | Threw e db' => Threw e db'
  end.
Proof.
  revert db. induction l1 as [| r rest IH]; intros db; simpl; [reflexivity |].
  destruct (rejects (CreateTask r)); [reflexivity | apply IH].
Qed.

(** The rows the first loop creates: one for each entry that survives. *)
Definition entryRows (ctx : PlanningContext) (planId : string) (dateStr : Z)
    (ts : list LLMTask.t) : list Task.t :=
  omap (fun t => option_map (fun c => taskOfEntry tz Number ctx planId dateStr c t)
                   (entryCategory ctx t)) ts.

Lemma entryRows_cons (ctx : PlanningContext) (planId : string) (dateStr : Z)
    (t : LLMTask.t) (rest : list LLMTask.t) :
  entryRows ctx planId dateStr (t :: rest) =
  match entryCategory ctx t with
  | Some c => taskOfEntry tz Number ctx planId dateStr c t :: entryRows ctx planId dateStr rest
  | None => entryRows ctx planId dateStr rest
  end.
Proof. unfold entryRows. simpl. destruct (entryCategory ctx t); reflexivity. Qed.

Lemma entryMarks_cons (ctx : PlanningContext) (t : LLMTask.t) (rest : list LLMTask.t) :
  entryMarks ctx (t :: rest) =
  match entryCategory ctx t with
  | Some _ => match matchPoolItem ctx t with
              | Some item => [PoolItem.id item]
              | None => []
              end ++ entryMarks ctx rest
  | None => entryMarks ctx rest
  end.
Proof. unfold entryMarks, survives. simpl. destruct (entryCategory ctx t); reflexivity. Qed.

Lemma createTasks_writes (ctx : PlanningContext) (planId : string) (dateStr : Z)
    (ts : list LLMTask.t) (acc : list string) (db : DB) :
  createTasks tz Number rejects ctx planId dateStr ts acc db =
  match writeRows (entryRows ctx planId dateStr ts) db with
  | Returned _ db' => Returned (acc ++ entryMarks ctx ts) db'
  | Threw e db' => Threw e db'
  end.
Proof.
  revert acc db. induction ts as [| t rest IH]; intros acc db.
  - simpl. unfold ret, entryMarks. simpl. now rewrite app_nil_r.
  - simpl createTasks. fold (entryCategory ctx t).
    rewrite entryRows_cons, entryMarks_cons.
    destruct (entryCategory ctx t) as [c|] eqn:Hc.
    + simpl writeRows. unfold bind, task_create.
      destruct (rejects (CreateTask (taskOfEntry tz Number ctx planId dateStr c t))) eqn:Hr.
      * reflexivity.
      * rewrite IH. fold (addTasks db [taskOfEntry tz Number ctx planId dateStr c t]).
        destruct (writeRows (entryRows ctx planId dateStr rest) _); [| reflexivity].
        now rewrite <- app_assoc.
    + apply IH.
Qed.

(** The rows the second loop creates: one for each event to place that has
    a category of its own or a first category to fall back on. *)
Definition eventRows (ctx : PlanningContext) (planId : string)
    (evs : list (PoolItem.t * Z)) : list Task.t :=
  omap (fun ev => option_map (fun c => taskOfEvent planId c (fst ev) (snd ev))
                    (eventCategory ctx (fst ev))) evs.

Definition eventMarks (ctx : PlanningContext) (evs : list (PoolItem.t * Z)) : list string :=
  omap (fun ev => option_map (fun _ => PoolItem.id (fst ev)) (eventCategory ctx (fst ev))) evs.

Lemma eventRows_cons (ctx : PlanningContext) (planId : string) (poolItem : PoolItem.t)
    (scheduledTime : Z) (rest : list (PoolItem.t * Z)) :
  eventRows ctx planId ((poolItem, scheduledTime) :: rest) =
  match eventCategory ctx poolItem with
  | Some c => taskOfEvent planId c poolItem scheduledTime :: eventRows ctx planId rest
  | None => eventRows ctx planId rest
  end.
Proof. unfold eventRows. simpl. destruct (eventCategory ctx poolItem); reflexivity. Qed.

Lemma eventMarks_cons (ctx : PlanningContext) (poolItem : PoolItem.t)
    (scheduledTime : Z) (rest : list (PoolItem.t * Z)) :
  eventMarks ctx ((poolItem, scheduledTime) :: rest) =
  match eventCategory ctx poolItem with
  | Some _ => PoolItem.id poolItem :: eventMarks ctx rest
  | None => eventMarks ctx rest
  end.
Proof. unfold eventMarks. simpl. destruct (eventCategory ctx poolItem); reflexivity. Qed.

Lemma placeEvents_writes (ctx : PlanningContext) (planId : string)
    (evs : list (PoolItem.t * Z)) (acc : list string) (db : DB) :
  placeEvents rejects ctx planId evs acc db =
  match writeRows (eventRows ctx planId evs) db with
  | Returned _ db' => Returned (acc ++ eventMarks ctx evs) db'
  | Threw e db' => Threw e db'
  end.
Proof.
  revert acc db. induction evs as [| [poolItem at_] rest IH]; intros acc db.
  - simpl. unfold ret. now rewrite app_nil_r.
  - simpl placeEvents. rewrite eventRows_cons, eventMarks_cons.
    destruct (eventCategory ctx poolItem) as [c|] eqn:Hc.
    + simpl writeRows. unfold bind, task_create.
      destruct (rejects (CreateTask (taskOfEvent planId c poolItem at_))) eqn:Hr.
      * reflexivity.
      * rewrite IH. fold (addTasks db [taskOfEvent planId c poolItem at_]).
        destruct (writeRows (eventRows ctx planId rest) _); [| reflexivity].
        now rewrite <- app_assoc.
    + apply IH.
Qed.

(** *** The body of the transaction, step by step *)

Definition parsedOf (response : string) : JsonValue := parseLLMResponse JSON_parse response.

Definition validReply (response : string) : bool :=
  truthy (parsedOf response) && isArray (tasksOf (parsedOf response)).

Definition entriesOf (response : string) : list LLMTask.t :=
  elements (tasksOf (parsedOf response)).

Definition summaryOf (response : string) : option string :=
  truthyStr (Some (join " " (omap truthyStr [capacityNotesOf (parsedOf response);
                                             mentalStateNotesOf (parsedOf response)]))).

Definition planWrite (ctx : PlanningContext) (forDate : Z) (response : string) : Write :=
  CreatePlan forDate (ctx_capacityScore ctx) (summaryOf response).

Definition planRow (ctx : PlanningContext) (forDate : Z) (response : string) (db : DB)
    : DailyPlan.t :=
  DailyPlan.mk (newId db) forDate (ctx_capacityScore ctx) (summaryOf response).

Definition allRows (ctx : PlanningContext) (forDate : Z) (response : string) (db : DB)
    : list Task.t :=
  entryRows ctx (newId db) (toISODate forDate) (entriesOf response)
  ++ eventRows ctx (newId db) (eventsToPlace ctx).

Definition allMarks (ctx : PlanningContext) (response : string) : list string :=
  entryMarks ctx (entriesOf response) ++ eventMarks ctx (eventsToPlace ctx).

Definition known (ctx : PlanningContext) (t : LLMTask.t) : bool :=
  bool_decide (is_Some (categoryByName ctx !! LLMTask.category t)).

Definition countOf (ctx : PlanningContext) (response : string) : Z :=
  len (List.filter (known ctx) (entriesOf response)) + len (eventsToPlace ctx).

Definition generated (ctx : PlanningContext) (response : string) (db : DB) : Generated :=
  mkGenerated (newId db) (countOf ctx response).

Lemma body_invalid (ctx : PlanningContext) (forDate : Z) (response : string) (db : DB) :
  validReply response = false ->
  generatePlanBody tz Number JSON_parse rejects newId ctx forDate (Some response) db
  = Threw (InvalidPlan (invalidPlanMessage response)) db.
Proof.
  unfold validReply, parsedOf. intros H.
  assert (Hc : negb (truthy (parseLLMResponse JSON_parse response))
               || negb (isArray (tasksOf (parseLLMResponse JSON_parse response))) = true)
    by (rewrite <- negb_andb, H; reflexivity).
  unfold generatePlanBody. rewrite Hc. reflexivity.
Qed.

Lemma body_valid (ctx : PlanningContext) (forDate : Z) (response : string) (db : DB) :
  validReply response = true ->
  generatePlanBody tz Number JSON_parse rejects newId ctx forDate (Some response) db
  = if rejects (planWrite ctx forDate response)
    then Threw (WriteFailed (planWrite ctx forDate response)) db
    else
      match writeRows (allRows ctx forDate response db)
              (addPlan db (planRow ctx forDate response db)) with
      | Threw e dirty => Threw e dirty
      | Returned _ db2 =>
          if 0 <? len (allMarks ctx response)
          then
            if rejects (UpdatePoolUsage (allMarks ctx response) forDate)
            then Threw (WriteFailed (UpdatePoolUsage (allMarks ctx response) forDate)) db2
            else Returned (generated ctx response db)
                   (usePool db2 (allMarks ctx response) forDate)
          else Returned (generated ctx response db) db2
      end.
Proof.
  unfold validReply, parsedOf. intros H.
  assert (Hc : negb (truthy (parseLLMResponse JSON_parse response))
               || negb (isArray (tasksOf (parseLLMResponse JSON_parse response))) = false)
    by (rewrite <- negb_andb, H; reflexivity).
  unfold generatePlanBody. rewrite Hc. cbv iota.
  fold (parsedOf response). fold (summaryOf response).
  unfold bind at 1. unfold dailyPlan_create. cbv beta zeta.
  fold (planWrite ctx forDate response).
  destruct (rejects (planWrite ctx forDate response)); [reflexivity |].
  fold (planRow ctx forDate response db). fold (addPlan db (planRow ctx forDate response db)).
  unfold bind at 1. rewrite createTasks_writes.
  unfold allRows. rewrite writeRows_app. simpl DailyPlan.id. fold (entriesOf response).
  destruct (writeRows (entryRows ctx (newId db) (toISODate forDate) (entriesOf response)) _)
    as [u db1 | e dirty]; [| reflexivity].
  unfold bind at 1. rewrite placeEvents_writes. simpl app.
  destruct (writeRows (eventRows ctx (newId db) (eventsToPlace ctx)) db1)
    as [u' db2 | e dirty]; [| reflexivity].
  fold (allMarks ctx response). unfold bind, ret.
  destruct (0 <? len (allMarks ctx response)).
  - unfold poolItem_updateMany.
    destruct (rejects (UpdatePoolUsage (allMarks ctx response) forDate)); reflexivity.
  - reflexivity.
Qed.

(** *** Atomicity *)

Lemma generatePlan_fulfilled (db : DB) (forDate : Z) (response : string)
    (g : Generated) (db' : DB) :
  generatePlan tz Number JSON_parse rejects newId db forDate (Some response)
    = (Fulfilled g, db') ->
  let ctx := gatherContext tz db forDate in
  validReply response = true
  /\ rejects (planWrite ctx forDate response) = false
  /\ accepted (allRows ctx forDate response db)
  /\ g = generated ctx response db
  /\ db' = (if 0 <? len (allMarks ctx response)
            then usePool (addTasks (addPlan db (planRow ctx forDate response db))
                            (allRows ctx forDate response db))
                   (allMarks ctx response) forDate
            else addTasks (addPlan db (planRow ctx forDate response db))
                   (allRows ctx forDate response db)).
Proof.
  intros H ctx. unfold generatePlan, transaction in H. fold ctx in H.
  destruct (validReply response) eqn:Hv.
  - rewrite (body_valid ctx forDate response db Hv) in H.
    destruct (rejects (planWrite ctx forDate response)); [discriminate |].
    destruct (writeRows _ _) as [u db2 | e dirty] eqn:Hw; [| discriminate].
    apply writeRows_returned in Hw. destruct Hw as [Hacc ->].
    destruct (0 <? len (allMarks ctx response)).
    + destruct (rejects (UpdatePoolUsage _ _)); [discriminate |].
      injection H as <- <-. auto.
    + injection H as <- <-. auto.
  - rewrite (body_invalid ctx forDate response db Hv) in H. discriminate.
Qed.

Lemma generatePlan_accepted (db : DB) (forDate : Z) (response : string) :
  let ctx := gatherContext tz db forDate in
  validReply response = true ->
  rejects (planWrite ctx forDate response) = false ->
  accepted (allRows ctx forDate response db) ->
  rejects (UpdatePoolUsage (allMarks ctx response) forDate) = false ->
  generatePlan tz Number JSON_parse rejects newId db forDate (Some response)
  = (Fulfilled (generated ctx response db),
     if 0 <? len (allMarks ctx response)
     then usePool (addTasks (addPlan db (planRow ctx forDate response db))
                     (allRows ctx forDate response db))
            (allMarks ctx response) forDate
     else addTasks (addPlan db (planRow ctx forDate response db))
            (allRows ctx forDate response db)).
Proof.
  intros ctx Hv Hp Hacc Hu. unfold generatePlan, transaction. fold ctx.
  rewrite (body_valid ctx forDate response db Hv), Hp.
  rewrite (writeRows_accepted _ _ Hacc), Hu.
  destruct (0 <? len (allMarks ctx response)); reflexivity.
Qed.

(** C1. The commit is all or nothing. When [generatePlan] rejects, for
    whatever reason, the tables are exactly what they were: no plan row, no
    schedule entry and no change of [lastUsedAt] or [useCount] from the run.
    In particular, when the plan and every entry have been created and the
    update of the pool usage is then refused, the body had written one plan
    row and all the entries, and none of them is kept. A refusal of any
    write of the run (the plan, an entry of the model, an entry of an event,
    the update of the pool usage) makes the run reject. When it fulfils, the
    plan, the entries and the pool usage are all there. *)
Theorem commit_is_atomic (db : DB) (forDate : Z) (reply : option string) :
  let ctx := gatherContext tz db forDate in
  (forall e db',
      generatePlan tz Number JSON_parse rejects newId db forDate reply = (Rejected e, db') ->
      db' = db)
  /\ (forall response,
        reply = Some response ->
        validReply response = true ->
        rejects (planWrite ctx forDate response) = false ->
        accepted (allRows ctx forDate response db) ->
        allMarks ctx response <> [] ->
        rejects (UpdatePoolUsage (allMarks ctx response) forDate) = true ->
        generatePlanBody tz Number JSON_parse rejects newId ctx forDate reply db
        = Threw (WriteFailed (UpdatePoolUsage (allMarks ctx response) forDate))
            (addTasks (addPlan db (planRow ctx forDate response db))
               (allRows ctx forDate response db))
        /\ generatePlan tz Number JSON_parse rejects newId db forDate reply
           = (Rejected (WriteFailed (UpdatePoolUsage (allMarks ctx response) forDate)), db))
  /\ (forall response,
        reply = Some response ->
        validReply response = true ->
        rejects (planWrite ctx forDate response) = true
        \/ Exists (fun row => rejects (CreateTask row) = true) (allRows ctx forDate response db)
        \/ (allMarks ctx response <> []
            /\ rejects (UpdatePoolUsage (allMarks ctx response) forDate) = true) ->
        exists w,
          generatePlan tz Number JSON_parse rejects newId db forDate reply
          = (Rejected (WriteFailed w), db))
  /\ (forall g db',
        generatePlan tz Number JSON_parse rejects newId db forDate reply = (Fulfilled g, db') ->
        exists response,
          reply = Some response
          /\ dailyPlans db' = dailyPlans db ++ [planRow ctx forDate response db]
          /\ tasks db' = tasks db ++ allRows ctx forDate response db
          /\ poolItems db' = List.map (fun item => if idIn (allMarks ctx response) item
                                                   then markUsed forDate item else item)
                                (poolItems db)).
Proof.
  intros ctx. split; [| split; [| split]].
  - intros e db'. unfold generatePlan, transaction.
    destruct (generatePlanBody _ _ _ _ _ _ _ _ db); intros [= _ <-]; reflexivity.
  - intros response -> Hv Hp Hacc Hne Hu.
    assert (Hbody : generatePlanBody tz Number JSON_parse rejects newId ctx forDate
                      (Some response) db
                    = Threw (WriteFailed (UpdatePoolUsage (allMarks ctx response) forDate))
                        (addTasks (addPlan db (planRow ctx forDate response db))
                           (allRows ctx forDate response db))).
    { rewrite (body_valid ctx forDate response db Hv), Hp.
      rewrite (writeRows_accepted _ _ Hacc), Hu.
      destruct (allMarks ctx response) as [| x l]; [congruence |].
      unfold len. simpl length. reflexivity. }
    split; [exact Hbody |].
    unfold generatePlan, transaction. fold ctx. now rewrite Hbody.
  - intros response -> Hv Hfail. unfold generatePlan, transaction. fold ctx.
    rewrite (body_valid ctx forDate response db Hv).
    destruct (rejects (planWrite ctx forDate response)) eqn:Hp; [now eexists |].
    destruct (writeRows _ _) as [u db2 | e dirty] eqn:Hw.
    + apply writeRows_returned in Hw. destruct Hw as [Hacc _].
      destruct Hfail as [Hf | [Hf | [Hne Hf]]]; [discriminate | |].
      * exfalso. apply List.Exists_exists in Hf. destruct Hf as (row & Hin & Hrow).
        unfold accepted in Hacc. rewrite List.Forall_forall in Hacc.
        rewrite (Hacc row Hin) in Hrow. discriminate.
      * rewrite Hf. destruct (allMarks ctx response) as [| x l]; [congruence |].
        unfold len. simpl length. now eexists.
    + apply writeRows_threw in Hw. destruct Hw as (pre & r & post & _ & _ & _ & -> & _).
      now eexists.
  - intros g db' H. destruct reply as [response |].
    + apply generatePlan_fulfilled in H. fold ctx in H.
      destruct H as (_ & _ & _ & _ & ->).
      exists response. split; [reflexivity |].
      destruct (0 <? len (allMarks ctx response)) eqn:Hlen.
      * simpl. auto.
      * simpl. repeat split; auto.
        destruct (allMarks ctx response) as [| x l]; [| discriminate].
        simpl. now rewrite map_id.
    + discriminate.
Qed.

(** *** Validation of the answer *)

(** The text handed to [JSON.parse]: the inside of the fenced block when
    there is one, else the whole answer, trimmed. *)
Definition candidateText (response : string) : string :=
  match fencedBlock response with
  | Some inner => trim inner
  | None => trim response
  end.

(** No JSON object comes out of the candidate text. *)
Definition unparsable (response : string) : Prop :=
  forall o, JSON_parse (candidateText response) <> Some (JObject o).

(** An object comes out and its [tasks] is not a list. *)
Definition entryListAbsent (response : string) : Prop :=
  exists o, JSON_parse (candidateText response) = Some (JObject o)
            /\ (out_tasks o = tasks_undefined \/ out_tasks o = tasks_not_array).

Lemma validReply_false_iff (response : string) :
  validReply response = false <-> unparsable response \/ entryListAbsent response.
Proof.
  unfold validReply, parsedOf, parseLLMResponse, unparsable, entryListAbsent.
  fold (candidateText response).
  destruct (JSON_parse (candidateText response)) as [v |].
  - destruct v as [| b | z | str | | o]; simpl;
      try (split; [intros _; left; intros o; discriminate
                  | intros _; try reflexivity; try (now destruct b); try (now destruct z);
                    try apply andb_false_r]).
    destruct (out_tasks o) as [| | ts] eqn:Ho; simpl.
    + split; [intros _; right; exists o; auto | reflexivity].
    + split; [intros _; right; exists o; auto | reflexivity].
    + split; [discriminate |].
      intros [H | (o' & [= <-] & [H | H])]; [now destruct (H o) | congruence | congruence].
  - simpl. split; [intros _; left; intros o; discriminate | reflexivity].
Qed.

Lemma slice0_prefix (n : nat) (s : string) :
  exists rest, s = String.append (slice0 n s) rest
               /\ String.length (slice0 n s) = Nat.min n (String.length s).
Proof.
  unfold slice0. revert n. induction s as [| c s IH]; intros n.
  - exists EmptyString. destruct n; simpl; auto.
  - destruct n as [| n].
    + exists (String c s). simpl. auto.
    + destruct (IH n) as (rest & Hrest & Hlen). exists rest. simpl.
      split; [| now f_equal].
      change (String c s = String c (String.append (String.substring 0 n s) rest)).
      now f_equal.
Qed.

(** C5. Validation fails exactly when no JSON object can be parsed from the
    candidate text (the fenced block if there is one, else the whole answer,
    trimmed) or the object's [tasks] is not a list. The generation is then
    rejected with an error whose message ends with the first 500 characters
    of the raw answer, and nothing is committed. *)
Theorem validation_failure (db : DB) (forDate : Z) (response : string) :
  ((exists message db',
       generatePlan tz Number JSON_parse rejects newId db forDate (Some response)
       = (Rejected (InvalidPlan message), db'))
   <-> unparsable response \/ entryListAbsent response)
  /\ (unparsable response \/ entryListAbsent response ->
      generatePlan tz Number JSON_parse rejects newId db forDate (Some response)
      = (Rejected (InvalidPlan
                     (String.append "LLM did not return a valid plan with tasks. Raw response: "
                        (slice0 500 response))), db))
  /\ (exists rest, response = String.append (slice0 500 response) rest
                   /\ String.length (slice0 500 response)
                      = Nat.min 500 (String.length response)).
Proof.
  assert (Hfail : unparsable response \/ entryListAbsent response ->
                  generatePlan tz Number JSON_parse rejects newId db forDate (Some response)
                  = (Rejected (InvalidPlan (invalidPlanMessage response)), db)).
  { intros H. apply validReply_false_iff in H. unfold generatePlan, transaction.
    now rewrite (body_invalid _ forDate response db H). }
  split; [| split].
  - split.
    + intros (message & db' & H). apply validReply_false_iff.
      destruct (validReply response) eqn:Hv; [| reflexivity]. exfalso.
      unfold generatePlan, transaction in H.
      rewrite (body_valid _ forDate response db Hv) in H.
      destruct (rejects (planWrite _ forDate response)); [discriminate |].
      destruct (writeRows _ _) as [u db2 | e dirty] eqn:Hw.
      * destruct (0 <? len _); [destruct (rejects (UpdatePoolUsage _ _)) |]; discriminate.
      * apply writeRows_threw in Hw. destruct Hw as (pre & r & post & _ & _ & _ & -> & _).
        discriminate.
    + intros H. eexists _, _. exact (Hfail H).
  - exact Hfail.
  - apply slice0_prefix.
Qed.

(** *** An empty list of entries *)

Lemma eventRows_shape (ctx : PlanningContext) (planId : string)
    (evs : list (PoolItem.t * Z)) (row : Task.t) :
  In row (eventRows ctx planId evs) ->
  exists poolItem scheduledTime categoryId,
    In (poolItem, scheduledTime) evs
    /\ eventCategory ctx poolItem = Some categoryId
    /\ row = Task.mk planId categoryId (Some (PoolItem.id poolItem)) (PoolItem.title poolItem)
               (PoolItem.notes poolItem) (Some (DateAt scheduledTime)) None 1
               TaskStatus.pending.
Proof.
  induction evs as [| [poolItem at_] rest IH].
  - intros [].
  - rewrite eventRows_cons. destruct (eventCategory ctx poolItem) as [c |] eqn:Hc.
    + intros [<- | Hin].
      * exists poolItem, at_, c. repeat split; auto. now left.
      * destruct (IH Hin) as (p & t & c' & Hp & Hc' & ->).
        exists p, t, c'. repeat split; auto. now right.
    + intros Hin. destruct (IH Hin) as (p & t & c' & Hp & Hc' & ->).
      exists p, t, c'. repeat split; auto. now right.
Qed.

Lemma eventRows_length (ctx : PlanningContext) (planId : string)
    (evs : list (PoolItem.t * Z)) :
  (forall ev, In ev evs -> eventCategory ctx (fst ev) <> None) ->
  length (eventRows ctx planId evs) = length evs.
Proof.
  induction evs as [| [poolItem at_] rest IH]; intros H; [reflexivity |].
  rewrite eventRows_cons.
  destruct (eventCategory ctx poolItem) as [c |] eqn:Hc.
  - simpl. f_equal. apply IH. intros ev Hev. apply H. now right.
  - exfalso. apply (H (poolItem, at_)); [now left | exact Hc].
Qed.

Lemma eventsToPlace_In (ctx : PlanningContext) (poolItem : PoolItem.t) (scheduledTime : Z) :
  In (poolItem, scheduledTime) (eventsToPlace ctx) <->
  In poolItem (av_events (ctx_poolItems ctx))
  /\ PoolItem.scheduledAt poolItem = Some scheduledTime.
Proof.
  unfold eventsToPlace. induction (av_events (ctx_poolItems ctx)) as [| ev l IH].
  - simpl. tauto.
  - cbn [omap list_omap]. destruct (PoolItem.scheduledAt ev) as [d |] eqn:Hd; simpl.
    + rewrite IH. split.
      * intros [[= <- <-] | H]; [auto | tauto].
      * intros [[<- | H] Hs]; [left; congruence | tauto].
    + rewrite IH. split; [tauto |]. intros [[<- | H] Hs]; [congruence | tauto].
Qed.

(** C10. An answer whose [tasks] is the empty list passes validation: an
    object fails it only when its [tasks] is missing or not a list. When
    the storage accepts the writes, the plan is committed with no entry of
    the model: its entries are those of the events of the date, each with
    the event's own start, its identifier and suggested order 1, and the
    reported count is the number of events to place, which is the number of
    entries created as soon as every event finds a category. *)
Theorem empty_entry_list_commits (db : DB) (forDate : Z) (response : string)
    (o : LLMPlanOutput) :
  let ctx := gatherContext tz db forDate in
  let rows := eventRows ctx (newId db) (eventsToPlace ctx) in
  parsedOf response = JObject o ->
  out_tasks o = tasks_array [] ->
  validReply response = true
  /\ (forall response' o',
        parsedOf response' = JObject o' ->
        (validReply response' = false <->
         out_tasks o' = tasks_undefined \/ out_tasks o' = tasks_not_array))
  /\ (rejects (planWrite ctx forDate response) = false ->
      accepted rows ->
      rejects (UpdatePoolUsage (eventMarks ctx (eventsToPlace ctx)) forDate) = false ->
      exists db',
        generatePlan tz Number JSON_parse rejects newId db forDate (Some response)
        = (Fulfilled (mkGenerated (newId db) (len (eventsToPlace ctx))), db')
        /\ dailyPlans db' = dailyPlans db ++ [planRow ctx forDate response db]
        /\ tasks db' = tasks db ++ rows)
  /\ len (eventsToPlace ctx) = len (av_events (getAvailableForDate tz db forDate))
  /\ (forall row, In row rows ->
       exists poolItem scheduledTime categoryId,
         In poolItem (av_events (getAvailableForDate tz db forDate))
         /\ PoolItem.scheduledAt poolItem = Some scheduledTime
         /\ row = Task.mk (newId db) categoryId (Some (PoolItem.id poolItem))
                    (PoolItem.title poolItem) (PoolItem.notes poolItem)
                    (Some (DateAt scheduledTime)) None 1 TaskStatus.pending)
  /\ ((forall ev, In ev (eventsToPlace ctx) -> eventCategory ctx (fst ev) <> None) ->
      len rows = len (eventsToPlace ctx)).
Proof.
  intros ctx rows Hparsed Htasks.
  assert (Hv : validReply response = true).
  { unfold validReply. rewrite Hparsed. simpl. now rewrite Htasks. }
  assert (Hentries : entriesOf response = []).
  { unfold entriesOf. rewrite Hparsed. simpl. now rewrite Htasks. }
  assert (Hrows : allRows ctx forDate response db = rows).
  { unfold allRows. rewrite Hentries. reflexivity. }
  assert (Hmarks : allMarks ctx response = eventMarks ctx (eventsToPlace ctx)).
  { unfold allMarks. rewrite Hentries. reflexivity. }
  split; [exact Hv | split; [| split; [| split; [| split]]]].
  - intros response' o' Hp'. unfold validReply. rewrite Hp'. simpl.
    destruct (out_tasks o'); simpl; split; auto; try discriminate.
    intros [H | H]; discriminate.
  - intros Hp Hacc Hu. rewrite <- Hrows in Hacc. rewrite <- Hmarks in Hu.
    pose proof (generatePlan_accepted db forDate response Hv Hp Hacc Hu) as H.
    fold ctx in H. rewrite H. eexists. split.
    + unfold generated, countOf. rewrite Hentries. reflexivity.
    + rewrite Hrows. destruct (0 <? len (allMarks ctx response)); simpl; auto.
  - unfold len. f_equal. subst ctx.
    rewrite <- (eventsToPlace_all tz db forDate). now rewrite length_map.
  - intros row Hrow. apply eventRows_shape in Hrow.
    destruct Hrow as (p & t & c & Hin & _ & ->). apply eventsToPlace_In in Hin.
    exists p, t, c. tauto.
  - intros H. unfold len. f_equal. now apply eventRows_length.
Qed.

(** *** Entries with an unknown category *)

(** The names of the enabled categories, and the test that an entry names
    none of them. *)
Definition knownNames (db : DB) : list string :=
  List.map Category.name (List.filter Category.enabled (categories db)).

Definition unknownCategory (db : DB) (t : LLMTask.t) : bool :=
  negb (existsb (String.eqb (LLMTask.category t)) (knownNames db)).

Definition idsNonEmpty (db : DB) : Prop :=
  Forall (fun c => Category.id c <> EmptyString) (categories db).

Lemma truthyStr_Some (str : string) : str <> EmptyString -> truthyStr (Some str) = Some str.
Proof.
  intros H. unfold truthyStr, nonEmpty.
  destruct (String.eqb_spec str ""); [contradiction | reflexivity].
Qed.

Lemma knownNames_In (db : DB) (forDate : Z) (name : string) :
  In name (List.map cr_name (ctx_categories (gatherContext tz db forDate)))
  <-> In name (knownNames db).
Proof using tz.
  clear Number JSON_parse rejects newId.
  unfold knownNames. rewrite !in_map_iff. split.
  - intros (r & <- & Hr). apply ctx_categories_In in Hr.
    destruct Hr as (c & Hin & Hen & ->). exists c. split; [reflexivity |].
    apply filter_In. auto.
  - intros (c & <- & Hc). apply filter_In in Hc.
    exists (mkCategoryRef (Category.id c) (Category.name c)). split; [reflexivity |].
    apply ctx_categories_In. exists c. tauto.
Qed.

Lemma known_iff (db : DB) (forDate : Z) (t : LLMTask.t) :
  known (gatherContext tz db forDate) t = negb (unknownCategory db t).
Proof using tz.
  clear Number JSON_parse rejects newId.
  unfold known, unknownCategory. rewrite negb_involutive.
  apply eq_true_iff_eq. rewrite bool_decide_eq_true, categoryByName_known, knownNames_In.
  rewrite existsb_exists. split.
  - intros H. exists (LLMTask.category t). split; [assumption | apply String.eqb_refl].
  - intros (n & Hn & Heq). apply String.eqb_eq in Heq. now subst n.
Qed.

Lemma survives_known (db : DB) (forDate : Z) (t : LLMTask.t) :
  idsNonEmpty db ->
  survives (gatherContext tz db forDate) t = known (gatherContext tz db forDate) t.
Proof using tz.
  clear Number JSON_parse rejects newId.
  intros Hids. unfold survives, known, entryCategory.
  destruct (categoryByName _ !! LLMTask.category t) as [id |] eqn:Hl.
  - apply categoryByName_id in Hl. destruct Hl as (r & Hr & _ & <-).
    apply ctx_categories_In in Hr. destruct Hr as (c & Hin & _ & ->).
    unfold idsNonEmpty in Hids. rewrite List.Forall_forall in Hids.
    change (cr_id (mkCategoryRef (Category.id c) (Category.name c))) with (Category.id c).
    rewrite (truthyStr_Some _ (Hids c Hin)). symmetry. apply bool_decide_eq_true. eauto.
  - reflexivity.
Qed.

Lemma filter_survives (db : DB) (forDate : Z) (ts : list LLMTask.t) :
  idsNonEmpty db ->
  List.filter (survives (gatherContext tz db forDate)) ts
  = List.filter (fun t => negb (unknownCategory db t)) ts.
Proof using tz.
  clear Number JSON_parse rejects newId.
  intros Hids. apply filter_ext. intros t.
  rewrite (survives_known db forDate t Hids). apply known_iff.
Qed.

Lemma filter_known (db : DB) (forDate : Z) (ts : list LLMTask.t) :
  List.filter (known (gatherContext tz db forDate)) ts
  = List.filter (fun t => negb (unknownCategory db t)) ts.
Proof using tz.
  clear Number JSON_parse rejects newId. apply filter_ext. intros t. apply known_iff. Qed.

Lemma entryRows_survivors (ctx : PlanningContext) (planId : string) (dateStr : Z)
    (ts : list LLMTask.t) :
  entryRows ctx planId dateStr (List.filter (survives ctx) ts) = entryRows ctx planId dateStr ts
  /\ length (entryRows ctx planId dateStr ts) = length (List.filter (survives ctx) ts).
Proof.
  induction ts as [| t rest [IH1 IH2]]; [split; reflexivity |].
  simpl List.filter. rewrite (entryRows_cons ctx planId dateStr t rest).
  assert (Hs : survives ctx t = match entryCategory ctx t with
                                | Some _ => true
                                | None => false
                                end) by reflexivity.
  destruct (entryCategory ctx t) as [c |] eqn:Hc; rewrite Hs.
  - rewrite entryRows_cons, Hc, IH1. simpl. auto.
  - auto.
Qed.

Lemma entryMarks_survivors (ctx : PlanningContext) (ts : list LLMTask.t) :
  entryMarks ctx (List.filter (survives ctx) ts) = entryMarks ctx ts.
Proof.
  unfold entryMarks. f_equal. induction ts as [| t rest IH]; [reflexivity |].
  simpl. destruct (survives ctx t) eqn:Ht; simpl; rewrite ?Ht, IH; reflexivity.
Qed.

Lemma filter_split_length {A : Type} (f : A -> bool) (l : list A) :
  len l - len (List.filter (fun x => negb (f x)) l) = len (List.filter f l).
Proof.
  unfold len. induction l as [| x l IH]; [reflexivity |].
  simpl. destruct (f x); simpl length; lia.
Qed.

(** C7. An entry that names no enabled category is dropped without a
    word: the entries created are those of the other entries, one each, the
    run is the run of the answer without the dropped entries (so it fails or
    succeeds as that one does), and the count reported is the number of
    entries less the number dropped, plus the events. *)
Theorem unknown_category_dropped (db : DB) (forDate : Z) (response : string) :
  let ctx := gatherContext tz db forDate in
  let ts := entriesOf response in
  let dropped := List.filter (unknownCategory db) ts in
  let kept := List.filter (fun t => negb (unknownCategory db t)) ts in
  idsNonEmpty db ->
  (forall planId dateStr,
      entryRows ctx planId dateStr ts = entryRows ctx planId dateStr kept
      /\ length (entryRows ctx planId dateStr ts) = length kept)
  /\ (forall planId dateStr acc d,
        createTasks tz Number rejects ctx planId dateStr ts acc d
        = createTasks tz Number rejects ctx planId dateStr kept acc d)
  /\ (forall response',
        validReply response = true -> validReply response' = true ->
        summaryOf response' = summaryOf response ->
        entriesOf response' = kept ->
        generatePlan tz Number JSON_parse rejects newId db forDate (Some response)
        = generatePlan tz Number JSON_parse rejects newId db forDate (Some response'))
  /\ (forall g db',
        generatePlan tz Number JSON_parse rejects newId db forDate (Some response)
        = (Fulfilled g, db') ->
        taskCount g = len ts - len dropped + len (eventsToPlace ctx)
        /\ tasks db' = tasks db
                       ++ entryRows ctx (newId db) (toISODate forDate) kept
                       ++ eventRows ctx (newId db) (eventsToPlace ctx)).
Proof.
  intros ctx ts dropped kept Hids.
  assert (Hkept : List.filter (survives ctx) ts = kept)
    by (apply filter_survives; assumption).
  assert (Hrows : forall planId dateStr,
             entryRows ctx planId dateStr ts = entryRows ctx planId dateStr kept).
  { intros planId dateStr. rewrite <- Hkept.
    symmetry. apply entryRows_survivors. }
  assert (Hmarks : entryMarks ctx ts = entryMarks ctx kept).
  { rewrite <- Hkept. symmetry. apply entryMarks_survivors. }
  split; [| split; [| split]].
  - intros planId dateStr. split; [apply Hrows |].
    rewrite <- Hkept. apply entryRows_survivors.
  - intros planId dateStr acc d. rewrite !createTasks_writes, Hrows, Hmarks. reflexivity.
  - intros response' Hv Hv' Hsum Hent.
    unfold generatePlan, transaction. fold ctx.
    rewrite (body_valid ctx forDate response db Hv), (body_valid ctx forDate response' db Hv').
    assert (Hw : planWrite ctx forDate response' = planWrite ctx forDate response)
      by (unfold planWrite; now rewrite Hsum).
    assert (Hp : planRow ctx forDate response' db = planRow ctx forDate response db)
      by (unfold planRow; now rewrite Hsum).
    assert (Hr : allRows ctx forDate response' db = allRows ctx forDate response db).
    { unfold allRows. rewrite Hent. fold ts. now rewrite Hrows. }
    assert (Hm : allMarks ctx response' = allMarks ctx response).
    { unfold allMarks. rewrite Hent. fold ts. now rewrite Hmarks. }
    assert (Hg : generated ctx response' db = generated ctx response db).
    { unfold generated, countOf. rewrite Hent. fold ts. subst ctx.
      rewrite !filter_known. fold kept.
      f_equal. f_equal. f_equal. unfold kept at 1.
      apply forallb_filter_id. apply forallb_forall. intros t Ht.
      apply filter_In in Ht. tauto. }
    now rewrite Hw, Hp, Hr, Hm, Hg.
  - intros g db' H. apply generatePlan_fulfilled in H. fold ctx in H.
    destruct H as (_ & _ & _ & -> & ->). split.
    + unfold generated, countOf. simpl taskCount. fold ts. subst ctx.
      rewrite filter_known. fold kept. f_equal. unfold dropped, kept.
      rewrite <- (filter_split_length (fun t => negb (unknownCategory db t)) ts).
      f_equal. f_equal. apply filter_ext. intros t. now rewrite negb_involutive.
    + assert (Ht : forall d ids, tasks (usePool d ids forDate) = tasks d) by reflexivity.
      destruct (0 <? len (allMarks ctx response)); rewrite ?Ht; simpl;
        unfold allRows; fold ts; rewrite Hrows; reflexivity.
Qed.

(** *** The update of the pool usage *)

Lemma entryMarks_In (ctx : PlanningContext) (ts : list LLMTask.t) (id : string) :
  In id (entryMarks ctx ts) <->
  exists t item, In t ts /\ survives ctx t = true
                 /\ matchPoolItem ctx t = Some item /\ id = PoolItem.id item.
Proof.
  unfold entryMarks. rewrite in_flat_map. split.
  - intros (t & Ht & Hid). apply filter_In in Ht. destruct Ht as [Hin Hs].
    destruct (matchPoolItem ctx t) as [item |] eqn:Hm; [| destruct Hid].
    destruct Hid as [<- | []]. exists t, item. auto.
  - intros (t & item & Hin & Hs & Hm & ->). exists t. split.
    + apply filter_In. auto.
    + rewrite Hm. now left.
Qed.

Lemma eventMarks_In (ctx : PlanningContext) (evs : list (PoolItem.t * Z)) (id : string) :
  In id (eventMarks ctx evs) <->
  exists poolItem scheduledTime,
    In (poolItem, scheduledTime) evs /\ eventCategory ctx poolItem <> None
    /\ id = PoolItem.id poolItem.
Proof.
  induction evs as [| [p at_] rest IH].
  - simpl. split; [intros [] | intros (? & ? & [] & _)].
  - rewrite eventMarks_cons. destruct (eventCategory ctx p) as [c |] eqn:Hc.
    + simpl. rewrite IH. split.
      * intros [<- | (q & t & Hin & Hq & ->)].
        -- exists p, at_. split; [now left | split; [congruence | reflexivity]].
        -- exists q, t. auto.
      * intros (q & t & [[= <- <-] | Hin] & Hq & ->); [now left |].
        right. exists q, t. auto.
    + rewrite IH. split.
      * intros (q & t & Hin & Hq & ->). exists q, t. simpl. auto.
      * intros (q & t & [[= <- <-] | Hin] & Hq & ->); [congruence |].
        exists q, t. auto.
Qed.

(** C9. After a commit the pool is the pool of before in which every item
    consumed by the run (matched to a surviving entry, or an event that was
    placed) has [lastUsedAt] set to the date and [useCount] one higher, once
    however often it was consumed, and every other field of every item is
    what it was. *)
Theorem pool_usage_update (db : DB) (forDate : Z) (response : string)
    (g : Generated) (db' : DB) :
  let ctx := gatherContext tz db forDate in
  let consumed := allMarks ctx response in
  generatePlan tz Number JSON_parse rejects newId db forDate (Some response)
    = (Fulfilled g, db') ->
  poolItems db' = List.map (fun item => if idIn consumed item
                                        then markUsed forDate item else item)
                    (poolItems db)
  /\ (forall n item, nth_error (poolItems db) n = Some item ->
       exists item',
         nth_error (poolItems db') n = Some item'
         /\ PoolItem.lastUsedAt item'
            = (if idIn consumed item then Some forDate else PoolItem.lastUsedAt item)
         /\ PoolItem.useCount item'
            = (if idIn consumed item then PoolItem.useCount item + 1
               else PoolItem.useCount item)
         /\ PoolItem.id item' = PoolItem.id item
         /\ PoolItem.type item' = PoolItem.type item
         /\ PoolItem.title item' = PoolItem.title item
         /\ PoolItem.notes item' = PoolItem.notes item
         /\ PoolItem.categoryId item' = PoolItem.categoryId item
         /\ PoolItem.scheduledAt item' = PoolItem.scheduledAt item
         /\ PoolItem.scheduledEnd item' = PoolItem.scheduledEnd item
         /\ PoolItem.status item' = PoolItem.status item
         /\ PoolItem.cooldownDays item' = PoolItem.cooldownDays item)
  /\ (forall item, idIn consumed item = true <->
       (exists t matched, In t (entriesOf response) /\ survives ctx t = true
                          /\ matchPoolItem ctx t = Some matched
                          /\ PoolItem.id item = PoolItem.id matched)
       \/ (exists poolItem scheduledTime,
              In (poolItem, scheduledTime) (eventsToPlace ctx)
              /\ eventCategory ctx poolItem <> None
              /\ PoolItem.id item = PoolItem.id poolItem)).
Proof.
  intros ctx consumed H. apply generatePlan_fulfilled in H. fold ctx in H.
  destruct H as (_ & _ & _ & _ & ->).
  assert (Hpool : poolItems
                    (if 0 <? len (allMarks ctx response)
                     then usePool (addTasks (addPlan db (planRow ctx forDate response db))
                                     (allRows ctx forDate response db))
                            (allMarks ctx response) forDate
                     else addTasks (addPlan db (planRow ctx forDate response db))
                            (allRows ctx forDate response db))
                  = List.map (fun item => if idIn consumed item
                                          then markUsed forDate item else item)
                      (poolItems db)).
  { subst consumed. destruct (allMarks ctx response) as [| x l]; simpl.
    - now rewrite map_id.
    - reflexivity. }
  split; [exact Hpool | split].
  - intros n item Hn. rewrite Hpool, nth_error_map, Hn. simpl.
    eexists. split; [reflexivity |].
    destruct (idIn consumed item); simpl; repeat split; reflexivity.
  - intros item. unfold idIn. rewrite existsb_exists. subst consumed. unfold allMarks. split.
    + intros (id & Hin & Heq). apply String.eqb_eq in Heq. subst id.
      apply in_app_or in Hin. destruct Hin as [Hin | Hin].
      * left. apply entryMarks_In in Hin. destruct Hin as (t & m & ? & ? & ? & ?).
        exists t, m. auto.
      * right. apply eventMarks_In in Hin. exact Hin.
    + intros [(t & m & Hin & Hs & Hm & Hid) | (p & t & Hin & Hc & Hid)].
      * exists (PoolItem.id item). split; [| apply String.eqb_refl].
        apply in_or_app. left. apply entryMarks_In. exists t, m. auto.
      * exists (PoolItem.id item). split; [| apply String.eqb_refl].
        apply in_or_app. right. apply eventMarks_In. exists p, t. auto.
Qed.

(** *** Matching an entry to the pool *)

Definition sameTitle (t : LLMTask.t) (item : PoolItem.t) : bool :=
  String.eqb (titleKey (PoolItem.title item)) (titleKey (LLMTask.title t)).

Lemma isTrue_false (o : option bool) : o <> Some true -> isTrue o = false.
Proof. destruct o as [[|] |]; simpl; congruence. Qed.

(** C6, as the code has it. An originated entry is matched to nothing and
    its row carries no pool reference. Any other entry is matched against
    the tasks and aspirations of the context, never the events: by title
    (lower case, trimmed) first, to the last candidate with that title, which
    is the only one when titles differ; and by the identifier the model
    supplied only when no title matched. The row refers to the item
    matched. *)
Theorem pool_matching (ctx : PlanningContext) (planId : string) (dateStr : Z)
    (categoryId : string) (t : LLMTask.t) :
  let row := taskOfEntry tz Number ctx planId dateStr categoryId t in
  Task.poolItemId row = truthyStr (option_map PoolItem.id (matchPoolItem ctx t))
  /\ (forall item, matchPoolItem ctx t = Some item ->
       In item (av_tasks (ctx_poolItems ctx) ++ av_aspirations (ctx_poolItems ctx)))
  /\ (LLMTask.is_i_wonder t = Some true ->
      matchPoolItem ctx t = None /\ Task.poolItemId row = None)
  /\ (LLMTask.is_i_wonder t <> Some true ->
      forall c, In c (candidates ctx) -> sameTitle t c = true ->
      exists item,
        matchPoolItem ctx t = Some item
        /\ In item (candidates ctx)
        /\ sameTitle t item = true
        /\ List.find (sameTitle t) (rev (candidates ctx)) = Some item
        /\ ((forall c', In c' (candidates ctx) -> sameTitle t c' = true -> c' = c) ->
            item = c))
  /\ (LLMTask.is_i_wonder t <> Some true ->
      (forall c, In c (candidates ctx) -> sameTitle t c = false) ->
      matchPoolItem ctx t =
      match truthyStr (LLMTask.pool_item_id t) with
      | Some pid => List.find (fun item => String.eqb (PoolItem.id item) pid) (candidates ctx)
      | None => None
      end).
Proof using tz Number.
  clear JSON_parse rejects newId.
  intros row. split; [reflexivity | split; [| split; [| split]]].
  - intros item. unfold matchPoolItem.
    destruct (isTrue (LLMTask.is_i_wonder t)); [discriminate |].
    rewrite poolItemsByTitle_lookup. fold (sameTitle t).
    destruct (List.find (sameTitle t) (rev (candidates ctx))) as [p |] eqn:Hf.
    + intros [= <-]. apply find_some in Hf. apply in_rev. tauto.
    + destruct (truthyStr (LLMTask.pool_item_id t)) as [pid |]; [| discriminate].
      intros Hfind. apply find_some in Hfind. tauto.
  - intros Hw. assert (Hm : matchPoolItem ctx t = None)
      by (unfold matchPoolItem; now rewrite Hw).
    split; [exact Hm |]. subst row. unfold taskOfEntry. simpl. now rewrite Hm.
  - intros Hw c Hc Hsame. unfold matchPoolItem. rewrite (isTrue_false _ Hw).
    rewrite poolItemsByTitle_lookup. fold (sameTitle t).
    destruct (List.find (sameTitle t) (rev (candidates ctx))) as [p |] eqn:Hf.
    + pose proof (find_some _ _ Hf) as [Hin Hp]. apply in_rev in Hin.
      exists p. repeat split; auto.
    + exfalso. rewrite find_none_iff in Hf. specialize (Hf c).
      rewrite <- in_rev in Hf. rewrite (Hf Hc) in Hsame. discriminate.
  - intros Hw Hnone. unfold matchPoolItem. rewrite (isTrue_false _ Hw).
    rewrite poolItemsByTitle_lookup. fold (sameTitle t).
    replace (List.find (sameTitle t) (rev (candidates ctx))) with (@None PoolItem.t);
      [reflexivity |].
    symmetry. apply find_none_iff. intros x Hx. apply Hnone. now apply in_rev.
Qed.

(** *** The scheduled time of an entry *)

Fixpoint noColon (s : string) : bool :=
  match s with
  | EmptyString => true
  | String c r => negb (Ascii.eqb c ":") && noColon r
  end.

Lemma split_noColon (s : string) : noColon s = true -> split ":" s = [s].
Proof.
  induction s as [| c r IH]; [reflexivity |]. simpl.
  destruct (Ascii.eqb c ":"); [discriminate |]. simpl. intros H. now rewrite (IH H).
Qed.

Lemma split_token (hh mm : string) :
  noColon hh = true -> noColon mm = true ->
  split ":" (String.append hh (String ":" mm)) = [hh; mm].
Proof.
  intros Hh Hm. induction hh as [| c r IH].
  - simpl. now rewrite (split_noColon mm Hm).
  - simpl in Hh. change (String.append (String c r) (String ":" mm))
      with (String c (String.append r (String ":" mm))).
    simpl. destruct (Ascii.eqb c ":"); [discriminate |]. simpl in Hh.
    now rewrite (IH Hh).
Qed.

Lemma token_has_colon (hh mm : string) :
  noColon (String.append hh (String ":" mm)) = false.
Proof.
  induction hh as [| c r IH]; [reflexivity |].
  change (String.append (String c r) (String ":" mm))
    with (String c (String.append r (String ":" mm))).
  simpl. rewrite IH. apply andb_false_r.
Qed.

Lemma token_not_word (hh mm w : string) :
  noColon w = true -> String.eqb (String.append hh (String ":" mm)) w = false.
Proof.
  intros Hw.
  destruct (String.eqb_spec (String.append hh (String ":" mm)) w) as [E |]; [| reflexivity].
  rewrite <- E, token_has_colon in Hw. discriminate.
Qed.

(** [setHours] with a time inside the day lands on the same local day, at
    that local time. *)
Lemma setHours_local (d h m sec ms : Z) :
  0 <= MakeTime h m sec ms < msPerDay ->
  localDay tz (setHours tz d h m sec ms) = localDay tz d
  /\ localTimeOfDay tz (setHours tz d h m sec ms) = MakeTime h m sec ms.
Proof.
  intros H. unfold localDay, localTimeOfDay, setHours, UTC, LocalTime.
  replace (Day (d + tz) * msPerDay + MakeTime h m sec ms - tz + tz)
    with (Day (d + tz) * msPerDay + MakeTime h m sec ms) by lia.
  split.
  - apply Day_unique. lia.
  - symmetry. apply (Z.mod_unique _ _ (Day (d + tz))); lia.
Qed.

Lemma clock_in_day (h m : Z) :
  0 <= h < 24 -> 0 <= m < 60 -> 0 <= MakeTime h m 0 0 < msPerDay.
Proof. unfold MakeTime, msPerHour, msPerMinute, msPerSecond, msPerDay. lia. Qed.

(** The instant [t] is [h]:[m] local time on the local day [day]. *)
Definition atClock (day h m : Z) (t : JsDate) : Prop :=
  exists ms, t = DateAt ms
             /\ localDay tz ms = day
             /\ localTimeOfDay tz ms = h * msPerHour + m * msPerMinute.

(** C2, as the code has it. The scheduled time of an entry comes from its
    time token: [morning] is 09:00, [afternoon] 14:00, [evening] 18:00 and a
    token HH:MM is that hour and minute, all in the host's local time, on the
    local day that holds midnight UTC of the date, which is the date itself
    on a host at or east of Greenwich. An entry with no token (absent, null
    or empty) gets no scheduled time. *)
Theorem time_of_day_mapping (ctx : PlanningContext) (planId : string) (dateStr : Z)
    (categoryId : string) (t : LLMTask.t) :
  let row := taskOfEntry tz Number ctx planId dateStr categoryId t in
  let day := localDay tz (newDate dateStr) in
  atClock day 9 0 (timeToDate tz Number dateStr "morning")
  /\ atClock day 14 0 (timeToDate tz Number dateStr "afternoon")
  /\ atClock day 18 0 (timeToDate tz Number dateStr "evening")
  /\ (forall hh mm h m,
        noColon hh = true -> noColon mm = true ->
        Number hh = Some h -> Number mm = Some m ->
        0 <= h < 24 -> 0 <= m < 60 ->
        atClock day h m (timeToDate tz Number dateStr (String.append hh (String ":" mm))))
  /\ (0 <= tz < msPerDay -> day = dateStr)
  /\ (truthyStr (LLMTask.time t) = None -> Task.scheduledTime row = None)
  /\ (forall token, truthyStr (LLMTask.time t) = Some token ->
                    Task.scheduledTime row = Some (timeToDate tz Number dateStr token)).
Proof.
  intros row day.
  assert (Hclock : forall h m, 0 <= h < 24 -> 0 <= m < 60 ->
                     atClock day h m (DateAt (setHours tz (newDate dateStr) h m 0 0))).
  { intros h m Hh Hm. eexists. split; [reflexivity |].
    destruct (setHours_local (newDate dateStr) h m 0 0 (clock_in_day h m Hh Hm)) as [Hd Ht].
    split; [exact Hd |]. rewrite Ht. unfold MakeTime. lia. }
  split; [| split; [| split; [| split; [| split; [| split]]]]].
  - apply (Hclock 9 0); lia.
  - apply (Hclock 14 0); lia.
  - apply (Hclock 18 0); lia.
  - intros hh mm h m Hhh Hmm Hnh Hnm Hh Hm. unfold timeToDate.
    assert (Hne : nonEmpty (String.append hh (String ":" mm)) = true).
    { unfold nonEmpty. now rewrite (token_not_word hh mm "" eq_refl). }
    rewrite Hne, (token_not_word hh mm "morning" eq_refl),
      (token_not_word hh mm "afternoon" eq_refl), (token_not_word hh mm "evening" eq_refl).
    simpl negb. cbv iota. simpl orb. cbv iota.
    rewrite (split_token hh mm Hhh Hmm). simpl. rewrite Hnh, Hnm. simpl.
    apply Hclock; assumption.
  - intros Htz. apply (proj1 (localDay_of_label tz dateStr) Htz).
  - intros H. subst row. unfold taskOfEntry. simpl. now rewrite H.
  - intros token H. subst row. unfold taskOfEntry. simpl. now rewrite H.
Qed.

End Commit.

(** * Worked instances

    A host on UTC, a storage layer that accepts every write (or refuses the
    update of the pool usage), a pool with one task and one event on
    15 January 2024, and a few answers of the model. *)

(** [Number] on the pieces of the tokens used below: white space around is
    ignored and a run of decimal digits is its value; anything else is
    treated as NaN, which is what [Number] gives for a word. Signs,
    fractions, exponents and other radixes do not occur below. *)
Fixpoint digitsValue (s : string) (acc : Z) : option Z :=
  match s with
  | EmptyString => Some acc
  | String c r =>
      let n := code c in
      if ((48 <=? n) && (n <=? 57))%N then digitsValue r (10 * acc + Z.of_N (n - 48))
      else None
  end.

Definition decimalNumber (s : string) : option Z := digitsValue (trim s) 0.

Definition accepting : Write -> bool := fun _ => false.

Definition refusingPoolUsage : Write -> bool :=
  fun w => match w with UpdatePoolUsage _ _ => true | _ => false end.

Definition firstId : DB -> string := fun _ => "plan-1".

(** [JSON.parse] on the texts of the instances, as a table. *)
Definition parseTable (table : list (string * JsonValue)) (text : string)
    : option JsonValue :=
  option_map snd (List.find (fun kv => String.eqb (fst kv) text) table).

Definition walk : PoolItem.t :=
  PoolItem.mk "t1" task "Walk" None (Some "c1") None None PoolItemStatus.active None 0 None.

Definition dentist : PoolItem.t :=
  PoolItem.mk "e1" event "Dentist" None None (Some (jan15 + 10 * msPerHour)) None
    PoolItemStatus.active None 0 None.

Definition exercise : Category.t := Category.mk "c1" "Exercise" 1 true.

Definition homeDB : DB := mkDB [] [] [walk; dentist] [exercise] [].

Definition walkEntry : LLMTask.t :=
  LLMTask.mk "Exercise" "  WALK " None (Some "07:30") (Some 30) None None None.

Definition strayEntry : LLMTask.t :=
  LLMTask.mk "Gardening" "Weed the beds" None (Some "evening") None None None None.

Definition untimedEntry : LLMTask.t :=
  LLMTask.mk "Exercise" "Stretch" None None None None None None.

Definition dentistEntry : LLMTask.t :=
  LLMTask.mk "Exercise" "Dentist" None (Some "morning") None None (Some "e1") (Some false).

Definition answer (ts : list LLMTask.t) : JsonValue :=
  JObject (mkOutput (Some "A light day.") None (tasks_array ts)).

Definition replies : list (string * JsonValue) :=
  [("two entries", answer [walkEntry; strayEntry]);
   ("one entry", answer [walkEntry]);
   ("no entry", answer []);
   ("no list", JObject (mkOutput None None tasks_undefined))].

Definition homeCtx : PlanningContext := gatherContext 0 homeDB jan15.

Definition walkRow : Task.t :=
  Task.mk "plan-1" "c1" (Some "t1") "  WALK " None
    (Some (DateAt (jan15 + 7 * msPerHour + 30 * msPerMinute))) (Some 30) 3 TaskStatus.pending.

Definition dentistRow : Task.t :=
  Task.mk "plan-1" "c1" (Some "e1") "Dentist" None
    (Some (DateAt (jan15 + 10 * msPerHour))) None 1 TaskStatus.pending.

Definition homePlan : DailyPlan.t := DailyPlan.mk "plan-1" jan15 medium (Some "A light day.").

(** The string helpers on small inputs. *)
Example strings_behave :
  trim "  a b  " = "a b"
  /\ toLowerCase "Walk The DOG" = "walk the dog"
  /\ titleKey "  WALK " = "walk"
  /\ split ":" "07:30" = ["07"; "30"]
  /\ split ":" "noon" = ["noon"]
  /\ split ":" "" = [""]
  /\ slice0 3 "abcdef" = "abc"
  /\ slice0 9 "abcdef" = "abcdef"
  /\ join " " ["A light day."; "Rested."] = "A light day. Rested.".
Proof. vm_compute. repeat split; reflexivity. Qed.

(** The block between the first fence and the next one; the whole answer
    when there is no pair of fences. *)
Example fenced_answers :
  fencedBlock "Here you go: ```json {} ``` Enjoy ```later```" = Some "{} "
  /\ fencedBlock "```{}```" = Some "{}"
  /\ fencedBlock "``` json {} ```" = Some "json {} "
  /\ fencedBlock "no fence at all" = None
  /\ fencedBlock "only one ``` fence" = None
  /\ fencedBlock "````" = None.
Proof. vm_compute. repeat split; reflexivity. Qed.

(** A whole run: the entry with the unknown category leaves no row, the
    task is matched by title whatever its case and the blanks around it, the
    event is placed, both pool items are marked, and the count is 2. *)
Example run_two_entries :
  generatePlan 0 decimalNumber (parseTable replies) accepting firstId homeDB jan15
    (Some "Here is the plan: ```json two entries ``` Enjoy.")
  = (Fulfilled (mkGenerated "plan-1" 2),
     mkDB [homePlan] [walkRow; dentistRow]
       [markUsed jan15 walk; markUsed jan15 dentist] [exercise] []).
Proof. vm_compute. reflexivity. Qed.

Lemma commit_is_atomic_witness :
  generatePlanBody 0 decimalNumber (parseTable replies) refusingPoolUsage firstId homeCtx jan15
    (Some "two entries") homeDB
  = Threw (WriteFailed (UpdatePoolUsage ["t1"; "e1"] jan15))
      (mkDB [homePlan] [walkRow; dentistRow] [walk; dentist] [exercise] [])
  /\ generatePlan 0 decimalNumber (parseTable replies) refusingPoolUsage firstId homeDB jan15
       (Some "two entries")
     = (Rejected (WriteFailed (UpdatePoolUsage ["t1"; "e1"] jan15)), homeDB).
Proof.
  apply (proj1 (proj2 (commit_is_atomic 0 decimalNumber (parseTable replies)
                         refusingPoolUsage firstId homeDB jan15 (Some "two entries")))
           "two entries").
  - reflexivity.
  - vm_compute. reflexivity.
  - reflexivity.
  - vm_compute. repeat constructor.
  - vm_compute. discriminate.
  - reflexivity.
Defined.

Lemma validation_failure_witness :
  generatePlan 0 decimalNumber (parseTable replies) accepting firstId homeDB jan15
    (Some "Sorry, I cannot plan today.")
  = (Rejected (InvalidPlan
       "LLM did not return a valid plan with tasks. Raw response: Sorry, I cannot plan today."),
     homeDB).
Proof.
  apply (proj1 (proj2 (validation_failure 0 decimalNumber (parseTable replies) accepting
                         firstId homeDB jan15 "Sorry, I cannot plan today."))).
  left. intros o. vm_compute. discriminate.
Defined.

(** An object without [tasks] fails in the same way. *)
Example no_list_rejected :
  fst (generatePlan 0 decimalNumber (parseTable replies) accepting firstId homeDB jan15
         (Some "no list"))
  = Rejected (InvalidPlan "LLM did not return a valid plan with tasks. Raw response: no list").
Proof. vm_compute. reflexivity. Qed.

Lemma empty_entry_list_commits_witness :
  validReply (parseTable replies) "no entry" = true
  /\ exists db',
       generatePlan 0 decimalNumber (parseTable replies) accepting firstId homeDB jan15
         (Some "no entry")
       = (Fulfilled (mkGenerated "plan-1" 1), db')
       /\ dailyPlans db' = [homePlan]
       /\ tasks db' = [dentistRow].
Proof.
  destruct (empty_entry_list_commits 0 decimalNumber (parseTable replies) accepting firstId
              homeDB jan15 "no entry" (mkOutput (Some "A light day.") None (tasks_array []))
              eq_refl eq_refl) as (Hvalid & _ & Hrun & _).
  split; [exact Hvalid |].
  apply Hrun.
  - reflexivity.
  - vm_compute. repeat constructor.
  - reflexivity.
Defined.

Lemma unknown_category_dropped_witness :
  generatePlan 0 decimalNumber (parseTable replies) accepting firstId homeDB jan15
    (Some "two entries")
  = generatePlan 0 decimalNumber (parseTable replies) accepting firstId homeDB jan15
      (Some "one entry").
Proof.
  apply (proj1 (proj2 (proj2 (unknown_category_dropped 0 decimalNumber (parseTable replies)
                                accepting firstId homeDB jan15 "two entries"
                                ltac:(repeat constructor; discriminate))))).
  - reflexivity.
  - reflexivity.
  - reflexivity.
  - reflexivity.
Defined.

Lemma pool_usage_update_witness :
  poolItems (snd (generatePlan 0 decimalNumber (parseTable replies) accepting firstId homeDB
                    jan15 (Some "two entries")))
  = List.map (fun item => if idIn (allMarks (parseTable replies) homeCtx "two entries") item
                          then markUsed jan15 item else item)
      (poolItems homeDB).
Proof.
  apply (proj1 (pool_usage_update 0 decimalNumber (parseTable replies) accepting firstId
                  homeDB jan15 "two entries" (mkGenerated "plan-1" 2)
                  (mkDB [homePlan] [walkRow; dentistRow]
                     [markUsed jan15 walk; markUsed jan15 dentist] [exercise] [])
                  ltac:(vm_compute; reflexivity))).
Defined.

(** ** Matching *)

Lemma pool_matching_witness :
  exists item,
    matchPoolItem homeCtx walkEntry = Some item
    /\ In item (candidates homeCtx)
    /\ sameTitle walkEntry item = true
    /\ List.find (sameTitle walkEntry) (rev (candidates homeCtx)) = Some item
    /\ ((forall c', In c' (candidates homeCtx) -> sameTitle walkEntry c' = true -> c' = walk) ->
        item = walk).
Proof.
  apply (proj1 (proj2 (proj2 (proj2 (pool_matching 0 decimalNumber homeCtx "plan-1" 19737
                                       "c1" walkEntry))))).
  - discriminate.
  - vm_compute. left. reflexivity.
  - vm_compute. reflexivity.
Defined.

(** C6 as stated fails on an event. The event "Dentist" is a pool candidate
    of the date; the model returns an entry with exactly that title, not
    originated, and even names the event's identifier; the row created for
    the entry refers to no pool item. (The event is placed by the second
    loop, in a row of its own.) *)
Lemma event_title_is_not_linked :
  In dentist (av_events (ctx_poolItems homeCtx))
  /\ titleKey (LLMTask.title dentistEntry) = titleKey (PoolItem.title dentist)
  /\ LLMTask.is_i_wonder dentistEntry = Some false
  /\ LLMTask.pool_item_id dentistEntry = Some (PoolItem.id dentist)
  /\ matchPoolItem homeCtx dentistEntry = None
  /\ Task.poolItemId (taskOfEntry 0 decimalNumber homeCtx "plan-1" 19737 "c1" dentistEntry)
     = None.
Proof. vm_compute. repeat split; auto. Qed.

(** Two candidates with one title: the entry goes to the later one. *)
Example same_title_twice :
  let first := poolTask "t1" task None in
  let second :=
    PoolItem.mk "t2" task "stretch " None None None None PoolItemStatus.active None 0 None in
  let ctx := mkContext medium [mkCategoryRef "c1" "Exercise"] (mkAvailable [first; second] [] []) in
  matchPoolItem ctx (LLMTask.mk "Exercise" "Stretch" None None None None (Some "t1") None)
  = Some second.
Proof. vm_compute. reflexivity. Qed.

(** ** Scheduled times *)

Lemma time_of_day_mapping_witness :
  atClock 0 19737 7 30 (timeToDate 0 decimalNumber 19737 "07:30").
Proof.
  apply (proj1 (proj2 (proj2 (proj2 (time_of_day_mapping 0 decimalNumber homeCtx "plan-1"
                                       19737 "c1" walkEntry)))) "07" "30" 7 30);
    try reflexivity; lia.
Defined.

(** The scenario of the specification, on a host on UTC: [morning] is
    09:00 on the date. *)
Example morning_scenario :
  timeToDate 0 decimalNumber (toISODate jan15) "morning" = DateAt (jan15 + 9 * msPerHour).
Proof. reflexivity. Qed.

(** C2 as stated fails on an entry without a time token: the commit gives
    it no scheduled time, not 09:00. *)
Lemma absent_token_is_not_morning :
  LLMTask.time untimedEntry = None
  /\ Task.scheduledTime (taskOfEntry 0 decimalNumber homeCtx "plan-1" (toISODate jan15) "c1"
                           untimedEntry) = None
  /\ Task.scheduledTime (taskOfEntry 0 decimalNumber homeCtx "plan-1" (toISODate jan15) "c1"
                           untimedEntry)
     <> Some (DateAt (jan15 + 9 * msPerHour)).
Proof. vm_compute. repeat split; discriminate. Qed.

(** What the amended statement leaves open. A token that is neither a word
    of the table nor a number is not turned into 09:00: [Number] gives NaN,
    which [??] lets through, and the date is invalid. West of Greenwich the
    times fall on the day before the date. *)
Example unrecognized_token :
  timeToDate 0 decimalNumber (toISODate jan15) "noon" = Invalid_Date.
Proof. reflexivity. Qed.

Example morning_west_of_greenwich :
  timeToDate utcMinus5 decimalNumber (toISODate jan15) "morning"
  = DateAt (jan15 - msPerDay + 14 * msPerHour)
  /\ localDay utcMinus5 (jan15 - msPerDay + 14 * msPerHour) = toISODate jan15 - 1
  /\ localTimeOfDay utcMinus5 (jan15 - msPerDay + 14 * msPerHour) = 9 * msPerHour.
Proof. vm_compute. repeat split; reflexivity. Qed.

(** * The services around the engine

    The methods of [poolService.ts], [categoryService.ts],
    [dailyPlanService.ts] and [journalService.ts] that maintain and read the
    tables the engine plans from, the rest of [gatherContext], and the route
    [POST /api/plans/generate] that calls the engine.

    Outside a transaction every call to the storage layer stands alone. A
    write may be refused (a foreign key, a unique name, a lost connection):
    [refuses] says which, given the tables. A query is a function of the
    tables. A write [where] an identifier is given addresses the row that
    [findUnique] finds for it, the first that carries it; the identifier is
    the primary key, so there is no other. The storage gives a new row its
    identifier ([newId]) and the defaults of the data model: a new pool item
    has never been used ([use_count] 0, no [last_used_at]). *)

Inductive Request : Type :=
| PoolItemCreate (row : PoolItem.t)
| PoolItemUpdate (id : string) (row : PoolItem.t)
| PoolItemUpdateMany (ids : list string) (usedAt : Z)
| CategoryCreate (row : Category.t)
| TaskDeleteMany (dailyPlanId : string)
| DailyPlanDelete (id : string).

(** What a service call can throw: an [Error] of its own, with its message,
    or the error of the storage layer for a request. *)
Inductive Failure : Type :=
| Raised (message : string)
| StorageError (r : Request).

Inductive Result (A : Type) : Type :=
| Done (a : A) (db : DB)
| Failed (e : Failure) (db : DB).

Arguments Done {A} a db.
Arguments Failed {A} e db.

(** The row addressed by a unique key, replaced or removed. *)
Fixpoint updateFirst {A : Type} (p : A -> bool) (f : A -> A) (l : list A) : list A :=
  match l with
  | [] => []
  | x :: r => if p x then f x :: r else x :: updateFirst p f r
  end.

Fixpoint removeFirst {A : Type} (p : A -> bool) (l : list A) : list A :=
  match l with
  | [] => []
  | x :: r => if p x then r else x :: removeFirst p r
  end.

Definition setPoolItems (db : DB) (rows : list PoolItem.t) : DB :=
  mkDB (dailyPlans db) (tasks db) rows (categories db) (journalEntries db).

Definition setCategories (db : DB) (rows : list Category.t) : DB :=
  mkDB (dailyPlans db) (tasks db) (poolItems db) rows (journalEntries db).

Definition setTasks (db : DB) (rows : list Task.t) : DB :=
  mkDB (dailyPlans db) rows (poolItems db) (categories db) (journalEntries db).

Definition setDailyPlans (db : DB) (rows : list DailyPlan.t) : DB :=
  mkDB rows (tasks db) (poolItems db) (categories db) (journalEntries db).

(** A value as a condition: an optional field is truthy when it is there
    (a [Date] always is), a number when it is not zero. *)
Definition present {A : Type} (o : option A) : bool :=
  match o with Some _ => true | None => false end.

(** [n || null] on an optional number. *)
Definition truthyNum (o : option Z) : option Z :=
  match o with
  | Some 0 => None
  | _ => o
  end.

(** [{ ...data }] over a stored field: a field that is not given keeps its
    stored value. *)
Definition patch {A : Type} (given : option A) (stored : option A) : option A :=
  match given with
  | Some v => Some v
  | None => stored
  end.

(** ** poolService.ts *)

Module CreatePoolItemInput.
Record t : Type := mk {
  type : PoolItemType;
  title : string;
  notes : option string;
  categoryId : option string;
  scheduledAt : option Z;
  scheduledEnd : option Z;
  cooldownDays : option Z
}.
End CreatePoolItemInput.

Module UpdatePoolItemInput.
Record t : Type := mk {
  title : option string;
  notes : option string;
  categoryId : option string;
  scheduledAt : option Z;
  scheduledEnd : option Z;
  status : option PoolItemStatus.t;
  cooldownDays : option Z
}.
End UpdatePoolItemInput.

Definition onlyEvents : string := "Only events can have scheduled_at or scheduled_end".

Module PoolService.
Section Methods.

Variable refuses : Request -> DB -> bool.
Variable newId : DB -> string.

Definition isEvent (ty : PoolItemType) : bool := PoolItemType_eqb ty event.

Definition hasId (id : string) (item : PoolItem.t) : bool := String.eqb (PoolItem.id item) id.

Definition findById (id : string) (db : DB) : option PoolItem.t :=
  List.find (hasId id) (poolItems db).

(** The row that [create] hands to the storage. *)
Definition newRow (id : string) (data : CreatePoolItemInput.t) : PoolItem.t :=
  let ty := CreatePoolItemInput.type data in
  PoolItem.mk id ty (CreatePoolItemInput.title data) (CreatePoolItemInput.notes data)
    (truthyStr (CreatePoolItemInput.categoryId data))
    (if isEvent ty then CreatePoolItemInput.scheduledAt data else None)
    (if isEvent ty then CreatePoolItemInput.scheduledEnd data else None)
    PoolItemStatus.active None 0 (truthyNum (CreatePoolItemInput.cooldownDays data)).

Definition create (data : CreatePoolItemInput.t) (db : DB) : Result PoolItem.t :=
  if negb (isEvent (CreatePoolItemInput.type data))
     && (present (CreatePoolItemInput.scheduledAt data)
         || present (CreatePoolItemInput.scheduledEnd data))
  then Failed (Raised onlyEvents) db
  else
    let row := newRow (newId db) data in
    if refuses (PoolItemCreate row) db then Failed (StorageError (PoolItemCreate row)) db
    else Done row (setPoolItems db (poolItems db ++ [row])).

(** The row that [update] leaves: the fields given replace the stored
    ones, and the dates are set to null when the item found is no event
    ([nullDates]). *)
Definition updatedRow (nullDates : bool) (data : UpdatePoolItemInput.t) (item : PoolItem.t)
    : PoolItem.t :=
  PoolItem.mk (PoolItem.id item) (PoolItem.type item)
    (default (PoolItem.title item) (UpdatePoolItemInput.title data))
    (patch (UpdatePoolItemInput.notes data) (PoolItem.notes item))
    (patch (UpdatePoolItemInput.categoryId data) (PoolItem.categoryId item))
    (if nullDates then None
     else patch (UpdatePoolItemInput.scheduledAt data) (PoolItem.scheduledAt item))
    (if nullDates then None
     else patch (UpdatePoolItemInput.scheduledEnd data) (PoolItem.scheduledEnd item))
    (default (PoolItem.status item) (UpdatePoolItemInput.status data))
    (PoolItem.lastUsedAt item) (PoolItem.useCount item)
    (patch (UpdatePoolItemInput.cooldownDays data) (PoolItem.cooldownDays item)).

Definition update (id : string) (data : UpdatePoolItemInput.t) (db : DB)
    : Result PoolItem.t :=
  match findById id db with
  | None => Failed (Raised "Pool item not found") db
  | Some item =>
      if negb (isEvent (PoolItem.type item))
         && (present (UpdatePoolItemInput.scheduledAt data)
             || present (UpdatePoolItemInput.scheduledEnd data))
      then Failed (Raised onlyEvents) db
      else
        let nullDates := negb (isEvent (PoolItem.type item)) in
        let row := updatedRow nullDates data item in
        if refuses (PoolItemUpdate id row) db
        then Failed (StorageError (PoolItemUpdate id row)) db
        else Done row
               (setPoolItems db
                  (updateFirst (hasId id) (updatedRow nullDates data) (poolItems db)))
  end.

Definition markUsed (poolItemIds : list string) (usedDate : Z) (db : DB) : Result unit :=
  if refuses (PoolItemUpdateMany poolItemIds usedDate) db
  then Failed (StorageError (PoolItemUpdateMany poolItemIds usedDate)) db
  else Done tt (usePool db poolItemIds usedDate).

End Methods.
End PoolService.

(** ** categoryService.ts *)

(** [CreateCategoryInput], as far as [Category] is modelled. *)
Module CreateCategoryInput.
Record t : Type := mk {
  name : string;
  priority : option Z;
  enabled : option bool
}.
End CreateCategoryInput.

Module CategoryService.
Section Methods.

Variable refuses : Request -> DB -> bool.
Variable newId : DB -> string.

(** The row that [create] hands to the storage: [priority || 0] and
    [enabled !== undefined ? enabled : true]. *)
Definition newRow (id : string) (data : CreateCategoryInput.t) : Category.t :=
  Category.mk id (CreateCategoryInput.name data)
    (default 0 (CreateCategoryInput.priority data))
    (default true (CreateCategoryInput.enabled data)).

Definition create (data : CreateCategoryInput.t) (db : DB) : Result Category.t :=
  let row := newRow (newId db) data in
  if refuses (CategoryCreate row) db then Failed (StorageError (CategoryCreate row)) db
  else Done row (setCategories db (categories db ++ [row])).

(** [findAll(enabledOnly)]: by priority descending, then name ascending. *)
Definition findAll (enabledOnly : bool) (db : DB) : list Category.t :=
  fold_right insertCategory []
    (if enabledOnly then List.filter Category.enabled (categories db) else categories db).

Definition hasName (name : string) (c : Category.t) : bool := String.eqb (Category.name c) name.

Definition findByName (name : string) (db : DB) : option Category.t :=
  List.find (hasName name) (categories db).

Definition defaults : list CreateCategoryInput.t :=
  [ CreateCategoryInput.mk "Exercise" (Some 1) None;
    CreateCategoryInput.mk "Diet" (Some 2) None;
    CreateCategoryInput.mk "Work" (Some 3) None;
    CreateCategoryInput.mk "Social" (Some 4) None;
    CreateCategoryInput.mk "Debt" (Some 5) None;
    CreateCategoryInput.mk "Learning" (Some 6) None;
    CreateCategoryInput.mk "Personal" (Some 7) None ].

(** [for (const cat of defaults)]: a default is created when no category
    has its name. *)
Fixpoint initialize (cats : list CreateCategoryInput.t) (db : DB) : Result unit :=
  match cats with
  | [] => Done tt db
  | cat :: rest =>
      match findByName (CreateCategoryInput.name cat) db with
      | Some _ => initialize rest db
      | None =>
          match create cat db with
          | Done _ db' => initialize rest db'
          | Failed e db' => Failed e db'
          end
      end
  end.

Definition initializeDefaultCategories (db : DB) : Result unit := initialize defaults db.

End Methods.
End CategoryService.

(** ** dailyPlanService.ts *)

Module DailyPlanService.

(** [findByDate]: the first plan whose date lies between the start and the
    end of the local day of [date]. *)
Definition onDayOf (tz date : Z) (p : DailyPlan.t) : bool :=
  (normalizedDate tz date <=? DailyPlan.date p)
  && (DailyPlan.date p <=? findByDate_endOfDay tz date).

Definition findByDate (tz date : Z) (db : DB) : option DailyPlan.t :=
  List.find (onDayOf tz date) (dailyPlans db).

Definition hasId (id : string) (p : DailyPlan.t) : bool := String.eqb (DailyPlan.id p) id.

Definition findById (id : string) (db : DB) : option DailyPlan.t :=
  List.find (hasId id) (dailyPlans db).

End DailyPlanService.

(** A stored schedule entry with what [Task.t] leaves out: its identifier,
    the note and the time of completion. *)
Module TaskRow.
Record t : Type := mk {
  id : string;
  data : Task.t;
  notes : option string;
  completedAt : option Z
}.
End TaskRow.

Definition withStatus (st : TaskStatus.t) (t : Task.t) : Task.t :=
  Task.mk (Task.dailyPlanId t) (Task.categoryId t) (Task.poolItemId t) (Task.title t)
    (Task.description t) (Task.scheduledTime t) (Task.durationMinutes t) (Task.priority t) st.

(** [updateTaskStatus(taskId, status, notes)] at the instant [now], on the
    table of schedule entries: [completedAt] is part of the update only when
    the status is [completed], and [notes] only when given. [None] when no
    entry has the identifier and the storage throws. *)
Definition updateTaskStatus (now : Z) (taskId : string) (status : TaskStatus.t)
    (notes : option string) (rows : list TaskRow.t) : option (list TaskRow.t) :=
  if existsb (fun r => String.eqb (TaskRow.id r) taskId) rows
  then Some (updateFirst (fun r => String.eqb (TaskRow.id r) taskId)
               (fun r =>
                  TaskRow.mk (TaskRow.id r) (withStatus status (TaskRow.data r))
                    (patch notes (TaskRow.notes r))
                    (match status with
                     | TaskStatus.completed => Some now
                     | _ => TaskRow.completedAt r
                     end))
               rows)
  else None.

(** ** journalService.ts *)

Module JournalService.

(** [orderBy: { timestamp: 'desc' }]. *)
Fixpoint insertEntry (e : JournalEntry.t) (l : list JournalEntry.t) : list JournalEntry.t :=
  match l with
  | [] => [e]
  | x :: r =>
      if JournalEntry.timestamp x <=? JournalEntry.timestamp e then e :: l
      else x :: insertEntry e r
  end.

Definition newestFirst (l : list JournalEntry.t) : list JournalEntry.t :=
  fold_right insertEntry [] l.

(** [take: limit]; every row when no limit is given. *)
Definition take {A : Type} (limit : option nat) (l : list A) : list A :=
  match limit with
  | Some n => firstn n l
  | None => l
  end.

Definition findByDateRange (startDate endDate : Z) (limit : option nat) (db : DB)
    : list JournalEntry.t :=
  take limit
    (newestFirst
       (List.filter (fun e => (startDate <=? JournalEntry.timestamp e)
                              && (JournalEntry.timestamp e <=? endDate))
          (journalEntries db))).

(** [getRecent(days)] at the instant [now]. *)
Definition getRecent (now : Z) (days : Z) (db : DB) : list JournalEntry.t :=
  findByDateRange (minusDays now days) now None db.

End JournalService.

(** ** planningEngine.ts: what else the context holds *)

Module CapacityFactors.
Record t : Type := mk {
  energy : string;
  sleep : string;
  recent_completion : string
}.
End CapacityFactors.

Definition capacityFactors (avgEnergy avgSleep completionRate : float) : CapacityFactors.t :=
  CapacityFactors.mk
    (if (7 <=? avgEnergy)%float then "good"
     else if (4 <=? avgEnergy)%float then "moderate" else "low")
    (if (7 <=? avgSleep)%float then "good"
     else if (4 <=? avgSleep)%float then "moderate" else "poor")
    (if (0.7 <=? completionRate)%float then "high"
     else if (0.4 <=? completionRate)%float then "moderate" else "low").

(** The journal of the week before the date, newest first, as the query of
    [gatherContext] orders it, and its first three entries. *)
Definition journalBefore (db : DB) (forDate : Z) : list JournalEntry.t :=
  JournalService.newestFirst (entriesBefore db forDate).

Definition recentEntries (db : DB) (forDate : Z) : list JournalEntry.t :=
  firstn 3 (journalBefore db forDate).

(** [content.substring(0, 300)] followed by an ellipsis when something was
    cut. *)
Definition excerpt (content : string) : string :=
  String.append (String.substring 0 300 content)
    (if (300 <? String.length content)%nat then "..." else "").

Definition newline : string := String (ascii_of_nat 10) EmptyString.

Section Summary.

(** The label YYYY-MM-DD of a day number. *)
Variable isoLabel : Z -> string.

Definition summaryLine (e : JournalEntry.t) : string :=
  String.append (isoLabel (toISODate (JournalEntry.timestamp e)))
    (String.append ": " (excerpt (JournalEntry.content e))).

Definition mentalStateSummary (db : DB) (forDate : Z) : string :=
  match recentEntries db forDate with
  | [] => "No recent journal entries."
  | recent => join newline (List.map summaryLine recent)
  end.

End Summary.

(** The factor labels of the context for a date. *)
Definition capacityFactorsOf (db : DB) (forDate : Z) : CapacityFactors.t :=
  capacityFactors (avgEnergy (entriesBefore db forDate)) (avgSleep (entriesBefore db forDate))
    (completionRate (tasksBefore db forDate)).

(** ** The route [POST /api/plans/generate] *)

Inductive Cause : Type :=
| EngineError (e : Error)
| ServiceError (e : Failure).

(** The answer of the route: the status and what the body holds. *)
Inductive Response : Type :=
| BadRequest (error : string)
| Conflict (planId : string)
| Created (planId : string) (taskCount : Z) (plan : option DailyPlan.t)
| ServerError (cause : Cause).

Section Route.

Variable tz : Z.
Variable Number : string -> option Z.
Variable JSON_parse : string -> option JsonValue.
Variable rejects : Write -> bool.
Variable refuses : Request -> DB -> bool.
Variable newId : DB -> string.

(** [new Date(dateStr)]. *)
Variable Date_parse : string -> JsDate.

(** The three deletions that make room when [replace] is set. The feedback
    of the plan has no table here; a failure of its deletion is swallowed. *)
Definition deletePlan (existing : DailyPlan.t) (db : DB) : Result unit :=
  let id := DailyPlan.id existing in
  if refuses (TaskDeleteMany id) db then Failed (StorageError (TaskDeleteMany id)) db
  else
    let db1 :=
      setTasks db (List.filter (fun t => negb (String.eqb (Task.dailyPlanId t) id)) (tasks db)) in
    if refuses (DailyPlanDelete id) db1 then Failed (StorageError (DailyPlanDelete id)) db1
    else
      Done tt (setDailyPlans db1 (removeFirst (DailyPlanService.hasId id) (dailyPlans db1))).

(** The handler. [date] is [req.body?.date ?? req.query.date], [replace]
    is [req.body?.replace === true], [reply] what the model answers if it is
    asked. *)
Definition postGenerate (date : option string) (replace : bool) (reply : option string)
    (db : DB) : Response * DB :=
  match truthyStr date with
  | None => (BadRequest "date is required (YYYY-MM-DD)", db)
  | Some dateStr =>
      match Date_parse dateStr with
      | Invalid_Date => (BadRequest "Invalid date", db)
      | DateAt parsed =>
          let forDate := setHours tz parsed 0 0 0 0 in
          let existing := DailyPlanService.findByDate tz forDate db in
          match existing, replace with
          | Some plan, false => (Conflict (DailyPlan.id plan), db)
          | _, _ =>
              match match existing with
                    | Some plan => deletePlan plan db
                    | None => Done tt db
                    end with
              | Failed e db1 => (ServerError (ServiceError e), db1)
              | Done _ db1 =>
                  match CategoryService.initializeDefaultCategories refuses newId db1 with
                  | Failed e db2 => (ServerError (ServiceError e), db2)
                  | Done _ db2 =>
                      match generatePlan tz Number JSON_parse rejects newId db2 forDate reply with
                      | (Rejected e, db3) => (ServerError (EngineError e), db3)
                      | (Fulfilled g, db3) =>
                          (Created (planId g) (taskCount g)
                             (DailyPlanService.findById (planId g) db3), db3)
                      end
                  end
              end
          end
      end
  end.

End Route.

(** * The pool over time

    What the availability rule and the commit do to each other. *)

Lemma cooldown_threshold (forDate used c : Z) :
  c <= (forDate - used) / msPerDay <-> used + c * msPerDay <= forDate.
Proof.
  pose proof msPerDay_pos as Hpos. split; intros H.
  - pose proof (Z.mul_div_le (forDate - used) msPerDay Hpos). nia.
  - apply Z.div_le_lower_bound; lia.
Qed.

Lemma offered_iff (tz : Z) (db : DB) (forDate : Z) (item : PoolItem.t) :
  In item (av_tasks (getAvailableForDate tz db forDate)
           ++ av_aspirations (getAvailableForDate tz db forDate)) <->
  In item (poolItems db)
  /\ PoolItem.status item = PoolItemStatus.active
  /\ (PoolItem.type item = task \/ PoolItem.type item = aspiration)
  /\ offCooldown forDate item = true.
Proof.
  rewrite in_app_iff. unfold getAvailableForDate. cbn [av_tasks av_aspirations].
  rewrite (available_of_type tz db forDate task item (or_introl eq_refl)).
  rewrite (available_of_type tz db forDate aspiration item (or_intror eq_refl)).
  tauto.
Qed.

Lemma offCooldown_threshold (forDate : Z) (item : PoolItem.t) :
  offCooldown forDate item = true <->
  forall used, PoolItem.lastUsedAt item = Some used ->
               used + cooldownOf item * msPerDay <= forDate.
Proof.
  rewrite offCooldown_true. split.
  - intros [Hn | (used & Hu & Hle)] used' Hu'; [congruence |].
    rewrite Hu in Hu'. injection Hu' as <-. now apply cooldown_threshold.
  - intros H. destruct (PoolItem.lastUsedAt item) as [used |]; [right | now left].
    exists used. split; [reflexivity |]. apply cooldown_threshold. now apply H.
Qed.

(** X1. A task or aspiration that was used comes off cooldown at a fixed
    instant, its cooldown in whole days (of 24 hours) after the instant of
    its last use; it is offered for every date from then on, so an item
    offered for a date is offered for every later date too. *)
Theorem cooldown_ends_after_whole_days (tz : Z) (db : DB) (forDate : Z) (item : PoolItem.t) :
  let offered d := In item (av_tasks (getAvailableForDate tz db d)
                            ++ av_aspirations (getAvailableForDate tz db d)) in
  (forall used, PoolItem.lastUsedAt item = Some used ->
     (offered forDate <->
      In item (poolItems db)
      /\ PoolItem.status item = PoolItemStatus.active
      /\ (PoolItem.type item = task \/ PoolItem.type item = aspiration)
      /\ used + cooldownOf item * msPerDay <= forDate))
  /\ (forall later, forDate <= later -> offered forDate -> offered later).
Proof.
  intros offered. subst offered. cbv beta. split.
  - intros used Hu. rewrite offered_iff, offCooldown_threshold. split.
    + intros (Hin & Hs & Ht & Hc). auto.
    + intros (Hin & Hs & Ht & Hc). repeat split; auto.
      intros used' Hu'. congruence.
  - intros later Hle. rewrite !offered_iff, !offCooldown_threshold.
    intros (Hin & Hs & Ht & Hc). repeat split; auto.
    intros used Hu. specialize (Hc used Hu). lia.
Qed.

(** [markUsed] changes the usage of an item and nothing that the
    availability rule reads besides. *)
Lemma idIn_markUsed (ids : list string) (usedAt : Z) (item : PoolItem.t) :
  idIn ids (markUsed usedAt item) = idIn ids item.
Proof. reflexivity. Qed.

Lemma matchPoolItem_In (ctx : PlanningContext) (t : LLMTask.t) (item : PoolItem.t) :
  matchPoolItem ctx t = Some item -> In item (candidates ctx).
Proof.
  unfold matchPoolItem. destruct (isTrue (LLMTask.is_i_wonder t)); [discriminate |].
  rewrite poolItemsByTitle_lookup.
  destruct (List.find _ (rev (candidates ctx))) as [p |] eqn:Hf.
  - intros [= <-]. apply find_some in Hf. apply in_rev. tauto.
  - destruct (truthyStr (LLMTask.pool_item_id t)) as [pid |]; [| discriminate].
    intros Hfind. apply find_some in Hfind. tauto.
Qed.

Lemma same_id_same_row (l : list PoolItem.t) (a b : PoolItem.t) :
  List.NoDup (List.map PoolItem.id l) -> In a l -> In b l -> PoolItem.id a = PoolItem.id b -> a = b.
Proof.
  induction l as [| x l IH]; [intros _ [] |].
  cbn [List.map]. intros Hnd Ha Hb Hid. apply List.NoDup_cons_iff in Hnd. destruct Hnd as [Hx Hnd].
  destruct Ha as [<- | Ha], Hb as [<- | Hb]; auto.
  - exfalso. apply Hx. rewrite Hid. now apply in_map.
  - exfalso. apply Hx. rewrite <- Hid. now apply in_map.
Qed.

Lemma survives_is_known (ctx : PlanningContext) (t : LLMTask.t) :
  survives ctx t = true -> known ctx t = true.
Proof.
  unfold survives, known, entryCategory.
  destruct (categoryByName ctx !! LLMTask.category t) as [id |]; [| discriminate].
  intros _. apply bool_decide_eq_true. eauto.
Qed.

Lemma filter_length_le {A : Type} (p q : A -> bool) (l : list A) :
  (forall x, p x = true -> q x = true) ->
  (length (List.filter p l) <= length (List.filter q l))%nat.
Proof.
  intros Hpq. induction l as [| x l IH]; [reflexivity |]. cbn.
  destruct (p x) eqn:Hp.
  - rewrite (Hpq x Hp). cbn. lia.
  - destruct (q x); cbn; lia.
Qed.

Lemma eventRows_length_le (ctx : PlanningContext) (planId : string)
    (evs : list (PoolItem.t * Z)) :
  (length (eventRows ctx planId evs) <= length evs)%nat.
Proof.
  induction evs as [| [p at_] rest IH]; [reflexivity |].
  rewrite eventRows_cons. destruct (eventCategory ctx p); cbn; lia.
Qed.

Section Aftermath.

Variable tz : Z.
Variable Number : string -> option Z.
Variable JSON_parse : string -> option JsonValue.
Variable rejects : Write -> bool.
Variable newId : DB -> string.

(** The tables after a run that was fulfilled. *)
Lemma tables_after_commit (db : DB) (forDate : Z) (response : string)
    (g : Generated) (db' : DB) :
  generatePlan tz Number JSON_parse rejects newId db forDate (Some response)
    = (Fulfilled g, db') ->
  let ctx := gatherContext tz db forDate in
  dailyPlans db' = dailyPlans db ++ [planRow JSON_parse newId ctx forDate response db]
  /\ tasks db' = tasks db ++ allRows tz Number JSON_parse newId ctx forDate response db
  /\ poolItems db' = List.map (fun item => if idIn (allMarks JSON_parse ctx response) item
                                           then markUsed forDate item else item)
                       (poolItems db)
  /\ categories db' = categories db
  /\ journalEntries db' = journalEntries db
  /\ g = generated JSON_parse newId ctx response db.
Proof.
  intros H ctx. apply generatePlan_fulfilled in H. fold ctx in H.
  destruct H as (_ & _ & _ & -> & ->).
  destruct (allMarks JSON_parse ctx response) as [| x l] eqn:Hm; cbn.
  - rewrite map_id. repeat split; reflexivity.
  - repeat split; reflexivity.
Qed.

(** X2. After a commit every consumed item carries the date of the plan
    as its last use, so a consumed task or aspiration is offered again
    exactly for the dates that lie its cooldown or more after the date of
    the plan: with a cooldown of a day or more (the default is 1 for a task
    and 3 for an aspiration) it is not offered for the date of the plan
    itself any more. *)
Theorem consumed_items_rest (db : DB) (forDate : Z) (response : string)
    (g : Generated) (db' : DB) :
  generatePlan tz Number JSON_parse rejects newId db forDate (Some response)
    = (Fulfilled g, db') ->
  let consumed := allMarks JSON_parse (gatherContext tz db forDate) response in
  let offered item d := In item (av_tasks (getAvailableForDate tz db' d)
                                 ++ av_aspirations (getAvailableForDate tz db' d)) in
  forall item, In item (poolItems db') -> idIn consumed item = true ->
    PoolItem.lastUsedAt item = Some forDate
    /\ (forall d, offered item d <->
                  PoolItem.status item = PoolItemStatus.active
                  /\ (PoolItem.type item = task \/ PoolItem.type item = aspiration)
                  /\ forDate + cooldownOf item * msPerDay <= d)
    /\ (1 <= cooldownOf item -> ~ offered item forDate).
Proof.
  intros H consumed offered item Hin Hid.
  destruct (tables_after_commit db forDate response g db' H) as (_ & _ & Hpool & _).
  fold consumed in Hpool.
  assert (Hused : PoolItem.lastUsedAt item = Some forDate).
  { rewrite Hpool in Hin. apply in_map_iff in Hin. destruct Hin as (item0 & Heq & _).
    destruct (idIn consumed item0) eqn:H0; subst item; [reflexivity |].
    rewrite H0 in Hid. discriminate. }
  assert (Hoff : forall d, offered item d <->
                           PoolItem.status item = PoolItemStatus.active
                           /\ (PoolItem.type item = task \/ PoolItem.type item = aspiration)
                           /\ forDate + cooldownOf item * msPerDay <= d).
  { intros d. subst offered. cbv beta. rewrite offered_iff, offCooldown_threshold. split.
    - intros (_ & Hs & Ht & Hc). auto.
    - intros (Hs & Ht & Hc). repeat split; auto. intros used Hu. congruence. }
  split; [exact Hused | split; [exact Hoff |]].
  intros Hc Hoffered. apply Hoff in Hoffered. pose proof msPerDay_pos. nia.
Qed.

(** X3. Usage never hides an event: for every date, the events offered
    after a commit are the events offered before it, in the same order, with
    their usage brought up to date. An event that was placed is still
    offered when the plan of its day is generated again. *)
Theorem placed_events_stay (db : DB) (forDate : Z) (response : string)
    (g : Generated) (db' : DB) :
  generatePlan tz Number JSON_parse rejects newId db forDate (Some response)
    = (Fulfilled g, db') ->
  let consumed := allMarks JSON_parse (gatherContext tz db forDate) response in
  forall d,
    av_events (getAvailableForDate tz db' d)
    = List.map (fun item => if idIn consumed item then markUsed forDate item else item)
        (av_events (getAvailableForDate tz db d)).
Proof.
  intros H consumed d.
  destruct (tables_after_commit db forDate response g db' H) as (_ & _ & Hpool & _).
  fold consumed in Hpool. unfold getAvailableForDate. cbn [av_events]. rewrite Hpool.
  rewrite !filter_map_swap. f_equal.
  assert (Hkeep : forall p : PoolItem.t -> bool,
             (forall item, p (markUsed forDate item) = p item) ->
             forall l, List.filter
                         (fun a => p (if idIn consumed a then markUsed forDate a else a)) l
                       = List.filter p l).
  { intros p Hp l. apply filter_ext. intros a. destruct (idIn consumed a); auto. }
  rewrite (Hkeep isActive (fun _ => eq_refl)).
  apply filter_ext. intros a. destruct (idIn consumed a); reflexivity.
Qed.

(** X4. With identifiers that identify (they are the primary key), a run
    changes no pool item but those that were offered for the date: an item
    that is paused, completed or still on cooldown, and an event of another
    day, keeps its usage whatever the model answers. *)
Theorem only_offered_items_are_consumed (db : DB) (forDate : Z) (response : string)
    (g : Generated) (db' : DB) :
  List.NoDup (List.map PoolItem.id (poolItems db)) ->
  generatePlan tz Number JSON_parse rejects newId db forDate (Some response)
    = (Fulfilled g, db') ->
  let avail := getAvailableForDate tz db forDate in
  forall n item,
    nth_error (poolItems db) n = Some item ->
    ~ In item (av_tasks avail ++ av_aspirations avail ++ av_events avail) ->
    nth_error (poolItems db') n = Some item.
Proof.
  intros Hnd H avail n item Hn Hout.
  destruct (tables_after_commit db forDate response g db' H) as (_ & _ & Hpool & _).
  rewrite Hpool, nth_error_map, Hn. cbn. f_equal.
  destruct (idIn _ item) eqn:Hid; [exfalso | reflexivity].
  apply Hout. pose proof (nth_error_In _ _ Hn) as Hin.
  unfold idIn in Hid. apply existsb_exists in Hid. destruct Hid as (id & Hmark & Heq).
  apply String.eqb_eq in Heq. subst id. unfold allMarks in Hmark.
  apply in_app_or in Hmark. rewrite app_assoc. apply in_or_app.
  destruct Hmark as [Hmark | Hmark].
  - left. apply entryMarks_In in Hmark. destruct Hmark as (t & m & _ & _ & Hm & Hid).
    apply matchPoolItem_In in Hm. unfold candidates in Hm. cbn [gatherContext ctx_poolItems] in Hm.
    fold avail in Hm. replace item with m; [exact Hm |].
    apply (same_id_same_row (poolItems db)); auto.
    apply (offered_iff tz db forDate m) in Hm. tauto.
  - right. apply eventMarks_In in Hmark. destruct Hmark as (p & at_ & Hp & _ & Hid).
    apply eventsToPlace_In in Hp. destruct Hp as [Hp _]. cbn [gatherContext ctx_poolItems] in Hp.
    fold avail in Hp. replace item with p; [exact Hp |].
    apply (same_id_same_row (poolItems db)); auto.
    apply (events_iff tz db forDate p) in Hp. tauto.
Qed.

(** X5. The count that a run reports never falls short of the entries it
    created. The two agree when the category identifiers are not empty and
    every event to place finds a category; the count is the larger one when,
    say, an event finds no category: it is counted and not created. *)
Theorem reported_count_bounds_created (db : DB) (forDate : Z) (response : string)
    (g : Generated) (db' : DB) :
  generatePlan tz Number JSON_parse rejects newId db forDate (Some response)
    = (Fulfilled g, db') ->
  let ctx := gatherContext tz db forDate in
  exists created,
    tasks db' = tasks db ++ created
    /\ len created <= taskCount g
    /\ (idsNonEmpty db ->
        (forall ev, In ev (eventsToPlace ctx) -> eventCategory ctx (fst ev) <> None) ->
        len created = taskCount g).
Proof.
  intros H ctx.
  destruct (tables_after_commit db forDate response g db' H) as (_ & Htasks & _ & _ & _ & ->).
  fold ctx in Htasks |- *. eexists. split; [exact Htasks |].
  unfold allRows, generated, countOf, len. cbn [taskCount]. rewrite length_app.
  pose proof (entryRows_survivors tz Number ctx (newId db) (toISODate forDate)
                (entriesOf JSON_parse response)) as [_ Hlen].
  rewrite Hlen. split.
  - pose proof (filter_length_le (survives ctx) (known ctx) (entriesOf JSON_parse response)
                  (survives_is_known ctx)).
    pose proof (eventRows_length_le ctx (newId db) (eventsToPlace ctx)). lia.
  - intros Hids Hev. rewrite (eventRows_length ctx (newId db) (eventsToPlace ctx) Hev).
    subst ctx. rewrite (filter_survives tz db forDate _ Hids), filter_known. lia.
Qed.

End Aftermath.

(** * The maintenance of the pool *)

Definition tablesOf {A : Type} (r : Result A) : DB :=
  match r with
  | Done _ db => db
  | Failed _ db => db
  end.

(** Only an event carries dates. *)
Definition undated (item : PoolItem.t) : Prop :=
  PoolItem.type item <> event ->
  PoolItem.scheduledAt item = None /\ PoolItem.scheduledEnd item = None.


Lemma isEvent_true (ty : PoolItemType) : PoolService.isEvent ty = true <-> ty = event.
Proof. apply PoolItemType_eqb_eq. Qed.

Lemma isEvent_false (ty : PoolItemType) : PoolService.isEvent ty = false <-> ty <> event.
Proof.
  rewrite <- isEvent_true. destruct (PoolService.isEvent ty); split; congruence.
Qed.

Lemma present_false {A : Type} (o : option A) : present o = false <-> o = None.
Proof. destruct o; simpl; split; congruence. Qed.



Lemma in_available_tasks (tz : Z) (db : DB) (forDate : Z) (ty : PoolItemType)
    (item : PoolItem.t) :
  (In item (av_tasks (getAvailableForDate tz db forDate)) <->
   In item (poolItems db) /\ PoolItem.status item = PoolItemStatus.active
   /\ PoolItem.type item = task /\ offCooldown forDate item = true)
  /\ (In item (av_aspirations (getAvailableForDate tz db forDate)) <->
      In item (poolItems db) /\ PoolItem.status item = PoolItemStatus.active
      /\ PoolItem.type item = aspiration /\ offCooldown forDate item = true).
Proof.
  unfold getAvailableForDate. cbn [av_tasks av_aspirations]. split.
  - apply (available_of_type tz db forDate task item). now left.
  - apply (available_of_type tz db forDate aspiration item). now right.
Qed.

Section Engine_tables.

Variable tz : Z.
Variable Number : string -> option Z.
Variable JSON_parse : string -> option JsonValue.
Variable rejects : Write -> bool.
Variable newId : DB -> string.

(** Whatever the outcome of a run, its tables are the old ones or the old
    ones with a plan, entries and usage added. *)
Lemma generatePlan_tables (db : DB) (forDate : Z) (reply : option string) :
  let out := generatePlan tz Number JSON_parse rejects newId db forDate reply in
  (exists e, fst out = Rejected e /\ snd out = db)
  \/ (exists g response,
         reply = Some response /\ out = (Fulfilled g, snd out)).
Proof.
  intros out. destruct out as [s db'] eqn:Hout. destruct s as [g | e].
  - right. destruct reply as [response |].
    + exists g, response. auto.
    + subst out. unfold generatePlan, transaction, generatePlanBody, throw in Hout.
      discriminate.
  - left. exists e. split; [reflexivity |]. subst out.
    unfold generatePlan, transaction in Hout.
    destruct (generatePlanBody _ _ _ _ _ _ _ _ _); [discriminate |].
    now injection Hout as _ <-.
Qed.


End Engine_tables.

(** The row addressed by a key. *)
Lemma updateFirst_split {A : Type} (p : A -> bool) (f : A -> A) (l : list A) (x : A) :
  List.find p l = Some x ->
  exists pre post,
    l = pre ++ x :: post
    /\ (forall y, In y pre -> p y = false)
    /\ updateFirst p f l = pre ++ f x :: post.
Proof.
  induction l as [| y l IH]; [discriminate |]. cbn. destruct (p y) eqn:Hy.
  - intros [= ->]. exists [], l. cbn. repeat split; auto. intros ? [].
  - intros Hf. destruct (IH Hf) as (pre & post & -> & Hpre & ->).
    exists (y :: pre), post. cbn. repeat split; auto.
    intros z [<- | Hz]; auto.
Qed.

Lemma updateFirst_frame {A : Type} (p : A -> bool) (f : A -> A) (l : list A) :
  length (updateFirst p f l) = length l
  /\ forall n y, nth_error l n = Some y -> p y = false ->
                 nth_error (updateFirst p f l) n = Some y.
Proof.
  induction l as [| x l [IHlen IHnth]]; [split; [reflexivity | intros [| n] y; discriminate] |].
  cbn. destruct (p x) eqn:Hx; cbn; split; auto.
  - intros [| n] y; cbn; [| auto]. intros [= ->]. congruence.
  - intros [| n] y; cbn; auto.
Qed.


Section PoolMaintenance.

Variable tz : Z.
Variable refuses : Request -> DB -> bool.
Variable newId : DB -> string.

Lemma create_Done (data : CreatePoolItemInput.t) (db : DB) (row : PoolItem.t) (db' : DB) :
  PoolService.create refuses newId data db = Done row db' ->
  row = PoolService.newRow (newId db) data
  /\ db' = setPoolItems db (poolItems db ++ [row])
  /\ undated row.
Proof.
  unfold PoolService.create.
  destruct (negb (PoolService.isEvent (CreatePoolItemInput.type data)) && _) eqn:Hd;
    [discriminate |].
  destruct (refuses _ db); [discriminate |]. intros [= <- <-].
  split; [reflexivity | split; [reflexivity |]].
  intros Hty. cbn in Hty |- *. apply isEvent_false in Hty. now rewrite Hty.
Qed.


Lemma update_Done (id : string) (data : UpdatePoolItemInput.t) (db : DB)
    (row : PoolItem.t) (db' : DB) :
  PoolService.update refuses id data db = Done row db' ->
  exists item,
    PoolService.findById id db = Some item
    /\ row = PoolService.updatedRow (negb (PoolService.isEvent (PoolItem.type item))) data item
    /\ db' = setPoolItems db
               (updateFirst (PoolService.hasId id)
                  (PoolService.updatedRow (negb (PoolService.isEvent (PoolItem.type item))) data)
                  (poolItems db))
    /\ (PoolItem.type item <> event ->
        UpdatePoolItemInput.scheduledAt data = None
        /\ UpdatePoolItemInput.scheduledEnd data = None).
Proof.
  unfold PoolService.update.
  destruct (PoolService.findById id db) as [item |]; [| discriminate].
  destruct (negb (PoolService.isEvent (PoolItem.type item)) && _) eqn:Hd; [discriminate |].
  cbv zeta. destruct (refuses _ db); [discriminate |]. intros [= <- <-].
  exists item. repeat split; auto.
  - apply isEvent_false in H. rewrite H in Hd. cbn in Hd.
    apply orb_false_iff in Hd. now apply present_false.
  - apply isEvent_false in H. rewrite H in Hd. cbn in Hd.
    apply orb_false_iff in Hd. now apply present_false.
Qed.




(** X7. An item that [create] stored is active and has never been used,
    and the planner is offered it at once: a task or an aspiration for every
    date, an event for the dates whose window holds its start. The rows of
    before are all there, in front of it. *)
Theorem created_item_is_offered (data : CreatePoolItemInput.t) (db : DB)
    (row : PoolItem.t) (db' : DB) :
  PoolService.create refuses newId data db = Done row db' ->
  poolItems db' = poolItems db ++ [row]
  /\ PoolItem.id row = newId db
  /\ PoolItem.type row = CreatePoolItemInput.type data
  /\ PoolItem.status row = PoolItemStatus.active
  /\ PoolItem.lastUsedAt row = None
  /\ PoolItem.useCount row = 0
  /\ (forall d, CreatePoolItemInput.type data = task ->
                In row (av_tasks (getAvailableForDate tz db' d)))
  /\ (forall d, CreatePoolItemInput.type data = aspiration ->
                In row (av_aspirations (getAvailableForDate tz db' d)))
  /\ (forall d, CreatePoolItemInput.type data = event ->
                (In row (av_events (getAvailableForDate tz db' d)) <->
                 exists start,
                   CreatePoolItemInput.scheduledAt data = Some start
                   /\ localDay tz start = localDay tz (newDate (toISODate d)))).
Proof.
  intros H. apply create_Done in H. destruct H as (Hrow & -> & _).
  assert (Hin : In row (poolItems (setPoolItems db (poolItems db ++ [row])))).
  { cbn. apply in_or_app. right. now left. }
  subst row. repeat split; try reflexivity.
  - intros d Hty. apply (in_available_tasks tz _ d task). repeat split; auto.
  - intros d Hty. apply (in_available_tasks tz _ d aspiration). repeat split; auto.
  - intros Hev. apply events_iff in Hev. destruct Hev as (_ & _ & _ & start & Hs & Hday).
    exists start. split; [| exact Hday]. cbn in Hs. rewrite H in Hs. exact Hs.
  - intros (start & Hs & Hday). apply events_iff. repeat split; auto.
    exists start. split; [| exact Hday]. cbn. now rewrite H, Hs.
Qed.

(** X8. A cooldown of zero days cannot be given at creation: [create]
    stores no override for it and the global default of the type applies
    (any other override is stored as given). [update] stores the override it
    is given, zero too, and an active task or aspiration with a cooldown of
    zero is offered for every date from its last use on, the date of the plan
    that used it included. *)
Theorem zero_cooldown_override :
  (forall data db row db',
      PoolService.create refuses newId data db = Done row db' ->
      cooldownOf row
      = match CreatePoolItemInput.cooldownDays data with
        | Some n => if n =? 0 then GLOBAL_COOLDOWN_DAYS (CreatePoolItemInput.type data) else n
        | None => GLOBAL_COOLDOWN_DAYS (CreatePoolItemInput.type data)
        end)
  /\ (forall id data db row db' n,
        PoolService.update refuses id data db = Done row db' ->
        UpdatePoolItemInput.cooldownDays data = Some n ->
        cooldownOf row = n)
  /\ (forall id data db row db',
        PoolService.update refuses id data db = Done row db' ->
        UpdatePoolItemInput.cooldownDays data = Some 0 ->
        PoolItem.status row = PoolItemStatus.active ->
        PoolItem.type row <> event ->
        forall used d,
          PoolItem.lastUsedAt row = Some used -> used <= d ->
          In row (av_tasks (getAvailableForDate tz db' d)
                  ++ av_aspirations (getAvailableForDate tz db' d))).
Proof.
  assert (Hcool : forall id data db row db' n,
             PoolService.update refuses id data db = Done row db' ->
             UpdatePoolItemInput.cooldownDays data = Some n ->
             cooldownOf row = n /\ In row (poolItems db')).
  { intros id data db row db' n H Hn. apply update_Done in H.
    destruct H as (item & Hfind & -> & -> & _). split.
    - unfold cooldownOf. cbn. now rewrite Hn.
    - cbn. destruct (updateFirst_split _ (PoolService.updatedRow
                       (negb (PoolService.isEvent (PoolItem.type item))) data) _ _ Hfind)
        as (pre & post & _ & _ & ->).
      apply in_or_app. right. now left. }
  split; [| split].
  - intros data db row db' H. apply create_Done in H. destruct H as (-> & _ & _).
    unfold cooldownOf. cbn.
    destruct (CreatePoolItemInput.cooldownDays data) as [[| p | p] |]; reflexivity.
  - intros id data db row db' n H Hn. apply (Hcool id data db row db' n H Hn).
  - intros id data db row db' H H0 Hact Hty used d Hused Hle.
    destruct (Hcool id data db row db' 0 H H0) as [Hc Hin].
    apply offered_iff. repeat split; auto.
    + destruct (PoolItem.type row); auto. congruence.
    + apply offCooldown_threshold. intros used' Hu'. rewrite Hc.
      rewrite Hused in Hu'. injection Hu' as <-. lia.
Qed.


End PoolMaintenance.

(** * The categories *)

Lemma String_leb_trans (a b c : string) :
  String.leb a b = true -> String.leb b c = true -> String.leb a c = true.
Proof.
  unfold String.leb. revert b c.
  induction a as [| x a IH]; intros [| y b] [| z c]; cbn; try congruence.
  unfold Ascii.compare.
  destruct (N.compare_spec (N_of_ascii x) (N_of_ascii y)) as [Hxy | Hxy | Hxy];
    destruct (N.compare_spec (N_of_ascii y) (N_of_ascii z)) as [Hyz | Hyz | Hyz];
    destruct (N.compare_spec (N_of_ascii x) (N_of_ascii z)) as [Hxz | Hxz | Hxz];
    try lia; try congruence; try (intros; reflexivity).
  apply IH.
Qed.

(** The order of [findAll]: a higher priority first, and among equal
    priorities the smaller name first. *)
Definition byPriorityThenName (a b : Category.t) : Prop :=
  Category.priority b < Category.priority a
  \/ (Category.priority a = Category.priority b
      /\ String.leb (Category.name a) (Category.name b) = true).

Lemma categoryBefore_iff (a b : Category.t) :
  categoryBefore a b = true <-> byPriorityThenName a b.
Proof.
  unfold categoryBefore, byPriorityThenName.
  rewrite orb_true_iff, andb_true_iff, Z.ltb_lt, Z.eqb_eq. tauto.
Qed.

Lemma byPriorityThenName_total (a b : Category.t) :
  categoryBefore a b = false -> byPriorityThenName b a.
Proof.
  unfold categoryBefore, byPriorityThenName. rewrite orb_false_iff, andb_false_iff.
  rewrite Z.ltb_ge, Z.eqb_neq. intros [Hle [Hne | Hname]]; [left; lia |].
  destruct (Z.eq_dec (Category.priority a) (Category.priority b)) as [Heq | Hne];
    [right | left; lia].
  split; [now symmetry |].
  destruct (String.leb_total (Category.name a) (Category.name b)); congruence.
Qed.

Lemma byPriorityThenName_trans (a b c : Category.t) :
  byPriorityThenName a b -> byPriorityThenName b c -> byPriorityThenName a c.
Proof.
  unfold byPriorityThenName. intros [Hab | [Hab Nab]] [Hbc | [Hbc Nbc]]; try (left; lia).
  right. split; [lia |]. eapply String_leb_trans; eassumption.
Qed.

Lemma insertCategory_ordered (c : Category.t) (l : list Category.t) :
  StronglySorted byPriorityThenName l -> StronglySorted byPriorityThenName (insertCategory c l).
Proof.
  induction l as [| x l IH]; intros Hs; cbn.
  - repeat constructor.
  - apply StronglySorted_inv in Hs. destruct Hs as [Hl Hx].
    destruct (categoryBefore c x) eqn:Hcx.
    + apply categoryBefore_iff in Hcx. constructor; [constructor; assumption |].
      constructor; [exact Hcx |].
      rewrite List.Forall_forall in *. intros y Hy.
      eapply byPriorityThenName_trans; [exact Hcx | auto].
    + constructor; [auto |]. apply byPriorityThenName_total in Hcx.
      rewrite List.Forall_forall in *. intros y Hy. apply insertCategory_In in Hy.
      destruct Hy as [-> | Hy]; auto.
Qed.

Lemma insertCategory_Permutation (c : Category.t) (l : list Category.t) :
  Permutation (insertCategory c l) (c :: l).
Proof.
  induction l as [| x l IH]; cbn; [reflexivity |].
  destruct (categoryBefore c x); [reflexivity |].
  rewrite IH. apply perm_swap.
Qed.

Lemma sorted_categories (l : list Category.t) :
  StronglySorted byPriorityThenName (fold_right insertCategory [] l)
  /\ Permutation (fold_right insertCategory [] l) l.
Proof.
  induction l as [| x l [IHs IHp]]; cbn; [split; [constructor | reflexivity] |].
  split; [now apply insertCategory_ordered |].
  rewrite insertCategory_Permutation. now constructor.
Qed.

(** X10. [findAll] lists each category it is asked for once, all of them
    or the enabled ones, a higher priority before a lower one and, among
    equal priorities, in the order of their names; with [enabledOnly] it is
    the list the planning context is built from. *)
Theorem findAll_is_ordered (enabledOnly : bool) (db : DB) :
  StronglySorted byPriorityThenName (CategoryService.findAll enabledOnly db)
  /\ Permutation (CategoryService.findAll enabledOnly db)
       (if enabledOnly then List.filter Category.enabled (categories db) else categories db)
  /\ (forall tz forDate,
        ctx_categories (gatherContext tz db forDate)
        = List.map (fun c => mkCategoryRef (Category.id c) (Category.name c))
            (CategoryService.findAll true db)).
Proof.
  unfold CategoryService.findAll.
  destruct (sorted_categories
              (if enabledOnly then List.filter Category.enabled (categories db)
               else categories db)) as [Hs Hp].
  split; [exact Hs | split; [exact Hp | reflexivity]].
Qed.

(** X11. The category of a placed event. An event that names a category
    is filed under it, whether or not that category is enabled or exists. An
    event that names none is filed under the first category of the context:
    an enabled category that every other enabled category comes after, by
    priority and then by name. With no enabled category it is not placed. *)
Theorem event_category_fallback (tz : Z) (db : DB) (forDate : Z) (ev : PoolItem.t) :
  let ctx := gatherContext tz db forDate in
  (forall own, truthyStr (PoolItem.categoryId ev) = Some own ->
               eventCategory ctx ev = Some own)
  /\ (truthyStr (PoolItem.categoryId ev) = None ->
      (forall cid, eventCategory ctx ev = Some cid ->
         exists c, In c (categories db)
                   /\ Category.enabled c = true
                   /\ Category.id c = cid
                   /\ forall c', In c' (categories db) -> Category.enabled c' = true ->
                                 c' = c \/ byPriorityThenName c c')
      /\ (List.filter Category.enabled (categories db) = [] -> eventCategory ctx ev = None)).
Proof.
  intros ctx. split.
  - intros own Hown. unfold eventCategory. now rewrite Hown.
  - intros Hnone. unfold eventCategory. rewrite Hnone. subst ctx.
    cbn [gatherContext ctx_categories].
    destruct (sorted_categories (List.filter Category.enabled (categories db))) as [Hs Hp].
    fold (findAllEnabled db) in Hs, Hp. split.
    + intros cid. destruct (findAllEnabled db) as [| c rest] eqn:Hall; [discriminate |].
      cbn. intros Hcid. exists c.
      assert (Hc : In c (List.filter Category.enabled (categories db))).
      { apply (Permutation_in _ Hp). now left. }
      apply filter_In in Hc. destruct Hc as [Hin Hen].
      repeat split; auto.
      * unfold truthyStr in Hcid. destruct (nonEmpty (Category.id c)); congruence.
      * intros c' Hin' Hen'.
        assert (Hc' : In c' (c :: rest)).
        { apply (Permutation_in _ (Permutation_sym Hp)). apply filter_In. auto. }
        destruct Hc' as [<- | Hc']; [now left | right].
        apply StronglySorted_inv in Hs. destruct Hs as [_ Hs].
        rewrite List.Forall_forall in Hs. auto.
    + intros Hempty. unfold findAllEnabled. now rewrite Hempty.
Qed.

(** ** The default categories *)

Definition defaultNames : list string :=
  List.map CreateCategoryInput.name CategoryService.defaults.

Definition nameTaken (db : DB) (name : string) : bool :=
  present (CategoryService.findByName name db).

(** The defaults that [initializeDefaultCategories] has to create. *)
Definition missingDefaults (cats : list CreateCategoryInput.t) (db : DB)
    : list CreateCategoryInput.t :=
  List.filter (fun cat => negb (nameTaken db (CreateCategoryInput.name cat))) cats.

(** What a category is, its identifier apart. *)
Definition described (c : Category.t) : string * Z * bool :=
  (Category.name c, Category.priority c, Category.enabled c).

Definition asDescribed (cat : CreateCategoryInput.t) : string * Z * bool :=
  (CreateCategoryInput.name cat, default 0 (CreateCategoryInput.priority cat),
   default true (CreateCategoryInput.enabled cat)).

Definition sameButCategories (db db' : DB) : Prop :=
  dailyPlans db' = dailyPlans db /\ tasks db' = tasks db
  /\ poolItems db' = poolItems db /\ journalEntries db' = journalEntries db.

Lemma find_app {A : Type} (p : A -> bool) (l1 l2 : list A) :
  List.find p (l1 ++ l2) = match List.find p l1 with
                           | Some x => Some x
                           | None => List.find p l2
                           end.
Proof. induction l1 as [| x l IH]; cbn; [reflexivity |]. destruct (p x); auto. Qed.

Lemma nameTaken_after (db : DB) (added : list Category.t) (name : string) :
  nameTaken (setCategories db (categories db ++ added)) name
  = nameTaken db name || existsb (CategoryService.hasName name) added.
Proof.
  unfold nameTaken, CategoryService.findByName. cbn. rewrite find_app.
  destruct (List.find _ (categories db)); cbn; [reflexivity |].
  induction added as [| c l IH]; cbn; [reflexivity |].
  destruct (CategoryService.hasName name c); cbn; auto.
Qed.

Section Defaults.

Variable refuses : Request -> DB -> bool.
Variable newId : DB -> string.

(** The loop, for any list of defaults with distinct names: it appends one
    row for each default whose name is not taken, in order, whether it ends
    well or not. *)
Lemma initialize_appends (cats : list CreateCategoryInput.t) :
  List.NoDup (List.map CreateCategoryInput.name cats) ->
  forall db,
    exists added,
      categories (tablesOf (CategoryService.initialize refuses newId cats db))
      = categories db ++ added
      /\ sameButCategories db (tablesOf (CategoryService.initialize refuses newId cats db))
      /\ (forall db', CategoryService.initialize refuses newId cats db = Done tt db' ->
                      List.map described added = List.map asDescribed (missingDefaults cats db))
      /\ (forall e db', CategoryService.initialize refuses newId cats db = Failed e db' ->
                        exists row, e = StorageError (CategoryCreate row)).
Proof.
  induction cats as [| cat rest IH]; intros Hnd db.
  - exists []. cbn. rewrite app_nil_r. repeat split; auto. discriminate.
  - cbn [List.map] in Hnd. apply List.NoDup_cons_iff in Hnd. destruct Hnd as [Hfresh Hnd].
    cbn [CategoryService.initialize missingDefaults List.filter].
    fold (missingDefaults rest db). unfold nameTaken at 1.
    destruct (CategoryService.findByName (CreateCategoryInput.name cat) db) as [c |] eqn:Hfind.
    + cbn [present negb]. exact (IH Hnd db).
    + cbn [present negb]. unfold CategoryService.create.
      set (row := CategoryService.newRow (newId db) cat).
      destruct (refuses (CategoryCreate row) db) eqn:Href.
      * exists []. cbn. rewrite app_nil_r. repeat split; auto; [discriminate |].
        intros e db' [= <- <-]. now exists row.
      * destruct (IH Hnd (setCategories db (categories db ++ [row])))
          as (added & Hcat & Hsame & Hdone & Hfail).
        exists (row :: added). split; [| split; [| split]].
        -- rewrite Hcat. cbn. now rewrite <- app_assoc.
        -- exact Hsame.
        -- intros db' Hd. cbn [List.map]. f_equal. rewrite (Hdone db' Hd). f_equal.
           unfold missingDefaults. apply filter_ext_in. intros other Hother.
           rewrite nameTaken_after. cbn [existsb].
           replace (CategoryService.hasName (CreateCategoryInput.name other) row) with false;
             [now rewrite !orb_false_r |].
           symmetry. unfold CategoryService.hasName. cbn. apply String.eqb_neq.
           intros Heq. apply Hfresh. rewrite Heq. now apply in_map.
        -- exact Hfail.
Qed.

Lemma initialize_nothing_missing (cats : list CreateCategoryInput.t) (db : DB) :
  missingDefaults cats db = [] -> CategoryService.initialize refuses newId cats db = Done tt db.
Proof.
  induction cats as [| cat rest IH]; [reflexivity |].
  cbn. unfold nameTaken at 1.
  destruct (CategoryService.findByName (CreateCategoryInput.name cat) db); cbn;
    [exact IH | discriminate].
Qed.

Lemma defaults_distinct : List.NoDup defaultNames.
Proof.
  unfold defaultNames. cbn.
  repeat (constructor; [cbn; intros H; repeat (destruct H as [H | H]; [discriminate |]);
                        exact H |]).
  constructor.
Qed.

(** X12. [initializeDefaultCategories] adds what is missing and nothing
    else. When it ends well the categories are those of before, untouched
    and in front, followed by one enabled category for each of the seven
    defaults whose name was not taken, with its priority; every default
    name is taken afterwards, so a second call changes nothing. A category
    that holds a default name is left as it is, disabled or not. The other
    tables are never touched, and when a creation is refused the categories
    created before it stay. *)
Theorem default_categories_are_ensured (db : DB) :
  let out := CategoryService.initializeDefaultCategories refuses newId db in
  (exists added,
      categories (tablesOf out) = categories db ++ added
      /\ sameButCategories db (tablesOf out)
      /\ (forall db', out = Done tt db' ->
            List.map described added
            = List.map asDescribed (missingDefaults CategoryService.defaults db)))
  /\ (forall db', out = Done tt db' ->
        (forall name, In name defaultNames -> nameTaken db' name = true)
        /\ CategoryService.initializeDefaultCategories refuses newId db' = Done tt db')
  /\ (forall e db', out = Failed e db' -> exists row, e = StorageError (CategoryCreate row)).
Proof.
  intros out. subst out. unfold CategoryService.initializeDefaultCategories.
  destruct (initialize_appends CategoryService.defaults defaults_distinct db)
    as (added & Hcat & Hsame & Hdone & Hfail).
  split; [exists added; auto | split; [| exact Hfail]].
  intros db' Hd. specialize (Hdone db' Hd). rewrite Hd in Hcat, Hsame. cbn in Hcat, Hsame.
  assert (Htaken : forall name, In name defaultNames -> nameTaken db' name = true).
  { intros name Hname.
    assert (Hdb' : db' = setCategories db (categories db ++ added)).
    { destruct db', Hsame as (? & ? & ? & ?). cbn in *. unfold setCategories. cbn. congruence. }
    rewrite Hdb', nameTaken_after.
    destruct (nameTaken db name) eqn:Hold; [reflexivity |]. cbn.
    apply existsb_exists. unfold defaultNames in Hname. apply in_map_iff in Hname.
    destruct Hname as (cat & <- & Hcatin).
    assert (Hmiss : In (asDescribed cat)
                      (List.map asDescribed (missingDefaults CategoryService.defaults db))).
    { apply in_map. apply filter_In. split; [exact Hcatin | now rewrite Hold]. }
    rewrite <- Hdone in Hmiss. apply in_map_iff in Hmiss. destruct Hmiss as (c & Hc & Hcin).
    exists c. split; [exact Hcin |]. unfold CategoryService.hasName. apply String.eqb_eq.
    unfold described, asDescribed in Hc. congruence. }
  split; [exact Htaken |]. apply initialize_nothing_missing.
  unfold missingDefaults.
  assert (Hall : forall cat, In cat CategoryService.defaults ->
                   negb (nameTaken db' (CreateCategoryInput.name cat)) = false).
  { intros cat Hcat'. rewrite Htaken; [reflexivity |]. unfold defaultNames. now apply in_map. }
  clear - Hall. induction CategoryService.defaults as [| cat rest IH]; [reflexivity |].
  cbn. rewrite (Hall cat (or_introl eq_refl)). apply IH. intros c Hc. apply Hall. now right.
Qed.

End Defaults.

(** * Plans by date, and the route that generates them *)

Lemma onDayOf_iff (tz date : Z) (p : DailyPlan.t) :
  DailyPlanService.onDayOf tz date p = true <->
  localDay tz (DailyPlan.date p) = localDay tz date.
Proof.
  unfold DailyPlanService.onDayOf. rewrite andb_true_iff, !Z.leb_le.
  apply findByDate_window.
Qed.

Lemma findByDate_Some (tz date : Z) (db : DB) (p : DailyPlan.t) :
  DailyPlanService.findByDate tz date db = Some p ->
  In p (dailyPlans db) /\ localDay tz (DailyPlan.date p) = localDay tz date.
Proof.
  intros Hp. apply find_some in Hp. destruct Hp as [Hin Hday].
  split; [exact Hin | now apply onDayOf_iff].
Qed.

(** X13. [findByDate] answers by local calendar day, on every host: the
    plan it returns lies on the local day of the date asked for, it returns
    none exactly when no plan lies on that day, and two dates of one local
    day get one answer. *)
Theorem findByDate_is_the_local_day (tz date : Z) (db : DB) :
  (forall p, DailyPlanService.findByDate tz date db = Some p ->
             In p (dailyPlans db) /\ localDay tz (DailyPlan.date p) = localDay tz date)
  /\ (DailyPlanService.findByDate tz date db = None <->
      forall p, In p (dailyPlans db) -> localDay tz (DailyPlan.date p) <> localDay tz date)
  /\ (forall other, localDay tz other = localDay tz date ->
                    DailyPlanService.findByDate tz other db
                    = DailyPlanService.findByDate tz date db).
Proof.
  split; [| split].
  - intros p. apply findByDate_Some.
  - unfold DailyPlanService.findByDate. rewrite find_none_iff. split; intros H p Hp.
    + intros Hday. apply onDayOf_iff in Hday. rewrite (H p Hp) in Hday. discriminate.
    + destruct (DailyPlanService.onDayOf tz date p) eqn:Hon; [| reflexivity].
      apply onDayOf_iff in Hon. now apply H in Hon.
  - intros other Hday. unfold DailyPlanService.findByDate.
    induction (dailyPlans db) as [| p l IH]; [reflexivity |]. cbn.
    assert (Hsame : DailyPlanService.onDayOf tz other p = DailyPlanService.onDayOf tz date p).
    { apply eq_true_iff_eq. rewrite !onDayOf_iff, Hday. tauto. }
    rewrite Hsame. destruct (DailyPlanService.onDayOf tz date p); auto.
Qed.

Lemma midnight_same_day (tz d : Z) : localDay tz (setHours tz d 0 0 0 0) = localDay tz d.
Proof.
  apply (setHours_local tz d 0 0 0 0). unfold MakeTime, msPerDay. lia.
Qed.

Section RouteProperties.

Variable tz : Z.
Variable Number : string -> option Z.
Variable JSON_parse : string -> option JsonValue.
Variable rejects : Write -> bool.
Variable refuses : Request -> DB -> bool.
Variable newId : DB -> string.
Variable Date_parse : string -> JsDate.

Local Notation "'route'" := (postGenerate tz Number JSON_parse rejects refuses newId Date_parse).
Local Notation "'engine'" := (generatePlan tz Number JSON_parse rejects newId).
Local Notation "'ensureDefaults'" :=
  (CategoryService.initializeDefaultCategories refuses newId).

(** The steps of a request that gets as far as the engine. *)
Definition room (existing : option DailyPlan.t) (db : DB) : Result unit :=
  match existing with
  | Some plan => deletePlan refuses plan db
  | None => Done tt db
  end.

Lemma route_unfolded (dateStr : string) (parsed : Z) (replace : bool)
    (reply : option string) (db : DB) :
  dateStr <> EmptyString ->
  Date_parse dateStr = DateAt parsed ->
  let forDate := setHours tz parsed 0 0 0 0 in
  let existing := DailyPlanService.findByDate tz forDate db in
  route (Some dateStr) replace reply db
  = match existing, replace with
    | Some plan, false => (Conflict (DailyPlan.id plan), db)
    | _, _ =>
        match room existing db with
        | Failed e db1 => (ServerError (ServiceError e), db1)
        | Done _ db1 =>
            match ensureDefaults db1 with
            | Failed e db2 => (ServerError (ServiceError e), db2)
            | Done _ db2 =>
                match engine db2 forDate reply with
                | (Rejected e, db3) => (ServerError (EngineError e), db3)
                | (Fulfilled g, db3) =>
                    (Created (planId g) (taskCount g)
                       (DailyPlanService.findById (planId g) db3), db3)
                end
            end
        end
    end.
Proof.
  intros Hne Hparse forDate existing. unfold postGenerate.
  rewrite (truthyStr_Some dateStr Hne), Hparse. fold forDate. fold existing.
  destruct existing as [plan |], replace; reflexivity.
Qed.

Lemma room_plans (existing : option DailyPlan.t) (db db1 : DB) :
  room existing db = Done tt db1 ->
  dailyPlans db1 = match existing with
                   | Some plan => removeFirst (DailyPlanService.hasId (DailyPlan.id plan))
                                    (dailyPlans db)
                   | None => dailyPlans db
                   end
  /\ tasks db1 = match existing with
                 | Some plan =>
                     List.filter
                       (fun t => negb (String.eqb (Task.dailyPlanId t) (DailyPlan.id plan)))
                       (tasks db)
                 | None => tasks db
                 end
  /\ poolItems db1 = poolItems db
  /\ categories db1 = categories db
  /\ journalEntries db1 = journalEntries db.
Proof.
  destruct existing as [plan |]; cbn.
  - unfold deletePlan. destruct (refuses _ db); [discriminate |].
    destruct (refuses _ _); [discriminate |]. intros [= <-]. repeat split.
  - intros [= <-]. repeat split.
Qed.

Lemma ensureDefaults_plans (db1 db2 : DB) :
  ensureDefaults db1 = Done tt db2 -> sameButCategories db1 db2.
Proof.
  intros H. unfold CategoryService.initializeDefaultCategories in H.
  destruct (initialize_appends refuses newId CategoryService.defaults defaults_distinct db1)
    as (added & _ & Hs & _).
  rewrite H in Hs. exact Hs.
Qed.

Lemma removeFirst_length {A : Type} (p : A -> bool) (l : list A) (x : A) :
  List.find p l = Some x -> S (length (removeFirst p l)) = length l.
Proof.
  induction l as [| y l IH]; [discriminate |]. cbn.
  destruct (p y); [reflexivity |]. intros H. cbn. now rewrite (IH H).
Qed.

(** X14. A request that is turned down writes nothing. Without a date,
    or with one that does not parse, the answer is 400; when a plan lies on
    the local day of the date and [replace] is not set it is 409 with the
    identifier of that plan. In all three cases the tables are what they
    were: no plan is deleted and not even the default categories are
    created. *)
Theorem refused_requests_write_nothing (date : option string) (replace : bool)
    (reply : option string) (db : DB) :
  let out := route date replace reply db in
  (truthyStr date = None -> out = (BadRequest "date is required (YYYY-MM-DD)", db))
  /\ (forall dateStr,
        truthyStr date = Some dateStr -> Date_parse dateStr = Invalid_Date ->
        out = (BadRequest "Invalid date", db))
  /\ (forall dateStr parsed plan,
        truthyStr date = Some dateStr -> Date_parse dateStr = DateAt parsed ->
        DailyPlanService.findByDate tz (setHours tz parsed 0 0 0 0) db = Some plan ->
        replace = false ->
        out = (Conflict (DailyPlan.id plan), db)
        /\ localDay tz (DailyPlan.date plan) = localDay tz parsed)
  /\ (forall error, fst out = BadRequest error -> snd out = db)
  /\ (forall id, fst out = Conflict id -> snd out = db).
Proof.
  intros out. subst out. unfold postGenerate.
  destruct (truthyStr date) as [dateStr |] eqn:Hdate;
    [| repeat split; auto; discriminate].
  destruct (Date_parse dateStr) as [| parsed] eqn:Hparse.
  { split; [discriminate |]. split; [reflexivity |].
    split; [intros ? ? ? [= <-] H; congruence |]. split; reflexivity. }
  set (forDate := setHours tz parsed 0 0 0 0).
  split; [discriminate | split; [intros ? [= <-] Hinv; congruence |]].
  assert (Hlate : forall r : Response * DB,
             r = match room (DailyPlanService.findByDate tz forDate db) db with
                 | Failed e db1 => (ServerError (ServiceError e), db1)
                 | Done _ db1 =>
                     match ensureDefaults db1 with
                     | Failed e db2 => (ServerError (ServiceError e), db2)
                     | Done _ db2 =>
                         match engine db2 forDate reply with
                         | (Rejected e, db3) => (ServerError (EngineError e), db3)
                         | (Fulfilled g, db3) =>
                             (Created (planId g) (taskCount g)
                                (DailyPlanService.findById (planId g) db3), db3)
                         end
                     end
                 end ->
             (forall error, fst r <> BadRequest error) /\ (forall id, fst r <> Conflict id)).
  { intros r ->. destruct (room _ db) as [u db1 | e db1]; [| split; discriminate].
    destruct (ensureDefaults db1) as [u' db2 | e db2]; [| split; discriminate].
    destruct (engine db2 forDate reply) as [[g | e] db3]; split; discriminate. }
  unfold room in Hlate.
  destruct (DailyPlanService.findByDate tz forDate db) as [plan |] eqn:Hfind.
  - destruct replace.
    + split; [intros ? ? ? _ _ _ Hr; discriminate Hr |].
      destruct (Hlate _ eq_refl) as [H400 H409].
      split; [intros error H; now apply H400 in H | intros id H; now apply H409 in H].
    + split; [| split; [discriminate | reflexivity]].
      intros dateStr' parsed' plan' [= <-] Hparse' Hfind' _.
      rewrite Hparse in Hparse'. injection Hparse' as <-. fold forDate in Hfind'.
      rewrite Hfind in Hfind'. injection Hfind' as <-. split; [reflexivity |].
      apply findByDate_Some in Hfind. destruct Hfind as [_ ->]. apply midnight_same_day.
  - split.
    + intros dateStr' parsed' plan' [= <-] Hparse' Hfind' _.
      rewrite Hparse in Hparse'. injection Hparse' as <-. fold forDate in Hfind'. congruence.
    + destruct (Hlate _ eq_refl) as [H400 H409].
      split; [intros error H; now apply H400 in H | intros id H; now apply H409 in H].
Qed.

(** A request that is answered 201, taken apart. *)
Lemma route_created (dateStr : string) (parsed : Z) (replace : bool) (reply : option string)
    (db : DB) (id : string) (n : Z) (plan : option DailyPlan.t) (db' : DB) :
  Date_parse dateStr = DateAt parsed ->
  route (Some dateStr) replace reply db = (Created id n plan, db') ->
  let forDate := setHours tz parsed 0 0 0 0 in
  let existing := DailyPlanService.findByDate tz forDate db in
  dateStr <> EmptyString
  /\ (existing = None \/ replace = true)
  /\ exists db1 db2 g,
       room existing db = Done tt db1
       /\ ensureDefaults db1 = Done tt db2
       /\ engine db2 forDate reply = (Fulfilled g, db')
       /\ id = newId db2
       /\ dailyPlans db'
          = dailyPlans db1
            ++ [DailyPlan.mk id forDate (DailyPlan.capacityScore
                                           (planRow JSON_parse newId
                                              (gatherContext tz db2 forDate) forDate
                                              (default EmptyString reply) db2))
                  (DailyPlan.mentalStateSummary
                     (planRow JSON_parse newId (gatherContext tz db2 forDate) forDate
                        (default EmptyString reply) db2))].
Proof.
  intros Hparse H forDate existing.
  assert (Hne : dateStr <> EmptyString).
  { intros ->. unfold postGenerate in H. cbn in H. discriminate. }
  split; [exact Hne |].
  rewrite (route_unfolded dateStr parsed replace reply db Hne Hparse) in H.
  fold forDate existing in H.
  assert (Hlate : match room existing db with
                  | Failed e db1 => (ServerError (ServiceError e), db1)
                  | Done _ db1 =>
                      match ensureDefaults db1 with
                      | Failed e db2 => (ServerError (ServiceError e), db2)
                      | Done _ db2 =>
                          match engine db2 forDate reply with
                          | (Rejected e, db3) => (ServerError (EngineError e), db3)
                          | (Fulfilled g, db3) =>
                              (Created (planId g) (taskCount g)
                                 (DailyPlanService.findById (planId g) db3), db3)
                          end
                      end
                  end = (Created id n plan, db')
                  /\ (existing = None \/ replace = true)).
  { destruct existing as [p |]; [destruct replace; [auto | discriminate] | auto]. }
  clear H. destruct Hlate as [H Hwhy]. split; [exact Hwhy |].
  destruct (room existing db) as [[] db1 | e db1] eqn:Hroom; [| discriminate].
  destruct (ensureDefaults db1) as [[] db2 | e db2] eqn:Hdef; [| discriminate].
  destruct (engine db2 forDate reply) as [[g | e] db3] eqn:Hrun; [| discriminate].
  injection H as <- <- <- <-. exists db1, db2, g.
  destruct (generatePlan_tables tz Number JSON_parse rejects newId db2 forDate reply)
    as [(e & He & _) | (g' & response & -> & _)]; [rewrite Hrun in He; discriminate |].
  destruct (tables_after_commit tz Number JSON_parse rejects newId db2 forDate response g db3 Hrun)
    as (Hplans & _ & _ & _ & _ & ->).
  repeat split; auto. rewrite Hplans.
  destruct (ensureDefaults_plans db1 db2 Hdef) as (-> & _). reflexivity.
Qed.

(** X15. A request that was answered 201 is not served twice. The plan
    it created is dated at the local midnight the route computed, so the
    same request without [replace] then finds a plan on that day and is
    answered 409, with the tables untouched; the plan named is the new one
    when no plan lay on the day before. *)
Theorem second_request_conflicts (dateStr : string) (parsed : Z) (replace : bool)
    (reply : option string) (db : DB) (id : string) (n : Z) (plan : option DailyPlan.t)
    (db' : DB) :
  Date_parse dateStr = DateAt parsed ->
  route (Some dateStr) replace reply db = (Created id n plan, db') ->
  let forDate := setHours tz parsed 0 0 0 0 in
  (exists created,
      In created (dailyPlans db')
      /\ DailyPlan.id created = id
      /\ DailyPlan.date created = forDate)
  /\ (exists found,
        In found (dailyPlans db')
        /\ localDay tz (DailyPlan.date found) = localDay tz parsed
        /\ forall reply',
             route (Some dateStr) false reply' db' = (Conflict (DailyPlan.id found), db'))
  /\ (DailyPlanService.findByDate tz forDate db = None ->
      forall reply', route (Some dateStr) false reply' db' = (Conflict id, db')).
Proof.
  intros Hparse H forDate.
  destruct (route_created dateStr parsed replace reply db id n plan db' Hparse H)
    as (Hne & Hwhy & db1 & db2 & g & Hroom & Hdef & Hrun & Hid & Hplans).
  fold forDate in Hroom, Hrun, Hplans, Hwhy.
  set (created := DailyPlan.mk id forDate _ _) in Hplans.
  assert (Hon : DailyPlanService.onDayOf tz forDate created = true)
    by (now apply onDayOf_iff).
  assert (Hfind : exists found,
             DailyPlanService.findByDate tz forDate db' = Some found
             /\ (List.find (DailyPlanService.onDayOf tz forDate) (dailyPlans db1) = None ->
                 found = created)).
  { unfold DailyPlanService.findByDate. rewrite Hplans, find_app.
    destruct (List.find _ (dailyPlans db1)) as [p |].
    - exists p. split; [reflexivity | discriminate].
    - cbn. rewrite Hon. exists created. auto. }
  destruct Hfind as (found & Hfound & Hnew).
  assert (Hagain : forall reply',
             route (Some dateStr) false reply' db' = (Conflict (DailyPlan.id found), db')).
  { intros reply'. rewrite (route_unfolded dateStr parsed false reply' db' Hne Hparse).
    fold forDate. now rewrite Hfound. }
  split; [| split].
  - exists created. split; [| split; reflexivity].
    rewrite Hplans. apply in_or_app. right. now left.
  - exists found. apply findByDate_Some in Hfound. destruct Hfound as [Hin Hday].
    split; [exact Hin | split; [| exact Hagain]].
    rewrite Hday. apply midnight_same_day.
  - intros Hnone reply'. rewrite Hagain. rewrite Hnone in Hroom. cbn in Hroom.
    injection Hroom as <-. rewrite (Hnew Hnone). reflexivity.
Qed.

(** X16. Replacing a plan is not one unit of work. With [replace] set the
    plan found on the day and its entries are deleted before the engine
    runs, outside its transaction: when the run then fails (the model is
    down, its answer is no plan, a write is refused) the answer is 500 and
    the tables are those of before without the old plan and its entries, and
    with the default categories. *)
Theorem failed_replacement_loses_the_plan (dateStr : string) (parsed : Z)
    (reply : option string) (db : DB) (old : DailyPlan.t) (db2 : DB) (e : Error) :
  let forDate := setHours tz parsed 0 0 0 0 in
  let db1 :=
    setDailyPlans
      (setTasks db
         (List.filter (fun t => negb (String.eqb (Task.dailyPlanId t) (DailyPlan.id old)))
            (tasks db)))
      (removeFirst (DailyPlanService.hasId (DailyPlan.id old)) (dailyPlans db)) in
  dateStr <> EmptyString ->
  Date_parse dateStr = DateAt parsed ->
  DailyPlanService.findByDate tz forDate db = Some old ->
  deletePlan refuses old db = Done tt db1 ->
  ensureDefaults db1 = Done tt db2 ->
  fst (engine db2 forDate reply) = Rejected e ->
  route (Some dateStr) true reply db = (ServerError (EngineError e), db2)
  /\ dailyPlans db2 = removeFirst (DailyPlanService.hasId (DailyPlan.id old)) (dailyPlans db)
  /\ tasks db2
     = List.filter (fun t => negb (String.eqb (Task.dailyPlanId t) (DailyPlan.id old)))
         (tasks db)
  /\ (forall t, In t (tasks db2) -> Task.dailyPlanId t <> DailyPlan.id old)
  /\ S (length (dailyPlans db2)) = length (dailyPlans db).
Proof.
  intros forDate db1 Hne Hparse Hfind Hdel Hdef Hrun.
  destruct (ensureDefaults_plans db1 db2 Hdef) as (Hplans & Htasks & _).
  split; [| split; [exact Hplans | split; [exact Htasks | split]]].
  - rewrite (route_unfolded dateStr parsed true reply db Hne Hparse).
    fold forDate. rewrite Hfind. cbn [room]. rewrite Hdel, Hdef.
    destruct (generatePlan_tables tz Number JSON_parse rejects newId db2 forDate reply)
      as [(e' & He & Hdb) | (g & response & _ & Hg)].
    + destruct (engine db2 forDate reply) as [s db3]. cbn in He, Hdb, Hrun. subst.
      congruence.
    + rewrite Hg in Hrun. discriminate.
  - intros t Ht. rewrite Htasks in Ht. apply filter_In in Ht. destruct Ht as [_ Ht].
    apply negb_true_iff in Ht. now apply String.eqb_neq.
  - rewrite Hplans. apply findByDate_Some in Hfind. destruct Hfind as [Hin _].
    destruct (List.find (DailyPlanService.hasId (DailyPlan.id old)) (dailyPlans db))
      as [first |] eqn:Hfirst.
    + apply (removeFirst_length _ _ first Hfirst).
    + rewrite find_none_iff in Hfirst. specialize (Hfirst old Hin).
      unfold DailyPlanService.hasId in Hfirst. now rewrite String.eqb_refl in Hfirst.
Qed.

(** X17. The days of a generated plan. For a date written YYYY-MM-DD,
    which parses as midnight UTC, the plan is dated at a local midnight; the
    events offered to the run are those that start on the local day that
    holds midnight UTC of the UTC date of that instant, and an entry with a
    word for a time is scheduled on that same day. On a host on UTC all of
    these are the date asked for. On any other host the plan is dated one
    local day after the day its events are taken from and its entries are
    scheduled on, and west of Greenwich the plan itself lies on the day
    before the date asked for. *)
Theorem generated_plan_days (dateStr : string) (label : Z) (replace : bool)
    (reply : option string) (db : DB) (id : string) (n : Z) (plan : option DailyPlan.t)
    (db' : DB) :
  Date_parse dateStr = DateAt (newDate label) ->
  - msPerDay < tz < msPerDay ->
  route (Some dateStr) replace reply db = (Created id n plan, db') ->
  let forDate := setHours tz (newDate label) 0 0 0 0 in
  let planDay := localDay tz forDate in
  let workDay := localDay tz (newDate (toISODate forDate)) in
  (exists created,
      In created (dailyPlans db')
      /\ DailyPlan.id created = id
      /\ DailyPlan.date created = forDate)
  /\ planDay = (if tz <? 0 then label - 1 else label)
  /\ workDay = (if tz =? 0 then planDay else planDay - 1)
  /\ (forall tables item,
        In item (av_events (getAvailableForDate tz tables forDate)) ->
        exists start, PoolItem.scheduledAt item = Some start /\ localDay tz start = workDay)
  /\ atClock tz workDay 9 0 (timeToDate tz Number (toISODate forDate) "morning")
  /\ atClock tz workDay 14 0 (timeToDate tz Number (toISODate forDate) "afternoon")
  /\ atClock tz workDay 18 0 (timeToDate tz Number (toISODate forDate) "evening").
Proof.
  intros Hparse Htz H forDate planDay workDay.
  destruct (route_created dateStr (newDate label) replace reply db id n plan db' Hparse H)
    as (_ & _ & db1 & db2 & g & _ & _ & _ & _ & Hplans).
  fold forDate in Hplans.
  assert (Hclock : forall h m, 0 <= h < 24 -> 0 <= m < 60 ->
                     atClock tz workDay h m
                       (DateAt (setHours tz (newDate (toISODate forDate)) h m 0 0))).
  { intros h m Hh Hm. eexists. split; [reflexivity |].
    destruct (setHours_local tz (newDate (toISODate forDate)) h m 0 0 (clock_in_day h m Hh Hm))
      as [Hd Ht].
    split; [exact Hd |]. rewrite Ht. unfold MakeTime. lia. }
  assert (Hplan : planDay = (if tz <? 0 then label - 1 else label)).
  { subst planDay forDate. rewrite midnight_same_day.
    destruct (Z.ltb_spec tz 0).
    - apply (proj2 (localDay_of_label tz label)). lia.
    - apply (proj1 (localDay_of_label tz label)). lia. }
  assert (Hiso : toISODate forDate = (if tz =? 0 then label else label - 1)).
  { subst forDate. unfold toISODate, setHours, UTC, LocalTime, MakeTime, newDate.
    pose proof msPerDay_pos.
    destruct (Z.eqb_spec tz 0) as [-> | Hnz].
    - replace (label * msPerDay + 0) with (label * msPerDay) by lia.
      replace (Day (label * msPerDay)) with label by (symmetry; apply Day_unique; lia).
      apply Day_unique. lia.
    - destruct (Z.ltb_spec tz 0).
      + replace (Day (label * msPerDay + tz)) with (label - 1)
          by (symmetry; apply Day_unique; lia).
        apply Day_unique. lia.
      + replace (Day (label * msPerDay + tz)) with label
          by (symmetry; apply Day_unique; lia).
        apply Day_unique. lia. }
  assert (Hwork : workDay = (if tz =? 0 then planDay else planDay - 1)).
  { subst workDay. rewrite Hplan, Hiso.
    destruct (Z.eqb_spec tz 0) as [-> | Hnz].
    - cbn. apply (proj1 (localDay_of_label 0 label)). pose proof msPerDay_pos. lia.
    - destruct (Z.ltb_spec tz 0).
      + apply (proj2 (localDay_of_label tz (label - 1))). lia.
      + apply (proj1 (localDay_of_label tz (label - 1))). lia. }
  split; [| split; [exact Hplan | split; [exact Hwork | split; [| split; [| split]]]]].
  - eexists. split; [rewrite Hplans; apply in_or_app; right; now left |].
    split; reflexivity.
  - intros tables item Hitem. apply events_iff in Hitem.
    destruct Hitem as (_ & _ & _ & start & Hs & Hday). exists start. auto.
  - apply (Hclock 9 0); lia.
  - apply (Hclock 14 0); lia.
  - apply (Hclock 18 0); lia.
Qed.

End RouteProperties.

(** * The journal *)

(** The order of the journal queries: newer first. *)
Definition notOlder (a b : JournalEntry.t) : Prop :=
  JournalEntry.timestamp b <= JournalEntry.timestamp a.

Lemma insertEntry_In (e x : JournalEntry.t) (l : list JournalEntry.t) :
  In x (JournalService.insertEntry e l) <-> x = e \/ In x l.
Proof.
  induction l as [| y l IH]; cbn; [intuition congruence |].
  destruct (JournalEntry.timestamp y <=? JournalEntry.timestamp e); cbn;
    [intuition congruence |].
  rewrite IH. intuition congruence.
Qed.

Lemma insertEntry_ordered (e : JournalEntry.t) (l : list JournalEntry.t) :
  StronglySorted notOlder l -> StronglySorted notOlder (JournalService.insertEntry e l).
Proof.
  induction l as [| x l IH]; intros Hs; cbn.
  - repeat constructor.
  - apply StronglySorted_inv in Hs. destruct Hs as [Hl Hx].
    destruct (Z.leb_spec (JournalEntry.timestamp x) (JournalEntry.timestamp e)) as [Hle | Hlt].
    + constructor; [constructor; assumption |].
      constructor; [exact Hle |].
      rewrite List.Forall_forall in *. intros y Hy. specialize (Hx y Hy).
      unfold notOlder in *. lia.
    + constructor; [auto |].
      rewrite List.Forall_forall in *. intros y Hy. apply insertEntry_In in Hy.
      destruct Hy as [-> | Hy]; [unfold notOlder; lia | auto].
Qed.

Lemma insertEntry_Permutation (e : JournalEntry.t) (l : list JournalEntry.t) :
  Permutation (JournalService.insertEntry e l) (e :: l).
Proof.
  induction l as [| x l IH]; cbn; [reflexivity |].
  destruct (JournalEntry.timestamp x <=? JournalEntry.timestamp e); [reflexivity |].
  rewrite IH. apply perm_swap.
Qed.

Lemma newestFirst_ordered (l : list JournalEntry.t) :
  StronglySorted notOlder (JournalService.newestFirst l)
  /\ Permutation (JournalService.newestFirst l) l.
Proof.
  induction l as [| x l [IHs IHp]]; cbn; [split; [constructor | reflexivity] |].
  split; [now apply insertEntry_ordered |].
  rewrite insertEntry_Permutation. now constructor.
Qed.

(** The first rows of an ordered list come before the rows left out. *)
Lemma ordered_prefix {A : Type} (R : A -> A -> Prop) (n : nat) (l : list A) :
  StronglySorted R l ->
  StronglySorted R (firstn n l)
  /\ forall a b, In a (firstn n l) -> In b (skipn n l) -> R a b.
Proof.
  revert n. induction l as [| x l IH]; intros n Hs.
  - rewrite firstn_nil. split; [constructor | intros ? ? []].
  - destruct n as [| n]; [split; [constructor | intros ? ? []] |].
    apply StronglySorted_inv in Hs. destruct Hs as [Hl Hx].
    destruct (IH n Hl) as [IHs IHr]. cbn. split.
    + constructor; [exact IHs |]. rewrite List.Forall_forall in *.
      intros y Hy. apply Hx. rewrite <- (firstn_skipn n l). apply in_or_app. now left.
    + intros a b [<- | Ha] Hb; [| auto]. rewrite List.Forall_forall in Hx.
      apply Hx. rewrite <- (firstn_skipn n l). apply in_or_app. now right.
Qed.


(** X19. The journal the prompt quotes: at most three entries, the
    newest of the seven days before the date (the date itself excluded),
    newer first; when there is none the summary says so. *)
Theorem summary_quotes_the_newest_three (isoLabel : Z -> string) (db : DB) (forDate : Z) :
  let recent := recentEntries db forDate in
  (length recent <= 3)%nat
  /\ StronglySorted notOlder recent
  /\ (forall e, In e recent ->
                In e (journalEntries db)
                /\ forDate - 7 * msPerDay <= JournalEntry.timestamp e < forDate)
  /\ (exists leftOut,
         Permutation (recent ++ leftOut) (entriesBefore db forDate)
         /\ (forall e e', In e recent -> In e' leftOut -> notOlder e e')
         /\ (leftOut <> [] -> length recent = 3%nat))
  /\ (entriesBefore db forDate = [] ->
      mentalStateSummary isoLabel db forDate = "No recent journal entries."%string)
  /\ (entriesBefore db forDate <> [] ->
      mentalStateSummary isoLabel db forDate
      = join newline (List.map (summaryLine isoLabel) recent)).
Proof.
  intros recent. subst recent. unfold mentalStateSummary, recentEntries, journalBefore.
  destruct (newestFirst_ordered (entriesBefore db forDate)) as [Hs Hp].
  set (sorted := JournalService.newestFirst (entriesBefore db forDate)) in *.
  destruct (ordered_prefix notOlder 3 sorted Hs) as [Hfirst Hcross].
  split; [apply firstn_le_length | split; [exact Hfirst | split; [| split; [| split]]]].
  - intros e He.
    assert (Hin : In e sorted)
      by (rewrite <- (firstn_skipn 3 sorted); apply in_or_app; now left).
    apply (Permutation_in _ Hp) in Hin. now apply entriesBefore_spec in Hin.
  - exists (skipn 3 sorted). rewrite firstn_skipn.
    split; [exact Hp | split; [exact Hcross |]].
    intros Hrest. rewrite length_firstn.
    destruct sorted as [| a [| b [| c rest]]]; cbn in Hrest |- *; congruence || lia.
  - intros Hnone. rewrite Hnone in Hp. apply Permutation_sym, Permutation_nil in Hp.
    now rewrite Hp.
  - intros Hsome. destruct sorted as [| a rest] eqn:Hsorted; [| reflexivity].
    exfalso. apply Hsome. now apply Permutation_nil in Hp.
Qed.

Lemma length_append (a b : string) :
  String.length (a +++ b) = (String.length a + String.length b)%nat.
Proof.
  induction a as [| c a IH]; [reflexivity |]. rewrite append_cons. cbn. now rewrite IH.
Qed.

Lemma append_empty_r (a : string) : a +++ EmptyString = a.
Proof. induction a as [| c a IH]; [reflexivity |]. rewrite append_cons. now rewrite IH. Qed.

Lemma length_zero (a : string) : String.length a = 0%nat -> a = EmptyString.
Proof. destruct a; [reflexivity | discriminate]. Qed.

(** X20. What the prompt quotes of one journal entry: its text as it is
    when it has 300 characters at most, and otherwise its first 300
    characters followed by three dots, 303 characters in all. *)
Theorem excerpt_is_bounded (content : string) :
  (String.length (excerpt content) <= 303)%nat
  /\ ((String.length content <= 300)%nat -> excerpt content = content)
  /\ ((300 < String.length content)%nat ->
      exists cut,
        content = String.substring 0 300 content +++ cut
        /\ cut <> EmptyString
        /\ String.length (String.substring 0 300 content) = 300%nat
        /\ excerpt content = String.substring 0 300 content +++ "...").
Proof.
  unfold excerpt. destruct (slice0_prefix 300 content) as (cut & Hcut & Hlen).
  unfold slice0 in Hcut, Hlen.
  destruct (Nat.ltb_spec 300 (String.length content)) as [Hlong | Hshort].
  - split; [| split; [intros; lia |]].
    + rewrite length_append, Hlen. change (String.length "...") with 3%nat. lia.
    + intros _. exists cut. split; [exact Hcut | split; [| split; [| reflexivity]]].
      * intros ->. rewrite append_empty_r in Hcut. rewrite <- Hcut in Hlen. lia.
      * rewrite Hlen. lia.
  - assert (Hwhole : String.substring 0 300 content = content).
    { assert (Hc : String.length cut = 0%nat).
      { pose proof (f_equal String.length Hcut) as Hl. rewrite length_append, Hlen in Hl. lia. }
      apply length_zero in Hc. subst cut. now rewrite append_empty_r in Hcut. }
    rewrite Hwhole, append_empty_r. split; [lia | split; [reflexivity | intros; lia]].
Qed.

(** * A context without history *)

Lemma filter_nil_iff {A : Type} (p : A -> bool) (l : list A) :
  List.filter p l = [] <-> forall x, In x l -> p x = false.
Proof.
  induction l as [| x l IH]; cbn; [tauto |].
  destruct (p x) eqn:Hx.
  - split; [discriminate |]. intros H. specialize (H x (or_introl eq_refl)). congruence.
  - rewrite IH. split; [intros H y [<- | Hy]; auto | auto].
Qed.

(** X21. Without a rating and without a plan in the seven days before
    the date, the capacity is medium and the three factors read moderate:
    the averages default to 5 and the completion rate to one half, whatever
    else the tables hold. *)
Theorem no_history_is_medium (tz : Z) (db : DB) (forDate : Z) :
  (forall e, In e (entriesBefore db forDate) ->
             JournalEntry.energyLevel e = None /\ JournalEntry.sleepQuality e = None) ->
  tasksBefore db forDate = [] ->
  ctx_capacityScore (gatherContext tz db forDate) = medium
  /\ capacityFactorsOf db forDate = CapacityFactors.mk "moderate" "moderate" "moderate".
Proof.
  intros Hunrated Htasks.
  assert (He : List.filter hasEnergy (entriesBefore db forDate) = []).
  { apply filter_nil_iff. intros e Hin. unfold hasEnergy.
    now rewrite (proj1 (Hunrated e Hin)). }
  assert (Hs : List.filter hasSleep (entriesBefore db forDate) = []).
  { apply filter_nil_iff. intros e Hin. unfold hasSleep.
    now rewrite (proj2 (Hunrated e Hin)). }
  unfold capacityFactorsOf. cbn [gatherContext ctx_capacityScore].
  unfold avgEnergy, avgSleep, completionRate. rewrite He, Hs, Htasks. cbn [len length].
  split; vm_compute; reflexivity.
Qed.

(** * The answer of the model, once more *)

Lemma fencedBlock_has_two_fences (raw : string) :
  fencedBlock raw <> None <->
  exists pre mid post, raw = pre +++ fence +++ mid +++ fence +++ post.
Proof.
  split.
  - destruct (fencedBlock raw) as [inner |] eqn:Hb; [intros _ | congruence].
    apply fencedBlock_matches in Hb.
    destruct Hb as (pre & opt & ws & post & -> & _).
    exists pre, (opt +++ ws +++ inner), post. now rewrite !append_assoc.
  - intros (pre & mid & post & ->) Hnone.
    exact (fencedBlock_None _ Hnone pre mid post eq_refl).
Qed.

(** X22. The answer is read from a fenced block exactly when it holds
    two fences, one after the other; otherwise all of it is parsed. What
    is parsed is trimmed first, and a text that is not JSON reads as null. *)
Theorem block_needs_two_fences (JSON_parse : string -> option JsonValue) (raw : string) :
  (fencedBlock raw <> None <->
   exists pre mid post, raw = pre +++ fence +++ mid +++ fence +++ post)
  /\ (forall inner, fencedBlock raw = Some inner ->
        parseLLMResponse JSON_parse raw = default JNull (JSON_parse (trim inner)))
  /\ (fencedBlock raw = None ->
      parseLLMResponse JSON_parse raw = default JNull (JSON_parse (trim raw))).
Proof.
  split; [apply fencedBlock_has_two_fences | split].
  - intros inner Hb. unfold parseLLMResponse. rewrite Hb.
    destruct (JSON_parse (trim inner)); reflexivity.
  - intros Hb. unfold parseLLMResponse. rewrite Hb.
    destruct (JSON_parse (trim raw)); reflexivity.
Qed.

Fixpoint noBackquote (s : string) : bool :=
  match s with
  | EmptyString => true
  | String c r => negb (Ascii.eqb c "`") && noBackquote r
  end.

Lemma stripPrefix_other (c : ascii) (r : string) :
  Ascii.eqb c "`" = false -> stripPrefix fence (String c r) = None.
Proof.
  intros Hc. unfold fence. cbn [stripPrefix]. rewrite Ascii.eqb_sym in Hc. now rewrite Hc.
Qed.

Lemma afterFence_clean (pre x : string) :
  noBackquote pre = true -> afterFence (pre +++ fence +++ x) = Some x.
Proof.
  induction pre as [| c pre IH]; intros Hpre.
  - rewrite append_nil_l. reflexivity.
  - cbn in Hpre. apply andb_true_iff in Hpre. destruct Hpre as [Hc Hpre].
    rewrite append_cons. cbn [afterFence]. apply negb_true_iff in Hc.
    rewrite (stripPrefix_other c _ Hc). now apply IH.
Qed.

Lemma beforeFence_clean (body post : string) :
  noBackquote body = true -> beforeFence (body +++ fence +++ post) = Some body.
Proof.
  induction body as [| c body IH]; intros Hbody.
  - rewrite append_nil_l. reflexivity.
  - cbn in Hbody. apply andb_true_iff in Hbody. destruct Hbody as [Hc Hbody].
    rewrite append_cons. cbn [beforeFence]. apply negb_true_iff in Hc.
    rewrite (stripPrefix_other c _ Hc). now rewrite (IH Hbody).
Qed.

Lemma trimStart_clean (body rest : string) :
  noBackquote body = true ->
  trimStart (body +++ fence +++ rest) = trimStart body +++ fence +++ rest
  /\ noBackquote (trimStart body) = true.
Proof.
  induction body as [| c body IH]; intros Hbody.
  - rewrite !append_nil_l. split; reflexivity.
  - pose proof Hbody as Hall. cbn in Hbody. apply andb_true_iff in Hbody.
    destruct Hbody as [Hc Hbody]. rewrite append_cons. cbn [trimStart].
    destruct (isWhiteSpace c); [now apply IH |]. now rewrite append_cons.
Qed.

Lemma trimStart_idempotent (s : string) : trimStart (trimStart s) = trimStart s.
Proof.
  induction s as [| c s IH]; [reflexivity |]. cbn [trimStart].
  destruct (isWhiteSpace c) eqn:Hc; [exact IH |]. cbn [trimStart]. now rewrite Hc.
Qed.

Lemma optionalJson_tagged (body : string) : optionalJson ("json" +++ body) = body.
Proof. reflexivity. Qed.

(** X23. Prose around the block is ignored. When the model wraps its
    answer in a fence, tagged [json] or not, whatever it writes before the
    opening fence and after the closing one has no part in what is parsed:
    that is the text between the fences, trimmed. (The text before and
    the answer hold no backquote; an untagged answer does not begin with
    the letters of the tag.) *)
Theorem prose_around_the_block_is_ignored (JSON_parse : string -> option JsonValue)
    (pre body post : string) :
  noBackquote pre = true ->
  noBackquote body = true ->
  fencedBlock (pre +++ "```json" +++ body +++ "```" +++ post) = Some (trimStart body)
  /\ parseLLMResponse JSON_parse (pre +++ "```json" +++ body +++ "```" +++ post)
     = default JNull (JSON_parse (trim body))
  /\ (stripPrefix "json" body = None ->
      fencedBlock (pre +++ "```" +++ body +++ "```" +++ post) = Some (trimStart body)
      /\ parseLLMResponse JSON_parse (pre +++ "```" +++ body +++ "```" +++ post)
         = default JNull (JSON_parse (trim body))).
Proof.
  intros Hpre Hbody.
  assert (Hparse : forall raw, fencedBlock raw = Some (trimStart body) ->
             parseLLMResponse JSON_parse raw = default JNull (JSON_parse (trim body))).
  { intros raw Hb. unfold parseLLMResponse. rewrite Hb. unfold trim at 1.
    rewrite trimStart_idempotent. fold (trim body).
    destruct (JSON_parse (trim body)); reflexivity. }
  destruct (trimStart_clean body post Hbody) as [Htrim Hclean].
  assert (Htagged : fencedBlock (pre +++ "```json" +++ body +++ "```" +++ post)
                    = Some (trimStart body)).
  { unfold fencedBlock.
    change ("```json" +++ body +++ "```" +++ post)
      with (fence +++ "json" +++ body +++ fence +++ post).
    rewrite (afterFence_clean pre _ Hpre), optionalJson_tagged, Htrim.
    now apply beforeFence_clean. }
  split; [exact Htagged | split; [now apply Hparse |]].
  intros Hplain.
  assert (Huntagged : fencedBlock (pre +++ "```" +++ body +++ "```" +++ post)
                      = Some (trimStart body)).
  { unfold fencedBlock. fold fence. rewrite (afterFence_clean pre _ Hpre).
    assert (Hopt : optionalJson (body +++ fence +++ post) = body +++ fence +++ post).
    { unfold optionalJson.
      destruct (stripPrefix "json" (body +++ fence +++ post)) as [rest |] eqn:Hs;
        [| reflexivity].
      exfalso. apply stripPrefix_Some in Hs.
      clear - Hs Hplain Hbody.
      destruct body as [| j [| s [| o [| n body]]]]; try discriminate Hs;
        repeat (rewrite append_cons in Hs || rewrite append_nil_l in Hs);
        try (injection Hs as <- <- <- <- _; cbn in Hplain; discriminate);
        injection Hs as; subst; cbn in Hbody; try discriminate. }
    rewrite Hopt, Htrim. now apply beforeFence_clean. }
  split; [exact Huntagged | now apply Hparse].
Qed.

(** * Titles and time tokens *)

Lemma toLowerCase_append (a b : string) :
  toLowerCase (a +++ b) = toLowerCase a +++ toLowerCase b.
Proof.
  induction a as [| c a IH]; [now rewrite !append_nil_l |].
  rewrite append_cons. cbn [toLowerCase]. now rewrite append_cons, IH.
Qed.

Lemma lowerChar_white (c : ascii) : isWhiteSpace (lowerChar c) = isWhiteSpace c.
Proof. destruct c as [[] [] [] [] [] [] [] []]; reflexivity. Qed.

Lemma lowerChar_idempotent (c : ascii) : lowerChar (lowerChar c) = lowerChar c.
Proof. destruct c as [[] [] [] [] [] [] [] []]; reflexivity. Qed.

Lemma toLowerCase_idempotent (s : string) : toLowerCase (toLowerCase s) = toLowerCase s.
Proof.
  induction s as [| c s IH]; [reflexivity |]. cbn. now rewrite lowerChar_idempotent, IH.
Qed.

Lemma allWhite_toLowerCase (s : string) : allWhite (toLowerCase s) = allWhite s.
Proof.
  induction s as [| c s IH]; [reflexivity |]. cbn. now rewrite lowerChar_white, IH.
Qed.

Lemma trimStart_white (ws s : string) : allWhite ws = true -> trimStart (ws +++ s) = trimStart s.
Proof.
  induction ws as [| c ws IH]; intros Hws; [now rewrite append_nil_l |].
  cbn in Hws. apply andb_true_iff in Hws. destruct Hws as [Hc Hws].
  rewrite append_cons. cbn [trimStart]. rewrite Hc. now apply IH.
Qed.

Lemma trimEnd_white_only (ws : string) : allWhite ws = true -> trimEnd ws = EmptyString.
Proof.
  induction ws as [| c ws IH]; intros Hws; [reflexivity |].
  cbn in Hws. apply andb_true_iff in Hws. destruct Hws as [Hc Hws].
  cbn [trimEnd]. now rewrite (IH Hws), Hc.
Qed.

Lemma trimEnd_white (s ws : string) : allWhite ws = true -> trimEnd (s +++ ws) = trimEnd s.
Proof.
  intros Hws. induction s as [| c s IH].
  - rewrite append_nil_l. now apply trimEnd_white_only.
  - rewrite append_cons. cbn [trimEnd]. now rewrite IH.
Qed.

Lemma trimStart_append_white (s ws : string) :
  allWhite ws = true ->
  trimStart (s +++ ws) = trimStart s +++ ws \/ (trimStart (s +++ ws) = EmptyString
                                                /\ trimStart s = EmptyString).
Proof.
  intros Hws. induction s as [| c s IH].
  - right. rewrite append_nil_l. split; [| reflexivity].
    rewrite <- (append_empty_r ws). rewrite (trimStart_white ws EmptyString Hws). reflexivity.
  - rewrite append_cons. cbn [trimStart]. destruct (isWhiteSpace c); [exact IH |].
    left. now rewrite append_cons.
Qed.

Lemma trim_padded (before s after : string) :
  allWhite before = true -> allWhite after = true ->
  trim (before +++ s +++ after) = trim s.
Proof.
  intros Hb Ha. unfold trim. rewrite (trimStart_white before _ Hb).
  destruct (trimStart_append_white s after Ha) as [-> | [-> ->]]; [| reflexivity].
  now apply trimEnd_white.
Qed.

(** X24. The key a title is matched by is blind to letter case and to
    white space around the title: padding a title with white space or
    changing the case of its letters gives the same key, so an entry and a
    pool item whose titles differ in nothing else are matched. *)
Theorem title_key_is_insensitive (before title after : string) :
  allWhite before = true -> allWhite after = true ->
  titleKey (before +++ title +++ after) = titleKey title
  /\ titleKey (toLowerCase title) = titleKey title
  /\ (forall (t : LLMTask.t) (item : PoolItem.t),
        LLMTask.title t = before +++ toLowerCase (PoolItem.title item) +++ after ->
        sameTitle t item = true).
Proof.
  intros Hb Ha.
  assert (Hpad : forall s, titleKey (before +++ s +++ after) = titleKey s).
  { intros s. unfold titleKey. rewrite !toLowerCase_append.
    apply trim_padded; now rewrite allWhite_toLowerCase. }
  assert (Hlow : forall s, titleKey (toLowerCase s) = titleKey s).
  { intros s. unfold titleKey. now rewrite toLowerCase_idempotent. }
  split; [apply Hpad | split; [apply Hlow |]].
  intros t item Ht. unfold sameTitle. rewrite Ht, Hpad, Hlow. apply String.eqb_refl.
Qed.


Lemma split_nonempty (s : string) : split ":" s <> [].
Proof.
  induction s as [| c s IH]; cbn; [discriminate |].
  destruct (Ascii.eqb c ":"); [discriminate |]. destruct (split ":" s); discriminate.
Qed.




(** * The status of a schedule entry *)

Definition hasTaskId (taskId : string) (r : TaskRow.t) : bool := String.eqb (TaskRow.id r) taskId.

Lemma find_existsb {A : Type} (p : A -> bool) (l : list A) :
  existsb p l = present (List.find p l).
Proof. induction l as [| x l IH]; cbn; [reflexivity |]. destruct (p x); auto. Qed.

(** X26. [updateTaskStatus] fails when no entry has the identifier.
    Otherwise it changes that entry alone: its status is the one given; its
    time of completion is the instant of the call when the status is
    [completed] and is left as it was otherwise, so an entry that is taken
    back from [completed] keeps the time at which it was completed; its note
    is replaced only when a note is given; nothing else of it changes. *)
Theorem updateTaskStatus_keeps_completion (now : Z) (taskId : string) (status : TaskStatus.t)
    (notes : option string) (rows : list TaskRow.t) :
  (List.find (hasTaskId taskId) rows = None ->
   updateTaskStatus now taskId status notes rows = None)
  /\ (forall row, List.find (hasTaskId taskId) rows = Some row ->
        exists rows' row',
          updateTaskStatus now taskId status notes rows = Some rows'
          /\ In row' rows'
          /\ length rows' = length rows
          /\ (forall n other, nth_error rows n = Some other -> TaskRow.id other <> taskId ->
                              nth_error rows' n = Some other)
          /\ TaskRow.id row' = taskId
          /\ Task.status (TaskRow.data row') = status
          /\ withStatus TaskStatus.pending (TaskRow.data row')
             = withStatus TaskStatus.pending (TaskRow.data row)
          /\ (status = TaskStatus.completed -> TaskRow.completedAt row' = Some now)
          /\ (status <> TaskStatus.completed ->
              TaskRow.completedAt row' = TaskRow.completedAt row)
          /\ (notes = None -> TaskRow.notes row' = TaskRow.notes row)
          /\ (forall note, notes = Some note -> TaskRow.notes row' = Some note)).
Proof.
  unfold updateTaskStatus. fold (hasTaskId taskId). rewrite find_existsb. split.
  - intros ->. reflexivity.
  - intros row Hfind. rewrite Hfind. cbn [present].
    set (f := fun r : TaskRow.t => TaskRow.mk _ _ _ _).
    destruct (updateFirst_frame (hasTaskId taskId) f rows) as [Hlen Hnth].
    destruct (updateFirst_split (hasTaskId taskId) f rows row Hfind)
      as (pre & post & _ & _ & Hrows).
    pose proof (find_some _ _ Hfind) as [_ Hid]. apply String.eqb_eq in Hid.
    exists (updateFirst (hasTaskId taskId) f rows), (f row).
    split; [reflexivity | split; [| split; [exact Hlen | split]]].
    + rewrite Hrows. apply in_or_app. right. now left.
    + intros n other Hn Hother. apply Hnth; [exact Hn |].
      unfold hasTaskId. now apply String.eqb_neq.
    + subst f. cbn. repeat split; auto.
      * intros ->. reflexivity.
      * intros Hs. destruct status; congruence.
      * intros ->. reflexivity.
      * intros note ->. reflexivity.
Qed.

(** * The model server *)

(** What [fetch] on the model server comes to: no connection, or an answer
    with its [ok] flag and its body, which is no JSON ([None]) or an object
    with or without [response]. *)
Inductive Exchange : Type :=
| Unreachable
| Answered (ok : bool) (body : option (option string)).

(** [generate] of [ollama.ts]: [None] when it throws, and [data.response ||
    ''] when it returns. The request it sends is not modelled. *)
Definition generate (exchange : Exchange) : option string :=
  match exchange with
  | Unreachable => None
  | Answered false _ => None
  | Answered true None => None
  | Answered true (Some response) => Some (default EmptyString (truthyStr response))
  end.

(** X27. A model server that answers without a text. [generate] never
    returns an undefined text: an answer that is fine but holds no
    [response], or an empty one, reads as the empty text, which is no JSON,
    so the run is rejected as an invalid plan, with nothing after "Raw
    response: ", and writes nothing. When the server cannot be reached,
    answers with an error status or with a body that is no JSON, [generate]
    throws and the run is rejected without a write as well. *)
Theorem silent_model_is_rejected (tz : Z) (Number : string -> option Z)
    (JSON_parse : string -> option JsonValue) (rejects : Write -> bool) (newId : DB -> string)
    (db : DB) (forDate : Z) :
  JSON_parse EmptyString = None ->
  generate (Answered true (Some None)) = Some EmptyString
  /\ generate (Answered true (Some (Some EmptyString))) = Some EmptyString
  /\ (forall text, text <> EmptyString ->
                   generate (Answered true (Some (Some text))) = Some text)
  /\ generatePlan tz Number JSON_parse rejects newId db forDate (Some EmptyString)
     = (Rejected (InvalidPlan "LLM did not return a valid plan with tasks. Raw response: "), db)
  /\ (forall exchange,
        generate exchange = None <->
        exchange = Unreachable
        \/ (exists body, exchange = Answered false body)
        \/ exchange = Answered true None)
  /\ (forall exchange,
        generate exchange = None ->
        generatePlan tz Number JSON_parse rejects newId db forDate (generate exchange)
        = (Rejected GenerateFailed, db)).
Proof.
  intros Hjson. split; [reflexivity | split; [reflexivity | split; [| split; [| split]]]].
  - intros text Htext. unfold generate. now rewrite (truthyStr_Some text Htext).
  - unfold generatePlan, transaction.
    rewrite (body_invalid tz Number JSON_parse rejects newId _ forDate EmptyString db);
      [reflexivity |].
    unfold validReply, parsedOf, parseLLMResponse. cbn. now rewrite Hjson.
  - intros [| [|] [body |]]; cbn; split; try discriminate; auto.
    + intros [H | [(b & H) | H]]; discriminate.
    + intros _. right. left. eauto.
    + intros _. right. left. eauto.
  - intros exchange ->. reflexivity.
Qed.

(** * Worked instances of the services

    A storage layer that accepts every request and names a new row after
    the number of rows there are, and a host on UTC. *)

Definition reliable : Request -> DB -> bool := fun _ _ => false.

Definition rowCount (db : DB) : nat :=
  (length (dailyPlans db) + length (poolItems db) + length (categories db))%nat.

Definition nextId : DB -> string :=
  fun db => String.append "row-" (String (ascii_of_nat (65 + rowCount db)) EmptyString).

(** [new Date] on the one date of the instances. *)
Definition parseDay : string -> JsDate :=
  fun s => if String.eqb s "2024-01-15" then DateAt jan15 else Invalid_Date.

Definition homeAfter : DB :=
  mkDB [homePlan] [walkRow; dentistRow] [markUsed jan15 walk; markUsed jan15 dentist]
    [exercise] [].

Definition shelved : PoolItem.t :=
  PoolItem.mk "t9" task "Repot the fern" None None None None PoolItemStatus.paused None 0 None.

Definition stockedDB : DB := mkDB [] [] [walk; dentist; shelved] [exercise] [].

Definition requested (replace : bool) (reply : string) (db : DB) : Response * DB :=
  postGenerate 0 decimalNumber (parseTable replies) accepting reliable nextId parseDay
    (Some "2024-01-15") replace (Some reply) db.

(** The run of the worked instances above, for the theorems about a commit. *)
Lemma home_run :
  generatePlan 0 decimalNumber (parseTable replies) accepting firstId homeDB jan15
    (Some "two entries")
  = (Fulfilled (mkGenerated "plan-1" 2), homeAfter).
Proof. vm_compute. reflexivity. Qed.

Lemma consumed_items_rest_witness :
  PoolItem.lastUsedAt (markUsed jan15 walk) = Some jan15
  /\ (forall d,
        In (markUsed jan15 walk)
          (av_tasks (getAvailableForDate 0 homeAfter d)
           ++ av_aspirations (getAvailableForDate 0 homeAfter d)) <->
        PoolItem.status (markUsed jan15 walk) = PoolItemStatus.active
        /\ (PoolItem.type (markUsed jan15 walk) = task
            \/ PoolItem.type (markUsed jan15 walk) = aspiration)
        /\ jan15 + cooldownOf (markUsed jan15 walk) * msPerDay <= d)
  /\ (1 <= cooldownOf (markUsed jan15 walk) ->
      ~ In (markUsed jan15 walk)
          (av_tasks (getAvailableForDate 0 homeAfter jan15)
           ++ av_aspirations (getAvailableForDate 0 homeAfter jan15))).
Proof.
  apply (consumed_items_rest 0 decimalNumber (parseTable replies) accepting firstId homeDB
           jan15 "two entries" (mkGenerated "plan-1" 2) homeAfter home_run
           (markUsed jan15 walk)).
  - simpl. left. reflexivity.
  - vm_compute. reflexivity.
Defined.

Lemma placed_events_stay_witness :
  av_events (getAvailableForDate 0 homeAfter jan15)
  = List.map (fun item => if idIn (allMarks (parseTable replies) homeCtx "two entries") item
                          then markUsed jan15 item else item)
      (av_events (getAvailableForDate 0 homeDB jan15)).
Proof.
  apply (placed_events_stay 0 decimalNumber (parseTable replies) accepting firstId homeDB
           jan15 "two entries" (mkGenerated "plan-1" 2) homeAfter home_run jan15).
Defined.

(** The event that was placed is offered again, used once. *)
Example dentist_is_offered_again :
  av_events (getAvailableForDate 0 homeAfter jan15) = [markUsed jan15 dentist].
Proof. vm_compute. reflexivity. Qed.

Lemma stocked_run :
  generatePlan 0 decimalNumber (parseTable replies) accepting firstId stockedDB jan15
    (Some "two entries")
  = (Fulfilled (mkGenerated "plan-1" 2),
     mkDB [homePlan] [walkRow; dentistRow]
       [markUsed jan15 walk; markUsed jan15 dentist; shelved] [exercise] []).
Proof. vm_compute. reflexivity. Qed.

Lemma only_offered_items_are_consumed_witness :
  nth_error [markUsed jan15 walk; markUsed jan15 dentist; shelved] 2 = Some shelved.
Proof.
  apply (only_offered_items_are_consumed 0 decimalNumber (parseTable replies) accepting
           firstId stockedDB jan15 "two entries" (mkGenerated "plan-1" 2)
           (mkDB [homePlan] [walkRow; dentistRow]
              [markUsed jan15 walk; markUsed jan15 dentist; shelved] [exercise] [])).
  - simpl. repeat constructor; simpl; intuition discriminate.
  - exact stocked_run.
  - reflexivity.
  - vm_compute. intuition discriminate.
Defined.

Lemma reported_count_bounds_created_witness :
  exists created,
    tasks homeAfter = tasks homeDB ++ created
    /\ len created <= 2
    /\ (idsNonEmpty homeDB ->
        (forall ev, In ev (eventsToPlace homeCtx) -> eventCategory homeCtx (fst ev) <> None) ->
        len created = 2).
Proof.
  apply (reported_count_bounds_created 0 decimalNumber (parseTable replies) accepting firstId
           homeDB jan15 "two entries" (mkGenerated "plan-1" 2) homeAfter home_run).
Defined.

(** The count can exceed what was created: with no enabled category the
    event of the day finds none, it is counted and not placed. *)
Example counted_and_not_created :
  generatePlan 0 decimalNumber (parseTable replies) accepting firstId
    (mkDB [] [] [dentist] [] []) jan15 (Some "no entry")
  = (Fulfilled (mkGenerated "plan-1" 1),
     mkDB [DailyPlan.mk "plan-1" jan15 medium (Some "A light day.")] [] [dentist] [] []).
Proof. vm_compute. reflexivity. Qed.

Definition readingTask : CreatePoolItemInput.t :=
  CreatePoolItemInput.mk task "Read" None None None None (Some 0).




Definition readingRow : PoolItem.t :=
  PoolItem.mk "row-D" task "Read" None None None None PoolItemStatus.active None 0 None.

Lemma created_item_is_offered_witness :
  In readingRow (av_tasks (getAvailableForDate 0 (setPoolItems homeDB [walk; dentist; readingRow])
                             jan15)).
Proof.
  apply (created_item_is_offered 0 reliable nextId readingTask homeDB readingRow
           (setPoolItems homeDB [walk; dentist; readingRow])).
  - vm_compute. reflexivity.
  - reflexivity.
Defined.

(** The override of zero days that [readingTask] asked for is not stored:
    the row has the cooldown of a task, one day. *)
Example zero_override_is_dropped :
  PoolItem.cooldownDays readingRow = None /\ cooldownOf readingRow = 1.
Proof. split; reflexivity. Qed.

(** The route, asked twice for 15 January 2024. *)
Lemma first_request :
  requested false "two entries" homeDB
  = (Created "row-J" 2 (Some (DailyPlan.mk "row-J" jan15 medium (Some "A light day."))),
     snd (requested false "two entries" homeDB)).
Proof. vm_compute. reflexivity. Qed.

Lemma second_request_conflicts_witness :
  (exists created,
      In created (dailyPlans (snd (requested false "two entries" homeDB)))
      /\ DailyPlan.id created = "row-J"%string
      /\ DailyPlan.date created = setHours 0 jan15 0 0 0 0)
  /\ (exists found,
        In found (dailyPlans (snd (requested false "two entries" homeDB)))
        /\ localDay 0 (DailyPlan.date found) = localDay 0 jan15
        /\ forall reply',
             postGenerate 0 decimalNumber (parseTable replies) accepting reliable nextId parseDay
               (Some "2024-01-15") false reply' (snd (requested false "two entries" homeDB))
             = (Conflict (DailyPlan.id found), snd (requested false "two entries" homeDB)))
  /\ (DailyPlanService.findByDate 0 (setHours 0 jan15 0 0 0 0) homeDB = None ->
      forall reply',
        postGenerate 0 decimalNumber (parseTable replies) accepting reliable nextId parseDay
          (Some "2024-01-15") false reply' (snd (requested false "two entries" homeDB))
        = (Conflict "row-J", snd (requested false "two entries" homeDB))).
Proof.
  apply (second_request_conflicts 0 decimalNumber (parseTable replies) accepting reliable
           nextId parseDay "2024-01-15" jan15 false (Some "two entries") homeDB "row-J" 2
           (Some (DailyPlan.mk "row-J" jan15 medium (Some "A light day.")))
           (snd (requested false "two entries" homeDB))).
  - reflexivity.
  - exact first_request.
Defined.

(** The second request, whatever the model would answer. *)
Example asked_twice :
  requested false "one entry" (snd (requested false "two entries" homeDB))
  = (Conflict "row-J", snd (requested false "two entries" homeDB)).
Proof. vm_compute. reflexivity. Qed.

Definition emptied : DB :=
  setDailyPlans
    (setTasks homeAfter
       (List.filter (fun t => negb (String.eqb (Task.dailyPlanId t) (DailyPlan.id homePlan)))
          (tasks homeAfter)))
    (removeFirst (DailyPlanService.hasId (DailyPlan.id homePlan)) (dailyPlans homeAfter)).

Lemma failed_replacement_loses_the_plan_witness :
  requested true "Sorry" homeAfter
  = (ServerError
       (EngineError
          (InvalidPlan "LLM did not return a valid plan with tasks. Raw response: Sorry")),
     tablesOf (CategoryService.initializeDefaultCategories reliable nextId emptied))
  /\ dailyPlans (tablesOf (CategoryService.initializeDefaultCategories reliable nextId emptied))
     = []
  /\ tasks (tablesOf (CategoryService.initializeDefaultCategories reliable nextId emptied)) = [].
Proof.
  destruct (failed_replacement_loses_the_plan 0 decimalNumber (parseTable replies) accepting
              reliable nextId parseDay "2024-01-15" jan15 (Some "Sorry") homeAfter homePlan
              (tablesOf (CategoryService.initializeDefaultCategories reliable nextId emptied))
              (InvalidPlan "LLM did not return a valid plan with tasks. Raw response: Sorry"))
    as (Hroute & Hplans & Htasks & _).
  - discriminate.
  - reflexivity.
  - vm_compute. reflexivity.
  - vm_compute. reflexivity.
  - vm_compute. reflexivity.
  - vm_compute. reflexivity.
  - split; [exact Hroute | split; [rewrite Hplans | rewrite Htasks]]; reflexivity.
Defined.

Lemma generated_plan_days_witness :
  localDay 0 (setHours 0 (newDate 19737) 0 0 0 0) = 19737
  /\ localDay 0 (newDate (toISODate (setHours 0 (newDate 19737) 0 0 0 0))) = 19737.
Proof.
  destruct (generated_plan_days 0 decimalNumber (parseTable replies) accepting reliable nextId
              parseDay "2024-01-15" 19737 false (Some "two entries") homeDB "row-J" 2
              (Some (DailyPlan.mk "row-J" jan15 medium (Some "A light day.")))
              (snd (requested false "two entries" homeDB)))
    as (_ & Hplan & Hwork & _).
  - reflexivity.
  - unfold msPerDay. lia.
  - exact first_request.
  - split; [exact Hplan | rewrite Hwork; exact Hplan].
Defined.

(** The same request on a host five hours west of Greenwich and on one
    two hours east of it: the plan is dated 14 and 15 January, its events
    and entries are those of 13 and 14 January. *)
Example days_off_utc :
  let west := setHours utcMinus5 (newDate 19737) 0 0 0 0 in
  let east := setHours (2 * msPerHour) (newDate 19737) 0 0 0 0 in
  localDay utcMinus5 west = 19736
  /\ localDay utcMinus5 (newDate (toISODate west)) = 19735
  /\ localDay (2 * msPerHour) east = 19737
  /\ localDay (2 * msPerHour) (newDate (toISODate east)) = 19736.
Proof. vm_compute. repeat split; reflexivity. Qed.

Lemma no_history_is_medium_witness :
  ctx_capacityScore (gatherContext 0 homeDB jan15) = medium
  /\ capacityFactorsOf homeDB jan15 = CapacityFactors.mk "moderate" "moderate" "moderate".
Proof.
  apply (no_history_is_medium 0 homeDB jan15).
  - simpl. intros e [].
  - reflexivity.
Defined.

Lemma prose_around_the_block_is_ignored_witness :
  fencedBlock ("Here is your plan: " +++ "```json" +++ " {} " +++ "```" +++ " Enjoy `it`!")
  = Some "{} "%string.
Proof.
  apply (proj1 (prose_around_the_block_is_ignored (parseTable replies) "Here is your plan: "
                  " {} " " Enjoy `it`!" eq_refl eq_refl)).
Defined.

Lemma title_key_is_insensitive_witness :
  titleKey ("  " +++ "Walk" +++ " ") = titleKey "Walk".
Proof.
  apply (proj1 (title_key_is_insensitive "  " "Walk" " " eq_refl eq_refl)).
Defined.


(** Hours past the day and minutes past the hour run over: 24:00 is the
    next midnight and 9:75 is a quarter past ten. *)
Example tokens_run_over :
  timeToDate 0 decimalNumber 19737 "24:00" = DateAt (jan15 + msPerDay)
  /\ timeToDate 0 decimalNumber 19737 "9:75"
     = DateAt (jan15 + 10 * msPerHour + 15 * msPerMinute)
  /\ timeToDate 0 decimalNumber 19737 "9" = DateAt (jan15 + 9 * msPerHour).
Proof. vm_compute. repeat split; reflexivity. Qed.

Lemma silent_model_is_rejected_witness :
  generatePlan 0 decimalNumber (parseTable replies) accepting firstId homeDB jan15
    (generate (Answered true (Some None)))
  = (Rejected (InvalidPlan "LLM did not return a valid plan with tasks. Raw response: "),
     homeDB).
Proof.
  apply (proj1 (proj2 (proj2 (proj2 (silent_model_is_rejected 0 decimalNumber
                                       (parseTable replies) accepting firstId homeDB jan15
                                       eq_refl))))).
Defined.
